(** * AutoThreat AI front end: the streaming client of [app/frontend/js/main.js]

    A shallow embedding of the page script: the module-level variables and
    the parts of the DOM the script touches become one [state] record, each
    JavaScript function becomes a Rocq function over that record, and the
    asynchronous read loop of [streamQuery] becomes a function over the list
    of results its [reader.read()] calls resolve to.

    Strings are JavaScript strings: sequences of UTF-16 code units, here
    [list N].  Decoded events are arbitrary JSON values, as [JSON.parse]
    returns them.  The built-ins whose behaviour is fixed by the engine and
    not by this script ([JSON.parse], [TextDecoder], [toLowerCase], number
    formatting, the members of [Object.prototype]) are collected in the
    class [Platform]; general theorems hold for every platform, scenarios
    are run on [reference_platform]. *)

From stdpp Require Import gmap list strings.
From Equations Require Import Equations.
From Stdlib Require Import NArith Strings.Byte DecimalString.

Local Open Scope N_scope.
#[local] Set Warnings "-register-all,-clear-no-such-hyp".

(** ** JavaScript strings *)

Abbreviation jsstring := (list N).

(** A string literal of the script, as code units. *)
Definition js (s : string) : jsstring :=
  (λ a, Ascii.N_of_ascii a) <$> String.list_ascii_of_string s.
Arguments js s%_string.

Module Str.

  (** [s.startsWith(p)] *)
Fixpoint startsWith (p s : jsstring) : bool :=
    match p, s with
    | [], _ => true
    | _ :: _, [] => false
    | a :: p', b :: s' => if N.eqb a b then startsWith p' s' else false
    end.

  (** [s.endsWith(p)] *)
Definition endsWith (p s : jsstring) : bool :=
    startsWith (reverse p) (reverse s).

  (** [s.includes(p)] *)
Fixpoint includes (p s : jsstring) : bool :=
    startsWith p s ||
    match s with
    | [] => false
    | _ :: s' => includes p s'
    end.

  (** [s.indexOf('\n')]; [None] stands for [-1]. *)
Fixpoint indexOf_newline (s : jsstring) : option nat :=
    match s with
    | [] => None
    | c :: s' => if N.eqb c 10 then Some O else S <$> indexOf_newline s'
    end.

Lemma indexOf_newline_lt s i : indexOf_newline s = Some i → (i < length s)%nat.
Proof.
    revert i; induction s as [|c s IH]; intros i; simpl; [done|].
    destruct (N.eqb c 10); [intros [= <-]; lia|].
    destruct (indexOf_newline s) as [j|]; simpl; [|done].
    intros [= <-]. specialize (IH j eq_refl). lia.
Qed.

  (** [s.substring(0, n)] and [s.substring(n)] for [0 <= n]. *)
Definition substring_to (n : nat) (s : jsstring) : jsstring := take n s.
Definition substring_from (n : nat) (s : jsstring) : jsstring := drop n s.

  (** ECMAScript [WhiteSpace] and [LineTerminator] code units, the set
      [String.prototype.trim] strips. *)
Definition is_whitespace (c : N) : bool :=
    (N.leb 9 c && N.leb c 13) || N.eqb c 32 || N.eqb c 160 || N.eqb c 5760
    || (N.leb 8192 c && N.leb c 8202) || N.eqb c 8232 || N.eqb c 8233
    || N.eqb c 8239 || N.eqb c 8287 || N.eqb c 12288 || N.eqb c 65279.

Fixpoint trimStart (s : jsstring) : jsstring :=
    match s with
    | [] => []
    | c :: s' => if is_whitespace c then trimStart s' else s
    end.

  (** [s.trim()] *)
Definition trim (s : jsstring) : jsstring :=
    reverse (trimStart (reverse (trimStart s))).

  (** The strings a [for ... of] loop over a string yields: one per code
      point, a surrogate pair staying together. *)
Fixpoint code_points (s : jsstring) : list jsstring :=
    match s with
    | [] => []
    | c :: s' =>
        match s' with
        | d :: s'' =>
            if (N.leb 55296 c && N.leb c 56319) && (N.leb 56320 d && N.leb d 57343)
            then match code_points s' with
                 | _ :: rest => [c; d] :: rest
                 | [] => [[c; d]]
                 end
            else [c] :: code_points s'
        | [] => [[c]]
        end
    end.

End Str.

(** ** JSON values

    What [JSON.parse] returns, plus [undefined], which property reads
    produce.  A number is kept as the literal it was parsed from; what the
    engine makes of it is the platform's [Number_truthy] and
    [Number_toString].  The properties of an object are its own properties
    in enumeration order, keys distinct. *)

Inductive value : Type :=
| VUndefined
| VNull
| VBool (b : bool)
| VNumber (literal : jsstring)
| VString (s : jsstring)
| VArray (elements : list value)
| VObject (properties : list (jsstring * value)).

(** ** The engine's built-ins *)

Class Platform : Type := {
  (** [JSON.parse(text)]; [None] when it throws [SyntaxError]. *)
  JSON_parse : jsstring → option value;
  (** [String.prototype.toLowerCase] *)
  toLowerCase : jsstring → jsstring;
  (** [ToBoolean] and [ToString] of the number a literal denotes. *)
  Number_truthy : jsstring → bool;
  Number_toString : jsstring → jsstring;
  (** [Object.prototype]: for a property name every plain object inherits
      ([constructor], [toString], [__proto__], ...), the text [ToString]
      gives for the inherited member. *)
  Object_prototype : jsstring → option jsstring;
  (** [new TextDecoder()] fed with [{stream: true}]: a transducer that
      consumes one byte at a time and emits the code units completed by
      that byte. *)
  decoder_state : Type;
  decoder_init : decoder_state;
  decoder_step : decoder_state → byte → decoder_state * jsstring;
  (** The message of the [TypeError] thrown by reading property [k] of
      [null]. *)
  null_read_message : jsstring → jsstring;
}.

(** ** Language-level operations on values *)

Section Values.
Context `{!Platform}.

  (** [ToBoolean] *)
Definition truthy (v : value) : bool :=
    match v with
    | VUndefined | VNull => false
    | VBool b => b
    | VNumber lit => Number_truthy lit
    | VString s => negb (bool_decide (s = []))
    | VArray _ | VObject _ => true
    end.

Fixpoint lookup_property (k : jsstring) (props : list (jsstring * value)) : option value :=
    match props with
    | [] => None
    | (k', v) :: rest => if bool_decide (k' = k) then Some v else lookup_property k rest
    end.

  (** [v.k] for the property names this script reads on decoded data
      ([author], [finishReason], [actions], [toolCalls], [artifactDelta],
      [content], [parts], [text], [name], [response], [filePath],
      [file_path]): none of them is defined on a prototype, so the read
      gives an own property of an object and [undefined] otherwise.
      [None] is the [TypeError] of reading a property of [null] or
      [undefined]. *)
Definition get (v : value) (k : jsstring) : option value :=
    match v with
    | VUndefined | VNull => None
    | VObject props => Some (default VUndefined (lookup_property k props))
    | _ => Some VUndefined
    end.

Fixpoint join (sep : jsstring) (parts : list jsstring) : jsstring :=
    match parts with
    | [] => []
    | [p] => p
    | p :: rest => p ++ sep ++ join sep rest
    end.

  (** [ToString(v)], as applied by string concatenation, template literals
      and property keys.  An array joins its elements with commas ([null]
      and [undefined] as the empty string); a plain object gives
      ["[object Object]"] through the inherited [toString], unless an own
      data property of that name hides it, and then no conversion exists:
      [None] is that [TypeError]. *)
Fixpoint to_string (v : value) : option jsstring :=
    match v with
    | VUndefined => Some (js "undefined")
    | VNull => Some (js "null")
    | VBool true => Some (js "true")
    | VBool false => Some (js "false")
    | VNumber lit => Some (Number_toString lit)
    | VString s => Some s
    | VArray l =>
        join (js ",") <$>
          (fix elements (l : list value) : option (list jsstring) :=
             match l with
             | [] => Some []
             | e :: l' =>
                 match (match e with
                        | VUndefined | VNull => Some []
                        | _ => to_string e
                        end), elements l' with
                 | Some s, Some ss => Some (s :: ss)
                 | _, _ => None
                 end
             end) l
    | VObject props =>
        match lookup_property (js "toString") props with
        | Some _ => None
        | None => Some (js "[object Object]")
        end
    end.

  (** [v === 'literal'] *)
Definition is_string (lit : jsstring) (v : value) : bool :=
    match v with
    | VString s => bool_decide (s = lit)
    | _ => false
    end.

  (** [v.includes('literal')]: substring search on a string, membership
      on an array; any other receiver has no [includes] and the call
      throws ([None]). *)
Definition includes (lit : jsstring) (v : value) : option bool :=
    match v with
    | VString s => Some (Str.includes lit s)
    | VArray l => Some (existsb (is_string lit) l)
    | _ => None
    end.

  (** The values a [for ... of] loop visits; [None] when the value is not
      iterable. *)
Definition iterate (v : value) : option (list value) :=
    match v with
    | VArray l => Some l
    | VString s => Some (VString <$> Str.code_points s)
    | _ => None
    end.

  (** [Object.entries(v)] restricted to the entries whose key can end in
      [".pdf"]: the own properties of an object.  The entries of a string or
      an array are keyed by indices, a number or a boolean has none. *)
Definition entries (v : value) : list (jsstring * value) :=
    match v with
    | VObject props => props
    | _ => []
    end.

End Values.

(** ** The page: script variables and the DOM the script touches *)

(** The three status strings ['waiting'], ['active'], ['completed'] passed
    to [setAgentStatus] and stored in [agentStatuses]. *)
Inductive status : Type := waiting | active | completed.

#[global] Instance status_eq_dec : EqDecision status.
Proof. solve_decision. Defined.

Definition status_name (st : status) : jsstring :=
  match st with
  | waiting => js "waiting"
  | active => js "active"
  | completed => js "completed"
  end.

(** An agent card [<div id="agent-...">]: its class list, and the text of
    its [.agent-status] child when it has one. *)
Record card : Type := {
  classList : list jsstring;
  agent_status_text : option jsstring;
}.

(** What the script assigns to [reportContent.innerHTML]: one of its three
    placeholders, the error box of [startAnalysis], or the rendered
    report. *)
Inductive display : Type :=
| PlaceholderInitial      (* 'Your security threat report will appear here...' *)
| PlaceholderStarting     (* 'Starting analysis... Your report will appear here ...' *)
| PlaceholderProcessing   (* 'Processing... Your report will appear here ...' *)
| ErrorBox (message : jsstring)   (* 'Error: ${error.message}' *)
| Rendered (html : jsstring).

Record file : Type := {
  file_name : jsstring;
  file_type : jsstring;
  file_size : N;
}.

Record state : Type := {
  (* let currentSessionId, abortController, fullReport, pdfFilePath,
     agentStatuses, uploadedFile *)
  currentSessionId : value;
  abortController : option nat;   (* the current controller, by allocation number *)
  fullReport : jsstring;
  pdfFilePath : value;
  agentStatuses : gmap jsstring status;
  uploadedFile : option file;
  (* the AbortController objects created so far and the aborted ones *)
  controllers : nat;
  aborted : gset nat;
  (* DOM *)
  input_value : jsstring;
  cards : gmap jsstring card;     (* keyed by element id *)
  reportContent : display;
  analyzeBtn_disabled : bool;
  resetBtn_disabled : bool;
  downloadBtn_disabled : bool;
  diagramUpload_value : jsstring;
  filePreview_display : jsstring;
  balloons : option nat;          (* children of #balloon-container, if it exists *)
  alerts : list jsstring;         (* messages shown by alert(), latest first *)
}.

Definition with_fullReport (x : jsstring) (s : state) : state :=
  {| currentSessionId := currentSessionId s; abortController := abortController s;
     fullReport := x; pdfFilePath := pdfFilePath s;
     agentStatuses := agentStatuses s; uploadedFile := uploadedFile s;
     controllers := controllers s; aborted := aborted s;
     input_value := input_value s; cards := cards s;
     reportContent := reportContent s;
     analyzeBtn_disabled := analyzeBtn_disabled s;
     resetBtn_disabled := resetBtn_disabled s;
     downloadBtn_disabled := downloadBtn_disabled s;
     diagramUpload_value := diagramUpload_value s;
     filePreview_display := filePreview_display s;
     balloons := balloons s; alerts := alerts s |}.

Definition with_pdfFilePath (x : value) (s : state) : state :=
  {| currentSessionId := currentSessionId s; abortController := abortController s;
     fullReport := fullReport s; pdfFilePath := x;
     agentStatuses := agentStatuses s; uploadedFile := uploadedFile s;
     controllers := controllers s; aborted := aborted s;
     input_value := input_value s; cards := cards s;
     reportContent := reportContent s;
     analyzeBtn_disabled := analyzeBtn_disabled s;
     resetBtn_disabled := resetBtn_disabled s;
     downloadBtn_disabled := downloadBtn_disabled s;
     diagramUpload_value := diagramUpload_value s;
     filePreview_display := filePreview_display s;
     balloons := balloons s; alerts := alerts s |}.

Definition with_agentStatuses (x : gmap jsstring status) (s : state) : state :=
  {| currentSessionId := currentSessionId s; abortController := abortController s;
     fullReport := fullReport s; pdfFilePath := pdfFilePath s;
     agentStatuses := x; uploadedFile := uploadedFile s;
     controllers := controllers s; aborted := aborted s;
     input_value := input_value s; cards := cards s;
     reportContent := reportContent s;
     analyzeBtn_disabled := analyzeBtn_disabled s;
     resetBtn_disabled := resetBtn_disabled s;
     downloadBtn_disabled := downloadBtn_disabled s;
     diagramUpload_value := diagramUpload_value s;
     filePreview_display := filePreview_display s;
     balloons := balloons s; alerts := alerts s |}.

Definition with_cards (x : gmap jsstring card) (s : state) : state :=
  {| currentSessionId := currentSessionId s; abortController := abortController s;
     fullReport := fullReport s; pdfFilePath := pdfFilePath s;
     agentStatuses := agentStatuses s; uploadedFile := uploadedFile s;
     controllers := controllers s; aborted := aborted s;
     input_value := input_value s; cards := x;
     reportContent := reportContent s;
     analyzeBtn_disabled := analyzeBtn_disabled s;
     resetBtn_disabled := resetBtn_disabled s;
     downloadBtn_disabled := downloadBtn_disabled s;
     diagramUpload_value := diagramUpload_value s;
     filePreview_display := filePreview_display s;
     balloons := balloons s; alerts := alerts s |}.

Definition with_reportContent (x : display) (s : state) : state :=
  {| currentSessionId := currentSessionId s; abortController := abortController s;
     fullReport := fullReport s; pdfFilePath := pdfFilePath s;
     agentStatuses := agentStatuses s; uploadedFile := uploadedFile s;
     controllers := controllers s; aborted := aborted s;
     input_value := input_value s; cards := cards s;
     reportContent := x;
     analyzeBtn_disabled := analyzeBtn_disabled s;
     resetBtn_disabled := resetBtn_disabled s;
     downloadBtn_disabled := downloadBtn_disabled s;
     diagramUpload_value := diagramUpload_value s;
     filePreview_display := filePreview_display s;
     balloons := balloons s; alerts := alerts s |}.

(** [analyzeBtn.disabled = a; resetBtn.disabled = r; downloadBtn.disabled = d] *)
Definition with_buttons (a r d : bool) (s : state) : state :=
  {| currentSessionId := currentSessionId s; abortController := abortController s;
     fullReport := fullReport s; pdfFilePath := pdfFilePath s;
     agentStatuses := agentStatuses s; uploadedFile := uploadedFile s;
     controllers := controllers s; aborted := aborted s;
     input_value := input_value s; cards := cards s;
     reportContent := reportContent s;
     analyzeBtn_disabled := a;
     resetBtn_disabled := r;
     downloadBtn_disabled := d;
     diagramUpload_value := diagramUpload_value s;
     filePreview_display := filePreview_display s;
     balloons := balloons s; alerts := alerts s |}.

Definition with_currentSessionId (x : value) (s : state) : state :=
  {| currentSessionId := x; abortController := abortController s;
     fullReport := fullReport s; pdfFilePath := pdfFilePath s;
     agentStatuses := agentStatuses s; uploadedFile := uploadedFile s;
     controllers := controllers s; aborted := aborted s;
     input_value := input_value s; cards := cards s;
     reportContent := reportContent s;
     analyzeBtn_disabled := analyzeBtn_disabled s;
     resetBtn_disabled := resetBtn_disabled s;
     downloadBtn_disabled := downloadBtn_disabled s;
     diagramUpload_value := diagramUpload_value s;
     filePreview_display := filePreview_display s;
     balloons := balloons s; alerts := alerts s |}.

(** [abortController], the allocation counter and the aborted set. *)
Definition with_controllers (cur : option nat) (made : nat) (ab : gset nat)
    (s : state) : state :=
  {| currentSessionId := currentSessionId s; abortController := cur;
     fullReport := fullReport s; pdfFilePath := pdfFilePath s;
     agentStatuses := agentStatuses s; uploadedFile := uploadedFile s;
     controllers := made; aborted := ab;
     input_value := input_value s; cards := cards s;
     reportContent := reportContent s;
     analyzeBtn_disabled := analyzeBtn_disabled s;
     resetBtn_disabled := resetBtn_disabled s;
     downloadBtn_disabled := downloadBtn_disabled s;
     diagramUpload_value := diagramUpload_value s;
     filePreview_display := filePreview_display s;
     balloons := balloons s; alerts := alerts s |}.

(** [uploadedFile], [diagramUpload.value], [filePreview.style.display] and
    [input.value]. *)
Definition with_inputs (f : option file) (upload preview text : jsstring)
    (s : state) : state :=
  {| currentSessionId := currentSessionId s; abortController := abortController s;
     fullReport := fullReport s; pdfFilePath := pdfFilePath s;
     agentStatuses := agentStatuses s; uploadedFile := f;
     controllers := controllers s; aborted := aborted s;
     input_value := text; cards := cards s;
     reportContent := reportContent s;
     analyzeBtn_disabled := analyzeBtn_disabled s;
     resetBtn_disabled := resetBtn_disabled s;
     downloadBtn_disabled := downloadBtn_disabled s;
     diagramUpload_value := upload;
     filePreview_display := preview;
     balloons := balloons s; alerts := alerts s |}.

Definition with_balloons (x : option nat) (s : state) : state :=
  {| currentSessionId := currentSessionId s; abortController := abortController s;
     fullReport := fullReport s; pdfFilePath := pdfFilePath s;
     agentStatuses := agentStatuses s; uploadedFile := uploadedFile s;
     controllers := controllers s; aborted := aborted s;
     input_value := input_value s; cards := cards s;
     reportContent := reportContent s;
     analyzeBtn_disabled := analyzeBtn_disabled s;
     resetBtn_disabled := resetBtn_disabled s;
     downloadBtn_disabled := downloadBtn_disabled s;
     diagramUpload_value := diagramUpload_value s;
     filePreview_display := filePreview_display s;
     balloons := x; alerts := alerts s |}.

Definition with_alert (msg : jsstring) (s : state) : state :=
  {| currentSessionId := currentSessionId s; abortController := abortController s;
     fullReport := fullReport s; pdfFilePath := pdfFilePath s;
     agentStatuses := agentStatuses s; uploadedFile := uploadedFile s;
     controllers := controllers s; aborted := aborted s;
     input_value := input_value s; cards := cards s;
     reportContent := reportContent s;
     analyzeBtn_disabled := analyzeBtn_disabled s;
     resetBtn_disabled := resetBtn_disabled s;
     downloadBtn_disabled := downloadBtn_disabled s;
     diagramUpload_value := diagramUpload_value s;
     filePreview_display := filePreview_display s;
     balloons := balloons s; alerts := msg :: alerts s |}.

(** ** Agent tables *)

(** An [agentId] of [processStreamEvent]: a string, or a member every
    object inherits from [Object.prototype], which is what
    [AGENT_MAPPING[name]] gives for a name such as ["constructor"].  The
    second is truthy and is no string; [text] is its [ToString]. *)
Inductive agent_id : Type :=
| IdString (s : jsstring)
| IdInherited (text : jsstring).

Definition id_text (a : agent_id) : jsstring :=
  match a with IdString s | IdInherited s => s end.

Definition id_truthy (a : agent_id) : bool :=
  match a with
  | IdString s => negb (bool_decide (s = []))
  | IdInherited _ => true
  end.

Definition AGENT_MAPPING_own : list (jsstring * jsstring) :=
  [ (js "threat_model_orchestrator", js "orchestrator");
    (js "architecture_parser_agent", js "parser");
    (js "threat_modeler_agent", js "modeler");
    (js "report_builder_agent", js "builder");
    (js "report_verifier_agent", js "verifier") ].

Fixpoint assoc (k : jsstring) (l : list (jsstring * jsstring)) : option jsstring :=
  match l with
  | [] => None
  | (k', v) :: rest => if bool_decide (k' = k) then Some v else assoc k rest
  end.

(** [AGENT_MAPPING[key]]; [None] is [undefined]. *)
Definition AGENT_MAPPING `{!Platform} (key : jsstring) : option agent_id :=
  match assoc key AGENT_MAPPING_own with
  | Some id => Some (IdString id)
  | None => IdInherited <$> Object_prototype key
  end.

Definition AGENT_SEQUENCE : list jsstring :=
  [js "orchestrator"; js "parser"; js "modeler"; js "builder"; js "verifier"].

(** [l.indexOf(x)]; [None] stands for [-1]. *)
Fixpoint indexOf (x : jsstring) (l : list jsstring) : option nat :=
  match l with
  | [] => None
  | y :: l' => if bool_decide (y = x) then Some O else S <$> indexOf x l'
  end.

(** The [messages] table of [getAgentStatusMessage]. *)
Definition messages : list (jsstring * (jsstring * jsstring)) :=
  [ (js "orchestrator", (js "Orchestrating workflow...", js "Workflow complete"));
    (js "parser", (js "Parsing architecture...", js "Architecture parsed"));
    (js "modeler", (js "Analyzing threats...", js "Threats identified"));
    (js "builder", (js "Building report...", js "Report built"));
    (js "verifier", (js "Verifying report...", js "Report verified")) ].

Fixpoint messages_lookup (k : jsstring)
    (l : list (jsstring * (jsstring * jsstring))) : option (jsstring * jsstring) :=
  match l with
  | [] => None
  | (k', v) :: rest => if bool_decide (k' = k) then Some v else messages_lookup k rest
  end.

(** [messages[agentId]?.[status] || (status === 'active' ? 'Processing...' : 'Complete')].
    A name inherited from [Object.prototype] reads a member with neither
    an [active] nor a [completed] property, hence the fallback. *)
Definition getAgentStatusMessage (agentId : jsstring) (st : status) : jsstring :=
  match messages_lookup agentId messages, st with
  | Some (a, _), active => a
  | Some (_, c), completed => c
  | _, active => js "Processing..."
  | _, _ => js "Complete"
  end.

(** ** Agent status *)

(** [agentStatuses[key] = st].  Assigning a string to [__proto__] goes to
    the inherited setter, which ignores a value that is no object: no own
    property is created. *)
Definition obj_set (key : jsstring) (st : status)
    (o : gmap jsstring status) : gmap jsstring status :=
  if bool_decide (key = js "__proto__") then o else <[ key := st ]> o.

(** [agentStatuses[key]] compared with the status strings: an own property
    holds a status, an inherited member equals none of them. *)
Definition status_of (s : state) (key : jsstring) : option status :=
  agentStatuses s !! key.

(** [agentStatuses[key] !== 'active' && agentStatuses[key] !== 'completed'] *)
Definition not_started (s : state) (key : jsstring) : bool :=
  match status_of s key with
  | Some active | Some completed => false
  | _ => true
  end.

Definition store_status (key : jsstring) (st : status) (s : state) : state :=
  with_agentStatuses (obj_set key st (agentStatuses s)) s.

(** The id of the card of an agent: [`agent-${agentId}`]. *)
Definition card_id (agentId : jsstring) : jsstring := js "agent-" ++ agentId.

(** [classList.remove('waiting', 'active', 'completed')] *)
Definition classList_remove_statuses (l : list jsstring) : list jsstring :=
  filter (λ c, c ∉ [js "waiting"; js "active"; js "completed"]) l.

(** [classList.add(c)] *)
Definition classList_add (c : jsstring) (l : list jsstring) : list jsstring :=
  if bool_decide (c ∈ l) then l else l ++ [c].

(** [setAgentStatus(agentId, status)]; the optional [message] is never
    passed.  Without a card it returns before storing anything. *)
Definition setAgentStatus (agentId : jsstring) (st : status) (s : state) : state :=
  match cards s !! card_id agentId with
  | None => s
  | Some c =>
      let text :=
        match st with
        | waiting => js "Waiting"
        | _ => getAgentStatusMessage agentId st
        end in
      let c' :=
        {| classList := classList_add (status_name st)
                          (classList_remove_statuses (classList c));
           agent_status_text := (λ _, text) <$> agent_status_text c |} in
      store_status agentId st (with_cards (<[ card_id agentId := c' ]> (cards s)) s)
  end.

Definition STAGES : list jsstring :=
  [js "orchestrator"; js "parser"; js "modeler"; js "builder"; js "verifier"].

(** [resetAllAgents()] *)
Definition resetAllAgents (s : state) : state :=
  foldl (λ s agentId, store_status agentId waiting (setAgentStatus agentId waiting s))
        s STAGES.

(** ** Processing one decoded event *)

(** How a statement ends: normally, or by an exception that leaves the
    function, each with the state reached.  The only handler that can
    catch an exception of [processStreamEvent] ignores its value. *)
Inductive completion : Type :=
| Normal (s : state)
| Throw (s : state).

Definition final (c : completion) : state :=
  match c with Normal s | Throw s => s end.

Definition and_then (c : completion) (k : state → completion) : completion :=
  match c with
  | Normal s => k s
  | Throw s => Throw s
  end.

Notation "c >>> k" := (and_then c k) (at level 61, left associativity).

(** A pure step that may throw, then the rest of the statement. *)
Definition attempt {A} (o : option A) (s : state) (k : A → completion) : completion :=
  match o with
  | Some a => k a
  | None => Throw s
  end.

(** A [for ... of] loop whose body works on the state. *)
Fixpoint for_each {A} (body : A → state → completion) (l : list A) (s : state)
    : completion :=
  match l with
  | [] => Normal s
  | x :: l' => body x s >>> for_each body l'
  end.

Section Events.
Context `{!Platform}.

  (** The chain of substring tests on [authorLower], ending in the
      lowercased name itself. *)
Definition fuzzy_agent (authorLower : jsstring) : jsstring :=
    let has p := Str.includes p authorLower in
    if has (js "parser") || has (js "architecture") then js "parser"
    else if has (js "modeler") || (has (js "threat") && negb (has (js "orchestr")))
      then js "modeler"
    else if has (js "builder") || has (js "content")
            || (has (js "report") && negb (has (js "verif")))
      then js "builder"
    else if has (js "verifier") || has (js "verification") || has (js "escalation")
      then js "verifier"
    else if has (js "orchestrator") || has (js "orchestrat") then js "orchestrator"
    else authorLower.

  (** [agentId] for a truthy [event.author]: the table entry under the
      author as a property key, else the fuzzy match on a string.  [None]
      when the key conversion throws, or when the table has no entry and
      the author, being no string, has no [toLowerCase]. *)
Definition resolve_agent (author : value) : option agent_id :=
    key ← to_string author;
    match AGENT_MAPPING key with
    | Some id => Some id
    | None =>
        match author with
        | VString a => Some (IdString (fuzzy_agent (toLowerCase a)))
        | _ => None
        end
    end.

  (** [finishReason === 'STOP' || ... === 'DONE' || ... === 'MAX_TOKENS'] *)
Definition is_finish (finishReason : value) : bool :=
    is_string (js "STOP") finishReason || is_string (js "DONE") finishReason
    || is_string (js "MAX_TOKENS") finishReason.

  (** The agent after [agentId] in [AGENT_SEQUENCE], when [indexOf] finds
      [agentId] before the last position. *)
Definition next_agent (agentId : agent_id) : option jsstring :=
    match agentId with
    | IdString a =>
        match indexOf a AGENT_SEQUENCE with
        | Some currentIndex =>
            if bool_decide (currentIndex < length AGENT_SEQUENCE - 1)%nat
            then AGENT_SEQUENCE !! S currentIndex
            else None
        | None => None
        end
    | IdInherited _ => None
    end.

  (** [if (agentStatuses[k] !== 'active' && agentStatuses[k] !== 'completed')
        { setAgentStatus(k, 'active'); agentStatuses[k] = 'active'; }] *)
Definition activate_if_not_started (key : jsstring) (s : state) : state :=
    if not_started s key
    then store_status key active (setAgentStatus key active s)
    else s.

  (** Lines 372-419: the status update driven by [event.author]. *)
Definition update_author_status (event : value) (s : state) : completion :=
    attempt (get event (js "author")) s (λ author,
      if truthy author then
        attempt (resolve_agent author) s (λ agentId,
          let a := id_text agentId in
          if id_truthy agentId && bool_decide (is_Some (cards s !! card_id a)) then
            attempt (get event (js "finishReason")) s (λ finishReason,
              if is_finish finishReason then
                let s1 := store_status a completed (setAgentStatus a completed s) in
                match next_agent agentId with
                | Some nextAgentId => Normal (activate_if_not_started nextAgentId s1)
                | None => Normal s1
                end
              else Normal (activate_if_not_started a s))
          else Normal s)
      else Normal s).

  (** Lines 422-428: a verification-loop author starts the builder. *)
Definition update_verification_loop (event : value) (s : state) : completion :=
    attempt (get event (js "author")) s (λ author,
      if truthy author then
        attempt (includes (js "verification_loop") author) s (λ under,
          if under then Normal (activate_if_not_started (js "builder") s)
          else
            attempt (includes (js "verification-loop") author) s (λ dash,
              if dash then Normal (activate_if_not_started (js "builder") s)
              else Normal s))
      else Normal s).

  (** [event.actions && event.actions.toolCalls]: the list to loop over
      when the condition is truthy. *)
Definition toolCalls_of (event : value) (s : state)
      (k : option (list value) → completion) : completion :=
    attempt (get event (js "actions")) s (λ actions,
      if truthy actions then
        attempt (get actions (js "toolCalls")) s (λ toolCalls,
          if truthy toolCalls then attempt (iterate toolCalls) s (λ l, k (Some l))
          else k None)
      else k None).

  (** Lines 431-441: builder tools start the builder. *)
Definition update_builder_tools (event : value) (s : state) : completion :=
    toolCalls_of event s (λ calls,
      match calls with
      | None => Normal s
      | Some l =>
          for_each (λ toolCall s,
            attempt (get toolCall (js "name")) s (λ name,
              if truthy name then
                attempt (includes (js "write_file") name) s (λ w,
                  if w then Normal (activate_if_not_started (js "builder") s)
                  else
                    attempt (includes (js "convert_markdown") name) s (λ c,
                      if c then Normal (activate_if_not_started (js "builder") s)
                      else Normal s))
              else Normal s)) l s
      end).

  (** Lines 444-453: a [.pdf] entry of [actions.artifactDelta] sets
      [pdfFilePath]. *)
Definition update_artifacts (event : value) (s : state) : completion :=
    attempt (get event (js "actions")) s (λ actions,
      if truthy actions then
        attempt (get actions (js "artifactDelta")) s (λ artifacts,
          if truthy artifacts then
            for_each (λ '(filename, artifact) s,
              if Str.endsWith (js ".pdf") filename then
                attempt (get artifact (js "filePath")) s (λ filePath,
                  Normal (with_pdfFilePath
                            (if truthy filePath then filePath else VString filename) s))
              else Normal s) (entries artifacts) s
          else Normal s)
      else Normal s).

  (** The loop over [event.content.parts]: [if (part.text) text += part.text]. *)
Fixpoint parts_text (text : jsstring) (parts : list value) : option jsstring :=
    match parts with
    | [] => Some text
    | part :: rest =>
        t ← get part (js "text");
        if truthy t then (piece ← to_string t; parts_text (text ++ piece) rest)
        else parts_text text rest
    end.

  (** Lines 456-477: the text of [event.content] is appended to
      [fullReport]. *)
Definition update_report (event : value) (s : state) : completion :=
    attempt (get event (js "content")) s (λ content,
      if truthy content then
        let append (text : value) :=
          if truthy text
          then attempt (to_string text) s (λ t, Normal (with_fullReport (fullReport s ++ t) s))
          else Normal s in
        match content with
        | VString _ => append content
        | _ =>
            attempt (get content (js "parts")) s (λ parts,
              if truthy parts then
                attempt (iterate parts) s (λ l,
                  attempt (parts_text [] l) s (λ text, append (VString text)))
              else
                attempt (get content (js "text")) s (λ text,
                  if truthy text then append text else append (VString [])))
        end
      else Normal s).

  (** Lines 480-492: the [file_path] a [convert_markdown_to_pdf] call
      reports.  A string response goes through [JSON.parse]. *)
Definition update_pdf_path (event : value) (s : state) : completion :=
    toolCalls_of event s (λ calls,
      match calls with
      | None => Normal s
      | Some l =>
          for_each (λ toolCall s,
            attempt (get toolCall (js "name")) s (λ name,
              if is_string (js "convert_markdown_to_pdf") name then
                attempt (get toolCall (js "response")) s (λ resp,
                  if truthy resp then
                    attempt (match resp with
                             | VString text => JSON_parse text
                             | _ => Some resp
                             end) s (λ response,
                      attempt (get response (js "file_path")) s (λ file_path,
                        if truthy file_path then
                          match file_path with
                          | VString p =>
                              if Str.endsWith (js ".pdf") p
                              then Normal (with_pdfFilePath file_path s)
                              else Normal s
                          | _ => Throw s
                          end
                        else Normal s))
                  else Normal s)
              else Normal s)) l s
      end).

  (** [processStreamEvent(event)] *)
Definition processStreamEvent (event : value) (s : state) : completion :=
    update_author_status event s
    >>> update_verification_loop event
    >>> update_builder_tools event
    >>> update_artifacts event
    >>> update_report event
    >>> update_pdf_path event.

End Events.

(** ** Rendering the report: [updateReportDisplay] *)

Definition inspect {A} (a : A) : {b : A | a = b} := exist _ a eq_refl.

Module Markdown.

  (** ECMAScript [LineTerminator]: what [.] refuses and what [^] and [$]
      look at under the [m] flag. *)
Definition is_line_terminator (c : N) : bool :=
    N.eqb c 10 || N.eqb c 13 || N.eqb c 8232 || N.eqb c 8233.

  (** The longest prefix free of line terminators, and what follows it:
      the greedy [(.*$)]. *)
Fixpoint span_line (s : jsstring) : jsstring * jsstring :=
    match s with
    | [] => ([], [])
    | c :: s' =>
        if is_line_terminator c then ([], s)
        else let '(cap, rest) := span_line s' in (c :: cap, rest)
    end.

Lemma span_line_length s :
    (length (span_line s).2 ≤ length s)%nat.
Proof.
    induction s as [|c s IH]; simpl; [lia|].
    destruct (is_line_terminator c); simpl; [lia|].
    destruct (span_line s); simpl in *; lia.
Qed.

  (** [s.replace(/^MARKER(.*$)/gim, '<TAG>$1</TAG>')] for a marker without
      letters or line terminators, such as ["# "].  [at_start] tells
      whether [^] matches at the head of [s]. *)
Equations? replace_heading (marker tag : jsstring) (at_start : bool) (s : jsstring)
      : jsstring by wf (length s) lt :=
    replace_heading marker tag at_start [] := [];
    replace_heading marker tag at_start (c :: s') with
        inspect (at_start && Str.startsWith marker (c :: s')
                 && negb (bool_decide (marker = []))) := {
      | exist _ true E =>
          js "<" ++ tag ++ js ">" ++ (span_line (drop (length marker) (c :: s'))).1
          ++ js "</" ++ tag ++ js ">"
          ++ replace_heading marker tag false
               (span_line (drop (length marker) (c :: s'))).2
      | exist _ false E =>
          c :: replace_heading marker tag (is_line_terminator c) s' }.
Proof.
    pose proof (span_line_length (drop (length marker) (c :: s'))) as Hs.
    rewrite length_drop in Hs.
    destruct marker as [|m marker]; [by rewrite !andb_false_r in E|].
    simpl in *. lia.
Qed.

  (** Where the lazy [(.*?)DELIM] first succeeds: the text before the
      first [DELIM] on the line and the text after it. *)
Fixpoint find_close (delim : jsstring) (s : jsstring) : option (jsstring * jsstring) :=
    if Str.startsWith delim s then Some ([], drop (length delim) s)
    else
      match s with
      | [] => None
      | c :: s' =>
          if is_line_terminator c then None
          else '(cap, rest) ← find_close delim s'; Some (c :: cap, rest)
      end.

Lemma find_close_length delim s cap rest :
    find_close delim s = Some (cap, rest) → (length rest ≤ length s)%nat.
Proof.
    revert cap rest; induction s as [|c s IH]; intros cap rest; simpl.
    - destruct (Str.startsWith delim []); [|done].
      intros [= <- <-]. rewrite length_drop. simpl. lia.
    - destruct (Str.startsWith delim (c :: s)).
      + intros [= <- <-]. rewrite length_drop. simpl. lia.
      + destruct (is_line_terminator c); [done|].
        destruct (find_close delim s) as [[cap' rest']|] eqn:E; simpl; [|done].
        intros [= <- <-]. specialize (IH _ _ eq_refl). lia.
Qed.

  (** [s.replace(/DELIM(.*?)DELIM/gim, '<TAG>$1</TAG>')] for a non-empty
      delimiter without letters, such as ["**"]. *)
Equations? replace_span (delim tag : jsstring) (s : jsstring)
      : jsstring by wf (length s) lt :=
    replace_span delim tag [] := [];
    replace_span delim tag (c :: s') with
        inspect (if Str.startsWith delim (c :: s') && negb (bool_decide (delim = []))
                 then find_close delim (drop (length delim) (c :: s'))
                 else None) := {
      | exist _ (Some (cap, rest)) E =>
          js "<" ++ tag ++ js ">" ++ cap ++ js "</" ++ tag ++ js ">"
          ++ replace_span delim tag rest
      | exist _ None E => c :: replace_span delim tag s' }.
Proof.
    destruct (Str.startsWith delim (c :: s') && negb (bool_decide (delim = [])))
      eqn:Hd; [|done].
    apply find_close_length in E. rewrite length_drop in E.
    destruct delim as [|d delim]; [by rewrite andb_false_r in Hd|].
    simpl in *. lia.
Qed.

  (** [s.replace(/\n\n/gim, '</p><p>')] *)
Fixpoint replace_blank_lines (s : jsstring) : jsstring :=
    match s with
    | 10 :: 10 :: s' => js "</p><p>" ++ replace_blank_lines s'
    | c :: s' => c :: replace_blank_lines s'
    | [] => []
    end.

  (** The chain of replacements of [updateReportDisplay]. *)
Definition render (fullReport : jsstring) : jsstring :=
    let html := fullReport in
    let html := replace_heading (js "# ") (js "h1") true html in
    let html := replace_heading (js "## ") (js "h2") true html in
    let html := replace_heading (js "### ") (js "h3") true html in
    let html := replace_span (js "**") (js "strong") html in
    let html := replace_span (js "*") (js "em") html in
    let html := replace_span (js "`") (js "code") html in
    let html := replace_blank_lines html in
    js "<p>" ++ html ++ js "</p>".

End Markdown.

(** [updateReportDisplay()] *)
Definition updateReportDisplay (s : state) : state :=
  if bool_decide (Str.trim (fullReport s) = [])
  then with_reportContent PlaceholderProcessing s
  else with_reportContent (Rendered (Markdown.render (fullReport s))) s.

(** ** The read loop of [streamQuery] *)

(** An exception value as the two [catch] blocks that inspect one see it:
    [error.name] and the text of [error.message]. *)
Record exn : Type := {
  exn_name : jsstring;
  exn_message : jsstring;
}.

Definition Error (message : jsstring) : exn :=
  {| exn_name := js "Error"; exn_message := message |}.

(** [error.name === 'AbortError'] *)
Definition is_abort (e : exn) : bool := bool_decide (exn_name e = js "AbortError").

(** What one [await reader.read()] resolves to. *)
Inductive read_result : Type :=
| ReadChunk (bytes : list byte)    (* { done: false, value } *)
| ReadDone                         (* { done: true } *)
| ReadReject (e : exn).

(** The local variables [decoder] and [buffer] of [streamQuery], and the
    events handed to [processStreamEvent] so far, oldest first (a trace the
    script itself does not keep). *)
Record reader `{!Platform} : Type := {
  decoder : decoder_state;
  buffer : jsstring;
  decoded : list value;
}.

(** How an [async] function stands after a finite number of awaited
    results: still waiting in the read loop, returned, or thrown. *)
Inductive outcome `{!Platform} : Type :=
| Pending (r : reader) (s : state)
| Returned (s : state)
| Thrown (e : exn) (s : state).

Section Stream.
Context `{!Platform}.

  (** [decoder.decode(value, { stream: true })] *)
Fixpoint decode (d : decoder_state) (bytes : list byte) : decoder_state * jsstring :=
    match bytes with
    | [] => (d, [])
    | b :: bytes' =>
        let '(d1, out1) := decoder_step d b in
        let '(d2, out2) := decode d1 bytes' in
        (d2, out1 ++ out2)
    end.

  (** The body of the inner [while] after [line] has been cut off: lines
      345-357.  The [catch (e) {}] swallows the [SyntaxError] of
      [JSON.parse] and whatever [processStreamEvent] throws, keeping what
      had been done before the throw.  Returns the state and the event
      decoded from the line, if any. *)
Definition process_line (line : jsstring) (s : state) : state * option value :=
    if Str.startsWith (js "data: ") line then
      let jsonStr := Str.substring_from 6 line in
      if negb (bool_decide (jsonStr = [])) then
        match JSON_parse jsonStr with
        | Some data => (final (processStreamEvent data s), Some data)
        | None => (s, None)
        end
      else (s, None)
    else (s, None).

  (** Lines 341-358: [while ((newlineIndex = buffer.indexOf('\n')) >= 0)]. *)
Equations? drain_lines (buf : jsstring) (events : list value) (s : state)
      : jsstring * list value * state by wf (length buf) lt :=
    drain_lines buf events s with inspect (Str.indexOf_newline buf) := {
      | exist _ (Some newlineIndex) E =>
          drain_lines (Str.substring_from (S newlineIndex) buf)
            (events ++ option_list
               (process_line (Str.trim (Str.substring_to newlineIndex buf)) s).2)
            (process_line (Str.trim (Str.substring_to newlineIndex buf)) s).1
      | exist _ None E => (buf, events, s) }.
Proof.
    apply Str.indexOf_newline_lt in E.
    destruct buf as [|c b]; simpl in *; [lia|].
    unfold Str.substring_from. rewrite length_drop. lia.
Qed.

  (** Lines 335-358: one chunk. *)
Definition feed_chunk (bytes : list byte) (r : reader) (s : state) : reader * state :=
    let '(d, text) := decode (decoder r) bytes in
    let '(b, ev, s') := drain_lines (buffer r ++ text) (decoded r) s in
    ({| decoder := d; buffer := b; decoded := ev |}, s').

  (** [triggerCelebration()]: without a [#balloon-container] nothing;
      otherwise the container is emptied and gets 18 balloons.  Their
      random styles and the timers that pop them later are left out. *)
Definition triggerCelebration (s : state) : state :=
    match balloons s with
    | None => s
    | Some _ => with_balloons (Some 18%nat) s
    end.

  (** Lines 315-333: the stream is done. *)
Definition stream_done (s : state) : state :=
    let s1 :=
      foldl (λ s agentId,
               match status_of s agentId with
               | Some active | Some completed => setAgentStatus agentId completed s
               | _ => s
               end) s STAGES in
    let s2 := updateReportDisplay s1 in
    let s3 := with_buttons false false false s2 in
    triggerCelebration s3.

  (** Lines 311-366: the [while (true)] loop inside its [try], run on the
      results the successive [reader.read()] calls resolve to.  When the
      list ends before the stream is done the function is still waiting. *)
Fixpoint read_loop (reads : list read_result) (r : reader) (s : state) : outcome :=
    match reads with
    | [] => Pending r s
    | ReadDone :: _ => Returned (stream_done s)
    | ReadReject e :: _ => if is_abort e then Returned s else Thrown e s
    | ReadChunk bytes :: reads' =>
        let '(r', s') := feed_chunk bytes r s in read_loop reads' r' s'
    end.

  (** What [fetch] and the methods of its [Response] resolve to. *)
Record response : Type := {
    response_ok : bool;
    response_status : N;
    response_text : exn + jsstring;      (* await response.text() *)
    response_json : exn + value;         (* await response.json() *)
    response_body : bool;                (* response.body is not null *)
  }.

  (** The number [n] in a template literal. *)
Definition decimal (n : N) : jsstring := js (NilZero.string_of_uint (N.to_uint n)).

Definition new_reader : reader :=
    {| decoder := decoder_init; buffer := []; decoded := [] |}.

  (** Lines 299-309, once the response is there: the orchestrator is set
      active and the processing placeholder is shown. *)
Definition stream_opened (s : state) : state :=
    let s1 := store_status (js "orchestrator") active
                (setAgentStatus (js "orchestrator") active s) in
    with_reportContent PlaceholderProcessing s1.

  (** [streamQuery(messageParts)].  The request body has no effect on the
      page and is left out. *)
Definition streamQuery (fetched : exn + response) (reads : list read_result)
      (s : state) : outcome :=
    match fetched with
    | inl e => Thrown e s
    | inr resp =>
        if negb (response_ok resp) then
          match response_text resp with
          | inl e => Thrown e s
          | inr errorText =>
              Thrown (Error (js "Query failed: " ++ decimal (response_status resp)
                             ++ js " - " ++ errorText)) s
          end
        else if negb (response_body resp) then
          Thrown (Error (js "Response body is null - server may not support streaming")) s
        else read_loop reads new_reader (stream_opened s)
    end.

  (** [createSession()]: the session id, or the exception. *)
Definition createSession (fetched : exn + response) : exn + value :=
    match fetched with
    | inl e => inl e
    | inr resp =>
        if negb (response_ok resp) then
          match response_text resp with
          | inl e => inl e
          | inr errorText =>
              inl (Error (js "Failed to create session: " ++ decimal (response_status resp)
                          ++ js " - " ++ errorText))
          end
        else
          match response_json resp with
          | inl e => inl e
          | inr data =>
              match get data (js "id"), get data (js "session_id") with
              | Some id, Some session_id =>
                  let sessionId := if truthy id then id else session_id in
                  if truthy sessionId then inr sessionId
                  else inl (Error (js "Session ID not found in response"))
              | _, _ =>
                  inl {| exn_name := js "TypeError";
                         exn_message := null_read_message (js "id") |}
              end
          end
    end.

  (** What the outside world answers during one [startAnalysis]. *)
Record environment : Type := {
    session_fetch : exn + response;       (* POST /api/sessions *)
    file_read : option exn;               (* FileReader failure, if any *)
    query_fetch : exn + response;         (* POST /api/query *)
    reads : list read_result;
  }.

  (** Lines 177-189: the synchronous start of a run. *)
Definition startAnalysis_reset (s : state) : state :=
    let s1 := with_fullReport [] s in
    let s2 := with_reportContent PlaceholderStarting s1 in
    let s3 := resetAllAgents s2 in
    let s4 := with_buttons true true true s3 in
    let ab := match abortController s4 with
              | Some c => {[ c ]} ∪ aborted s4
              | None => aborted s4
              end in
    with_controllers (Some (controllers s4)) (S (controllers s4)) ab s4.

  (** The [catch] of [startAnalysis]: lines 225-234. *)
Definition startAnalysis_catch (o : outcome) : outcome :=
    match o with
    | Thrown e s =>
        if is_abort e then Returned s
        else Returned (with_buttons false false (downloadBtn_disabled s)
                         (with_reportContent (ErrorBox (exn_message e)) s))
    | _ => o
    end.

  (** [startAnalysis()] *)
Definition startAnalysis (env : environment) (s : state) : outcome :=
    let architectureText := Str.trim (input_value s) in
    if bool_decide (architectureText = []) && bool_decide (uploadedFile s = None) then
      Returned (with_alert
        (js "Please enter an architecture description or upload a diagram") s)
    else
      let s := startAnalysis_reset s in
      startAnalysis_catch
        match createSession (session_fetch env) with
        | inl e => Thrown e s
        | inr session_id =>
            let s := with_currentSessionId session_id s in
            match uploadedFile s, file_read env with
            | Some _, Some e => Thrown e s
            | _, _ => streamQuery (query_fetch env) (reads env) s
            end
        end.

  (** [removeFile()] and [resetAnalysis()] *)
Definition resetAnalysis (s : state) : state :=
    let ab := match abortController s with
              | Some c => {[ c ]} ∪ aborted s
              | None => aborted s
              end in
    let s := with_controllers (abortController s) (controllers s) ab s in
    let s := with_currentSessionId VNull s in
    let s := with_fullReport [] s in
    let s := with_pdfFilePath VNull s in
    let s := with_agentStatuses ∅ s in
    let s := with_inputs None [] (js "none") [] s in
    let s := match balloons s with
             | Some _ => with_balloons (Some O) s
             | None => s
             end in
    let s := with_reportContent PlaceholderInitial s in
    let s := resetAllAgents s in
    with_buttons false true true s.

End Stream.

(** ** A reference platform

    Executable versions of the built-ins, used to run the script on
    concrete streams.  [JSON.parse] follows the JSON grammar of ECMA-404
    and builds objects the way [JSON.parse] defines properties; the
    decoder is the UTF-8 decoder of the Encoding standard. *)

Module Reference.

  (** *** [JSON.parse] *)

Definition is_json_ws (c : N) : bool :=
    N.eqb c 32 || N.eqb c 9 || N.eqb c 10 || N.eqb c 13.

Fixpoint skip_ws (s : jsstring) : jsstring :=
    match s with
    | c :: s' => if is_json_ws c then skip_ws s' else s
    | [] => []
    end.

Definition is_digit (c : N) : bool := N.leb 48 c && N.leb c 57.

Definition hex_digit (c : N) : option N :=
    if N.leb 48 c && N.leb c 57 then Some (c - 48)
    else if N.leb 65 c && N.leb c 70 then Some (c - 55)
    else if N.leb 97 c && N.leb c 102 then Some (c - 87)
    else None.

  (** The characters of a string literal after its opening quote, up to
      and including the closing quote. *)
Fixpoint parse_string (s : jsstring) : option (jsstring * jsstring) :=
    match s with
    | [] => None
    | 34 :: rest => Some ([], rest)
    | 92 :: e :: rest =>
        let simple (c : N) := '(str, r) ← parse_string rest; Some (c :: str, r) in
        if N.eqb e 34 then simple 34
        else if N.eqb e 92 then simple 92
        else if N.eqb e 47 then simple 47
        else if N.eqb e 98 then simple 8
        else if N.eqb e 102 then simple 12
        else if N.eqb e 110 then simple 10
        else if N.eqb e 114 then simple 13
        else if N.eqb e 116 then simple 9
        else if N.eqb e 117 then
          match rest with
          | a :: b :: c :: d :: rest' =>
              match hex_digit a, hex_digit b, hex_digit c, hex_digit d with
              | Some a, Some b, Some c, Some d =>
                  '(str, r) ← parse_string rest';
                  Some (a * 4096 + b * 256 + c * 16 + d :: str, r)
              | _, _, _, _ => None
              end
          | _ => None
          end
        else None
    | c :: rest =>
        if N.ltb c 32 then None
        else '(str, r) ← parse_string rest; Some (c :: str, r)
    end.

Fixpoint span_digits (s : jsstring) : jsstring * jsstring :=
    match s with
    | c :: s' =>
        if is_digit c then let '(ds, r) := span_digits s' in (c :: ds, r)
        else ([], s)
    | [] => ([], [])
    end.

  (** A number literal: an optional minus sign, an integer part without
      leading zero, an optional fraction, an optional exponent.  Returns
      the literal as written. *)
Definition parse_number (s : jsstring) : option (jsstring * jsstring) :=
    let '(sign, s1) := match s with 45 :: r => ([45], r) | _ => ([], s) end in
    let '(int, s2) := span_digits s1 in
    match int with
    | [] => None
    | d :: ds =>
        if N.eqb d 48 && negb (bool_decide (ds = [])) then None
        else
          frac ← match s2 with
                 | 46 :: r =>
                     let '(fd, r') := span_digits r in
                     if bool_decide (fd = []) then None else Some (46 :: fd, r')
                 | _ => Some ([], s2)
                 end;
          let '(fr, s3) := frac in
          ex ← match s3 with
               | e :: r =>
                   if N.eqb e 101 || N.eqb e 69 then
                     let '(sg, r1) := match r with
                                      | 43 :: r' => ([43], r')
                                      | 45 :: r' => ([45], r')
                                      | _ => ([], r)
                                      end in
                     let '(ed, r2) := span_digits r1 in
                     if bool_decide (ed = []) then None else Some (e :: sg ++ ed, r2)
                   else Some ([], s3)
               | [] => Some ([], s3)
               end;
          let '(exl, s4) := ex in
          Some (sign ++ int ++ fr ++ exl, s4)
    end.

  (** The value of a string of decimal digits. *)
Definition digits_value (ds : jsstring) : N :=
    foldl (λ acc d, acc * 10 + (d - 48)) 0 ds.

  (** An array index: the canonical decimal form of an integer below
      [2^32 - 1]. *)
Definition array_index (k : jsstring) : option N :=
    match k with
    | [] => None
    | d :: ds =>
        if forallb is_digit k && (bool_decide (ds = []) || negb (N.eqb d 48))
           && N.ltb (digits_value k) 4294967295
        then Some (digits_value k) else None
    end.

  (** Own property keys enumerate array indices first, in ascending
      order, then the other strings in the order of their creation. *)
Fixpoint insert_property (k : jsstring) (v : value)
      (props : list (jsstring * value)) : list (jsstring * value) :=
    match props with
    | [] => [(k, v)]
    | (k', v') :: rest =>
        match array_index k, array_index k' with
        | Some i, Some i' =>
            if N.ltb i i' then (k, v) :: props else (k', v') :: insert_property k v rest
        | Some _, None => (k, v) :: props
        | None, _ => (k', v') :: insert_property k v rest
        end
    end.

Fixpoint replace_property (k : jsstring) (v : value)
      (props : list (jsstring * value)) : list (jsstring * value) :=
    match props with
    | [] => []
    | (k', v') :: rest =>
        if bool_decide (k' = k) then (k, v) :: rest
        else (k', v') :: replace_property k v rest
    end.

  (** [CreateDataProperty(object, k, v)]: a repeated key keeps its place
      and takes the later value. *)
Definition define_property (k : jsstring) (v : value)
      (props : list (jsstring * value)) : list (jsstring * value) :=
    if bool_decide (k ∈ props.*1) then replace_property k v props
    else insert_property k v props.

  (** [expect lit s]: [s] without its prefix [lit]. *)
Definition expect (lit : jsstring) (s : jsstring) : option jsstring :=
    if Str.startsWith lit s then Some (drop (length lit) s) else None.

  (** One JSON value at the head of [s], after white space.  Every call
      goes one level down in [fuel]. *)
Fixpoint parse_value (fuel : nat) (s : jsstring) {struct fuel}
      : option (value * jsstring) :=
    match fuel with
    | O => None
    | S fuel' =>
        match skip_ws s with
        | [] => None
        | c :: s1 =>
            if N.eqb c 34 then
              ('(str, s2) ← parse_string s1; Some (VString str, s2))
            else if N.eqb c 91 then
              match skip_ws s1 with
              | 93 :: s2 => Some (VArray [], s2)
              | _ => parse_elements fuel' s1 []
              end
            else if N.eqb c 123 then
              match skip_ws s1 with
              | 125 :: s2 => Some (VObject [], s2)
              | _ => parse_members fuel' s1 []
              end
            else if N.eqb c 116 then (r ← expect (js "true") (c :: s1); Some (VBool true, r))
            else if N.eqb c 102 then (r ← expect (js "false") (c :: s1); Some (VBool false, r))
            else if N.eqb c 110 then (r ← expect (js "null") (c :: s1); Some (VNull, r))
            else '(lit, r) ← parse_number (c :: s1); Some (VNumber lit, r)
        end
    end
  with parse_elements (fuel : nat) (s : jsstring) (acc : list value) {struct fuel}
      : option (value * jsstring) :=
    match fuel with
    | O => None
    | S fuel' =>
        '(v, s1) ← parse_value fuel' s;
        match skip_ws s1 with
        | 44 :: s2 => parse_elements fuel' s2 (acc ++ [v])
        | 93 :: s2 => Some (VArray (acc ++ [v]), s2)
        | _ => None
        end
    end
  with parse_members (fuel : nat) (s : jsstring) (acc : list (jsstring * value))
      {struct fuel} : option (value * jsstring) :=
    match fuel with
    | O => None
    | S fuel' =>
        match skip_ws s with
        | 34 :: s1 =>
            '(k, s2) ← parse_string s1;
            match skip_ws s2 with
            | 58 :: s3 =>
                '(v, s4) ← parse_value fuel' s3;
                match skip_ws s4 with
                | 44 :: s5 => parse_members fuel' s5 (define_property k v acc)
                | 125 :: s5 => Some (VObject (define_property k v acc), s5)
                | _ => None
                end
            | _ => None
            end
        | _ => None
        end
    end.

  (** [JSON.parse(text)]: one value, white space around it, nothing else.
      The fuel is twice the length of the text and two more. *)
Definition JSON_parse (text : jsstring) : option value :=
    '(v, rest) ← parse_value (2 * length text + 2) text;
    if bool_decide (skip_ws rest = []) then Some v else None.

  (** *** Numbers *)

  (** The parts of a number literal: is it negative, the digits of its
      integer and fraction parts, and its decimal exponent. *)
Definition literal_parts (lit : jsstring) : bool * jsstring * jsstring * Z :=
    let '(neg, s1) := match lit with 45 :: r => (true, r) | _ => (false, lit) end in
    let '(int, s2) := span_digits s1 in
    let '(frac, s3) := match s2 with 46 :: r => span_digits r | _ => ([], s2) end in
    let e := match s3 with
             | _ :: 45 :: r => (- Z.of_N (digits_value (span_digits r).1))%Z
             | _ :: 43 :: r => Z.of_N (digits_value (span_digits r).1)
             | _ :: r => Z.of_N (digits_value (span_digits r).1)
             | [] => 0%Z
             end in
    (neg, int, frac, e).

  (** [ToBoolean] of the double nearest to the literal: false exactly when
      that double is a zero, which happens when the digits are all zero
      or the magnitude is at most [2^-1075], half the smallest subnormal. *)
Definition Number_truthy (lit : jsstring) : bool :=
    let '(_, int, frac, e) := literal_parts lit in
    let m := digits_value (int ++ frac) in
    let e10 := (e - Z.of_nat (length frac))%Z in
    if N.eqb m 0 then false
    else if (0 <=? e10)%Z then true
    else negb (N.leb (m * 2 ^ 1075) (10 ^ Z.to_N (- e10))).

  (** [ToString] of the number a literal denotes, for an integer literal
      below [2^53]: its decimal digits, the sign dropped from a zero.  Any
      other literal is returned as written, which is the engine's text
      only when the literal is already in shortest form. *)
Definition Number_toString (lit : jsstring) : jsstring :=
    let '(neg, int, frac, e) := literal_parts lit in
    if bool_decide (frac = []) && (e =? 0)%Z && forallb is_digit (drop (if neg then 1 else 0)%nat lit)
       && N.ltb (digits_value int) (2 ^ 53)
    then if N.eqb (digits_value int) 0 then [48] else lit
    else lit.

  (** *** [toLowerCase] on Basic Latin and Latin-1; code units above
      U+00FF are left as they are. *)
Definition lower_unit (c : N) : N :=
    if (N.leb 65 c && N.leb c 90)
       || (N.leb 192 c && N.leb c 222 && negb (N.eqb c 215))
    then c + 32 else c.

Definition toLowerCase (s : jsstring) : jsstring := lower_unit <$> s.

  (** *** [Object.prototype] *)

Definition native_function (name : string) : jsstring * jsstring :=
    (js name, js "function " ++ js name ++ js "() { [native code] }").

Definition Object_prototype_members : list (jsstring * jsstring) :=
    [ (js "constructor", js "function Object() { [native code] }");
      (js "__proto__", js "[object Object]");
      native_function "__defineGetter__";
      native_function "__defineSetter__";
      native_function "__lookupGetter__";
      native_function "__lookupSetter__";
      native_function "hasOwnProperty";
      native_function "isPrototypeOf";
      native_function "propertyIsEnumerable";
      native_function "toLocaleString";
      native_function "toString";
      native_function "valueOf" ].

Definition Object_prototype (k : jsstring) : option jsstring :=
    assoc k Object_prototype_members.

  (** *** The UTF-8 decoder of [TextDecoder] *)

Record utf8 : Type := {
    bom_seen : bool;
    bytes_needed : N;
    bytes_seen : N;
    code_point : N;
    lower_boundary : N;
    upper_boundary : N;
  }.

Definition utf8_init : utf8 :=
    {| bom_seen := false; bytes_needed := 0; bytes_seen := 0; code_point := 0;
       lower_boundary := 128; upper_boundary := 191 |}.

Definition utf8_idle (bom : bool) : utf8 :=
    {| bom_seen := bom; bytes_needed := 0; bytes_seen := 0; code_point := 0;
       lower_boundary := 128; upper_boundary := 191 |}.

  (** A code point as UTF-16. *)
Definition utf16 (cp : N) : jsstring :=
    if N.ltb cp 65536 then [cp]
    else [55296 + N.shiftr (cp - 65536) 10; 56320 + N.land (cp - 65536) 1023].

  (** Output of one code point: a byte order mark that comes first is
      dropped. *)
Definition emit (d : utf8) (cp : N) : utf8 * jsstring :=
    (utf8_idle true, if negb (bom_seen d) && N.eqb cp 65279 then [] else utf16 cp).

  (** A byte met when no sequence is open. *)
Definition lead_byte (d : utf8) (b : N) : utf8 * jsstring :=
    let start needed cp lo hi :=
      ({| bom_seen := bom_seen d; bytes_needed := needed; bytes_seen := 0;
          code_point := cp; lower_boundary := lo; upper_boundary := hi |}, []) in
    if N.leb b 127 then emit d b
    else if N.leb 194 b && N.leb b 223 then start 1 (N.land b 31) 128 191
    else if N.leb 224 b && N.leb b 239 then
      start 2 (N.land b 15) (if N.eqb b 224 then 160 else 128)
              (if N.eqb b 237 then 159 else 191)
    else if N.leb 240 b && N.leb b 244 then
      start 3 (N.land b 7) (if N.eqb b 240 then 144 else 128)
              (if N.eqb b 244 then 143 else 191)
    else emit d 65533.

Definition utf8_step (d : utf8) (byte : Byte.byte) : utf8 * jsstring :=
    let b := Byte.to_N byte in
    if N.eqb (bytes_needed d) 0 then lead_byte d b
    else if negb (N.leb (lower_boundary d) b && N.leb b (upper_boundary d)) then
      (* the sequence is broken: U+FFFD, and the byte is read again *)
      let '(d1, out1) := emit d 65533 in
      let '(d2, out2) := lead_byte d1 b in
      (d2, out1 ++ out2)
    else
      let cp := N.lor (N.shiftl (code_point d) 6) (N.land b 63) in
      if N.eqb (bytes_seen d + 1) (bytes_needed d) then emit d cp
      else ({| bom_seen := bom_seen d; bytes_needed := bytes_needed d;
               bytes_seen := bytes_seen d + 1; code_point := cp;
               lower_boundary := 128; upper_boundary := 191 |}, []).

  (** The bytes of a text of Basic Latin characters. *)
Definition ascii_bytes (s : string) : list Byte.byte :=
    Ascii.byte_of_ascii <$> String.list_ascii_of_string s.

End Reference.

Definition reference_platform : Platform :=
  {| JSON_parse := Reference.JSON_parse;
     toLowerCase := Reference.toLowerCase;
     Number_truthy := Reference.Number_truthy;
     Number_toString := Reference.Number_toString;
     Object_prototype := Reference.Object_prototype;
     decoder_state := Reference.utf8;
     decoder_init := Reference.utf8_init;
     decoder_step := Reference.utf8_step;
     null_read_message k :=
       js "Cannot read properties of null (reading '" ++ k ++ js "')" |}.

(** ** The page as loaded *)

(** Modelled from the spec: the markup of the page, [index.html], which is
    not among the sources.  The spec keys the stage status by a fixed
    five-element enumeration (orchestrator, parser, modeler, builder,
    verifier); the page is taken to hold one card per stage, each with a
    status line, and a balloon container. *)
Definition initial_cards : gmap jsstring card :=
  list_to_map
    ((λ agentId, (card_id agentId,
                  {| classList := [js "agent-card"; js "waiting"];
                     agent_status_text := Some (js "Waiting") |})) <$> STAGES).

(** The script variables as initialised by lines 16-21 and 35. *)
Definition initial_page : state :=
  {| currentSessionId := VNull;
     abortController := None;
     fullReport := [];
     pdfFilePath := VNull;
     agentStatuses := ∅;
     uploadedFile := None;
     controllers := O;
     aborted := ∅;
     input_value := [];
     cards := initial_cards;
     reportContent := PlaceholderInitial;
     analyzeBtn_disabled := false;
     resetBtn_disabled := true;
     downloadBtn_disabled := true;
     diagramUpload_value := [];
     filePreview_display := js "none";
     balloons := Some O;
     alerts := [] |}.

(** The page after the user typed [text] into the input. *)
Definition typed (text : jsstring) (s : state) : state :=
  with_inputs (uploadedFile s) (diagramUpload_value s) (filePreview_display s) text s.

(** A string literal in JSON text. *)
Definition quoted (s : string) : jsstring := [34] ++ js s ++ [34].
Arguments quoted s%_string.

(** * Properties *)

(** ** What one event can do

    Every change [processStreamEvent] makes to the page is one of a few
    primitive effects; the state it ends in, normally or by a throw, is
    reached from the state it started in by a chain of them.  Only the
    first block, driven by [event.author], can complete an agent or
    activate one other than the builder. *)

Inductive side_effect : state → state → Prop :=
| side_builder s :
    not_started s (js "builder") = true →
    side_effect s (store_status (js "builder") active
                     (setAgentStatus (js "builder") active s))
| side_pdf v s :
    side_effect s (with_pdfFilePath v s)
| side_report t s :
    side_effect s (with_fullReport (fullReport s ++ t) s).

Inductive effect : state → state → Prop :=
| effect_complete a s :
    is_Some (cards s !! card_id a) →
    effect s (store_status a completed (setAgentStatus a completed s))
| effect_activate k s :
    not_started s k = true →
    effect s (store_status k active (setAgentStatus k active s))
| effect_side s s' :
    side_effect s s' → effect s s'.

Lemma final_and_then c k :
  final (c >>> k) = match c with Normal s => final (k s) | Throw s => s end.
Proof. by destruct c. Qed.

Section Chains.
Variable R : relation state.

Lemma chain_and_then s c k :
    rtc R s (final c) →
    (∀ s', rtc R s' (final (k s'))) →
    rtc R s (final (c >>> k)).
Proof.
    intros Hc Hk. destruct c as [s1|s1]; simpl in *; [|done].
    etrans; [exact Hc|apply Hk].
Qed.

Lemma chain_attempt {A} (o : option A) s k :
    (∀ a, rtc R s (final (k a))) → rtc R s (final (attempt o s k)).
Proof. intros Hk. destruct o; simpl; [apply Hk|done]. Qed.

Lemma chain_for_each {A} (body : A → state → completion) l :
    (∀ x s, rtc R s (final (body x s))) →
    ∀ s, rtc R s (final (for_each body l s)).
Proof.
    intros Hb. induction l as [|x l IH]; intros s; simpl; [done|].
    apply chain_and_then; [apply Hb|apply IH].
Qed.

End Chains.

Lemma effects_activate_if_not_started k s :
  rtc effect s (activate_if_not_started k s).
Proof.
  unfold activate_if_not_started. destruct (not_started s k) eqn:E; [|done].
  apply rtc_once. by constructor.
Qed.

Lemma side_effects_activate_builder s :
  rtc side_effect s (activate_if_not_started (js "builder") s).
Proof.
  unfold activate_if_not_started.
  destruct (not_started s (js "builder")) eqn:E; [|done].
  apply rtc_once. by constructor.
Qed.

Section EventEffects.
Context `{!Platform}.

Lemma effects_author event s : rtc effect s (final (update_author_status event s)).
Proof.
    unfold update_author_status.
    apply chain_attempt; intros author. destruct (truthy author); [|done].
    apply chain_attempt; intros agentId.
    destruct (id_truthy agentId && _) eqn:Hcard; [|done].
    apply andb_prop in Hcard as [_ Hcard%bool_decide_eq_true].
    apply chain_attempt; intros finishReason.
    destruct (is_finish finishReason).
    - assert (rtc effect s (store_status (id_text agentId) completed
                (setAgentStatus (id_text agentId) completed s))) as Hc
        by (apply rtc_once; by constructor).
      destruct (next_agent agentId); simpl; [|done].
      etrans; [exact Hc|apply effects_activate_if_not_started].
    - apply effects_activate_if_not_started.
Qed.

Lemma side_effects_verification_loop event s :
    rtc side_effect s (final (update_verification_loop event s)).
Proof.
    unfold update_verification_loop.
    apply chain_attempt; intros author. destruct (truthy author); [|done].
    apply chain_attempt; intros [];
      [apply side_effects_activate_builder|].
    apply chain_attempt; intros []; [apply side_effects_activate_builder|done].
Qed.

Lemma chain_toolCalls_of R event s k :
    (∀ calls, rtc R s (final (k calls))) →
    rtc R s (final (toolCalls_of event s k)).
Proof.
    intros Hk. unfold toolCalls_of.
    apply chain_attempt; intros actions. destruct (truthy actions); [|apply Hk].
    apply chain_attempt; intros toolCalls. destruct (truthy toolCalls); [|apply Hk].
    apply chain_attempt; intros l. apply Hk.
Qed.

Lemma side_effects_builder_tools event s :
    rtc side_effect s (final (update_builder_tools event s)).
Proof.
    unfold update_builder_tools.
    apply chain_toolCalls_of; intros [l|]; [|done].
    apply chain_for_each; clear; intros toolCall s.
    apply chain_attempt; intros name. destruct (truthy name); [|done].
    apply chain_attempt; intros [];
      [apply side_effects_activate_builder|].
    apply chain_attempt; intros []; [apply side_effects_activate_builder|done].
Qed.

Lemma side_effects_artifacts event s :
    rtc side_effect s (final (update_artifacts event s)).
Proof.
    unfold update_artifacts.
    apply chain_attempt; intros actions. destruct (truthy actions); [|done].
    apply chain_attempt; intros artifacts. destruct (truthy artifacts); [|done].
    apply chain_for_each; clear; intros [filename artifact] s.
    destruct (Str.endsWith _ _); [|done].
    apply chain_attempt; intros filePath. apply rtc_once. constructor.
Qed.

Lemma side_effects_report event s :
    rtc side_effect s (final (update_report event s)).
Proof.
    unfold update_report.
    apply chain_attempt; intros content. destruct (truthy content) eqn:Hc; [|done].
    cbv zeta.
    assert (∀ text : value,
      rtc side_effect s (final (if truthy text
        then attempt (to_string text) s
               (λ t, Normal (with_fullReport (fullReport s ++ t) s))
        else Normal s))) as Happend.
    { intros text. destruct (truthy text); [|done].
      apply chain_attempt; intros t. apply rtc_once. constructor. }
    assert (rtc side_effect s (final
      (attempt (get content (js "parts")) s (λ parts,
         if truthy parts then
           attempt (iterate parts) s (λ l,
             attempt (parts_text [] l) s (λ text,
               if truthy (VString text)
               then attempt (to_string (VString text)) s
                      (λ t, Normal (with_fullReport (fullReport s ++ t) s))
               else Normal s))
         else
           attempt (get content (js "text")) s (λ text,
             if truthy text
             then (if truthy text
                   then attempt (to_string text) s
                          (λ t, Normal (with_fullReport (fullReport s ++ t) s))
                   else Normal s)
             else (if truthy (VString [])
                   then attempt (to_string (VString [])) s
                          (λ t, Normal (with_fullReport (fullReport s ++ t) s))
                   else Normal s)))))) as Hobj.
    { apply chain_attempt; intros parts. destruct (truthy parts).
      - apply chain_attempt; intros l. apply chain_attempt; intros text.
        apply Happend.
      - apply chain_attempt; intros text. destruct (truthy text) eqn:Ht.
        + specialize (Happend text). by rewrite Ht in Happend.
        + apply (Happend (VString [])). }
    destruct content as [| |b|lit|str|l|props]; try exact Hobj.
    specialize (Happend (VString str)). by rewrite Hc in Happend.
Qed.

Lemma side_effects_pdf_path event s :
    rtc side_effect s (final (update_pdf_path event s)).
Proof.
    unfold update_pdf_path.
    apply chain_toolCalls_of; intros [l|]; [|done].
    apply chain_for_each; clear; intros toolCall s.
    apply chain_attempt; intros name. destruct (is_string _ name); [|done].
    apply chain_attempt; intros resp. destruct (truthy resp); [|done].
    apply chain_attempt; intros response.
    apply chain_attempt; intros file_path. destruct (truthy file_path); [|done].
    destruct file_path; try done.
    destruct (Str.endsWith _ _); [|done]. apply rtc_once. constructor.
Qed.

  (** What follows the first block. *)
Definition after_author_status (event : value) (s : state) : completion :=
    update_verification_loop event s
    >>> update_builder_tools event
    >>> update_artifacts event
    >>> update_report event
    >>> update_pdf_path event.

Lemma processStreamEvent_split event s :
    processStreamEvent event s =
    update_author_status event s >>> after_author_status event.
Proof.
    unfold processStreamEvent, after_author_status.
    by destruct (update_author_status event s).
Qed.

Lemma side_effects_after_author event s :
    rtc side_effect s (final (after_author_status event s)).
Proof.
    unfold after_author_status.
    repeat (apply chain_and_then; [|intros ?]);
      auto using side_effects_verification_loop, side_effects_builder_tools,
        side_effects_artifacts, side_effects_report, side_effects_pdf_path.
Qed.

  (** The state an event leaves behind comes from a chain of effects. *)
Lemma processStreamEvent_effects event s :
    rtc effect s (final (processStreamEvent event s)).
Proof.
    rewrite processStreamEvent_split.
    apply chain_and_then; [apply effects_author|intros s'].
    eapply (rtc_subrel side_effect); [|apply side_effects_after_author].
    intros ? ?. apply effect_side.
Qed.

End EventEffects.

(** ** Reading the status store *)

(** Evaluates the decisions of the goal; meant for decisions between
    literals. *)
Ltac eval_decides :=
  repeat match goal with
         | |- context [bool_decide ?P] =>
             let b := eval vm_compute in (bool_decide P) in
             change (bool_decide P) with b
         end;
  cbn [andb orb negb]; cbv beta iota.

Lemma status_of_store k st s k' :
  status_of (store_status k st s) k' =
  if bool_decide (k' = k ∧ k ≠ js "__proto__") then Some st else status_of s k'.
Proof.
  unfold status_of, store_status, obj_set; simpl.
  destruct (bool_decide (k = js "__proto__")) eqn:Hp.
  - apply bool_decide_eq_true in Hp. rewrite bool_decide_eq_false_2; [done|].
    intros [_ ?]; done.
  - apply bool_decide_eq_false in Hp. case_bool_decide as Hk.
    + destruct Hk as [-> _]. apply lookup_insert_eq.
    + apply lookup_insert_ne. intros <-. apply Hk. done.
Qed.

Lemma status_of_setAgentStatus k st s k' :
  status_of (setAgentStatus k st s) k' = status_of s k' ∨
  status_of (setAgentStatus k st s) k' = status_of (store_status k st s) k'.
Proof.
  unfold setAgentStatus. destruct (cards s !! card_id k); [right|left]; done.
Qed.

(** Storing after [setAgentStatus], as every call site but the final loop
    does, reads like the plain store. *)
Lemma status_of_set_store k st s k' :
  status_of (store_status k st (setAgentStatus k st s)) k' =
  status_of (store_status k st s) k'.
Proof.
  rewrite !status_of_store. case_bool_decide; [done|].
  destruct (status_of_setAgentStatus k st s k') as [->| ->]; [done|].
  rewrite status_of_store. by rewrite bool_decide_eq_false_2.
Qed.

Lemma status_of_with_pdfFilePath v s k :
  status_of (with_pdfFilePath v s) k = status_of s k.
Proof. done. Qed.

Lemma status_of_with_fullReport v s k :
  status_of (with_fullReport v s) k = status_of s k.
Proof. done. Qed.

Lemma not_started_spec s k :
  not_started s k = true ↔ status_of s k ≠ Some active ∧ status_of s k ≠ Some completed.
Proof.
  unfold not_started. destruct (status_of s k) as [[]|]; naive_solver.
Qed.

(** ** No demotion *)

(** [s'] demotes no agent of [s]: who was completed is completed, who was
    active is active or completed. *)
Definition no_demotion (s s' : state) : Prop :=
  ∀ agentId,
    (status_of s agentId = Some completed → status_of s' agentId = Some completed) ∧
    (status_of s agentId = Some active →
       status_of s' agentId = Some active ∨ status_of s' agentId = Some completed).

#[global] Instance no_demotion_refl : Reflexive no_demotion.
Proof. intros s k. naive_solver. Qed.

#[global] Instance no_demotion_trans : Transitive no_demotion.
Proof.
  intros s1 s2 s3 H12 H23 k. destruct (H12 k) as [Hc Ha], (H23 k) as [Hc' Ha'].
  naive_solver.
Qed.

Lemma no_demotion_same_statuses s s' :
  (∀ k, status_of s' k = status_of s k) → no_demotion s s'.
Proof. intros E k. rewrite E. naive_solver. Qed.

Lemma no_demotion_setAgentStatus_completed k s :
  no_demotion s (setAgentStatus k completed s).
Proof.
  intros k'.
  destruct (status_of_setAgentStatus k completed s k') as [->| ->]; [naive_solver|].
  rewrite status_of_store. case_bool_decide; naive_solver.
Qed.

Lemma no_demotion_activate k s :
  not_started s k = true →
  no_demotion s (store_status k active (setAgentStatus k active s)).
Proof.
  intros [Ha Hc]%not_started_spec k'.
  rewrite status_of_set_store, status_of_store.
  case_bool_decide as Hk; [destruct Hk as [-> _]|]; naive_solver.
Qed.

Lemma no_demotion_effect s s' : effect s s' → no_demotion s s'.
Proof.
  destruct 1 as [a s _|k s Hns|s s' [s0 Hns|v s0|x s0]];
    try (by apply no_demotion_same_statuses); try (by apply no_demotion_activate).
  intros k'. rewrite status_of_set_store, status_of_store.
  case_bool_decide; naive_solver.
Qed.

Lemma no_demotion_effects s s' : rtc effect s s' → no_demotion s s'.
Proof.
  induction 1 as [|s1 s2 s3 H12 _ IH]; [done|].
  etrans; [by apply no_demotion_effect|done].
Qed.

(** ** The read loop preserves what every event preserves *)

Section LoopInvariant.
Context `{!Platform}.

Lemma process_line_state line s :
    (process_line line s).1 = s ∨
    ∃ data, (process_line line s).1 = final (processStreamEvent data s).
Proof.
    unfold process_line.
    destruct (Str.startsWith _ _); [|by left].
    destruct (negb _); [|by left].
    destruct (JSON_parse _) as [data|]; [right; by exists data|by left].
Qed.

  (** The two equations of the loop. *)
Lemma drain_lines_newline buf events s i :
    Str.indexOf_newline buf = Some i →
    drain_lines buf events s =
    drain_lines (Str.substring_from (S i) buf)
      (events ++ option_list (process_line (Str.trim (Str.substring_to i buf)) s).2)
      (process_line (Str.trim (Str.substring_to i buf)) s).1.
Proof.
    intros Hi. funelim (drain_lines buf events s); [|congruence].
    assert (i = newlineIndex) as -> by congruence. done.
Qed.

Lemma drain_lines_no_newline buf events s :
    Str.indexOf_newline buf = None → drain_lines buf events s = (buf, events, s).
Proof. intros Hi. funelim (drain_lines buf events s); [congruence|done]. Qed.

Variable R : relation state.
Context `{!Reflexive R, !Transitive R}.
Hypothesis R_event : ∀ data s, R s (final (processStreamEvent data s)).

Lemma drain_lines_preserves buf events s : R s (drain_lines buf events s).2.
Proof.
    funelim (drain_lines buf events s); [|done].
    match goal with IH : R _ (drain_lines _ _ _).2 |- _ => etrans; [|exact IH] end.
    destruct (process_line_state (Str.trim (Str.substring_to newlineIndex buf)) s)
      as [->|[data ->]]; [done|apply R_event].
Qed.

Lemma feed_chunk_preserves bytes r s : R s (feed_chunk bytes r s).2.
Proof.
    unfold feed_chunk. destruct (decode _ _) as [d text].
    pose proof (drain_lines_preserves (buffer r ++ text) (decoded r) s) as Hd.
    by destruct (drain_lines _ _ _) as [[b ev] s'].
Qed.

End LoopInvariant.

(** The function has returned. *)
Definition is_returned `{!Platform} (o : outcome) : bool :=
  match o with Returned _ => true | _ => false end.

(** The display holds the error box. *)
Definition is_error_box (d : display) : bool :=
  match d with ErrorBox _ => true | _ => false end.

(** The function is waiting for the next read. *)
Definition is_pending `{!Platform} (o : outcome) : bool :=
  match o with Pending _ _ => true | _ => false end.

(** The page an outcome stands at. *)
Definition outcome_state `{!Platform} (o : outcome) : state :=
  match o with
  | Pending _ s | Returned s | Thrown _ s => s
  end.

(** The events of a list processed in order, each throw swallowed as the
    read loop does. *)
Definition process_events `{!Platform} (events : list value) (s : state) : state :=
  foldl (λ s data, final (processStreamEvent data s)) s events.

Section NoDemotion.
Context `{!Platform}.

Lemma no_demotion_event data s : no_demotion s (final (processStreamEvent data s)).
Proof. apply no_demotion_effects, processStreamEvent_effects. Qed.

Lemma no_demotion_events events s : no_demotion s (process_events events s).
Proof.
    revert s; induction events as [|e l IH]; intros s; simpl; [done|].
    etrans; [apply no_demotion_event|apply IH].
Qed.

Lemma status_of_finish s k :
    status_of (triggerCelebration (with_buttons false false false
                 (updateReportDisplay s))) k = status_of s k.
Proof.
    unfold triggerCelebration, updateReportDisplay.
    repeat case_match; done.
Qed.

Lemma no_demotion_stream_done s : no_demotion s (stream_done s).
Proof.
    unfold stream_done. cbv zeta.
    etrans; [|apply no_demotion_same_statuses; intros k; apply status_of_finish].
    generalize STAGES. intros l; revert s.
    induction l as [|a l IH]; intros s; simpl; [done|].
    etrans; [|apply IH].
    destruct (status_of s a) as [[]|]; try done;
      apply no_demotion_setAgentStatus_completed.
Qed.

Lemma no_demotion_read_loop reads r s :
    no_demotion s (outcome_state (read_loop reads r s)).
Proof.
    revert r s; induction reads as [|[bytes| |e] reads IH]; intros r s; simpl.
    - done.
    - pose proof (feed_chunk_preserves no_demotion no_demotion_event bytes r s) as Hf.
      destruct (feed_chunk bytes r s) as [r' s']. etrans; [exact Hf|apply IH].
    - apply no_demotion_stream_done.
    - by destruct (is_abort e).
Qed.

  (** C1.  No agent status is ever demoted.  Whatever the page looks like
      and whatever events follow, in any number and order: an agent that is
      completed stays completed and an agent that is active stays active or
      becomes completed, after the events, after the handling of the end
      of the stream that follows them, and at every point the read loop of
      [streamQuery] can reach on any sequence of chunks, end of stream or
      rejection. *)
Theorem agent_status_never_demoted (events : list value) (s : state) :
    no_demotion s (process_events events s) ∧
    no_demotion s (stream_done (process_events events s)) ∧
    ∀ reads r, no_demotion s (outcome_state (read_loop reads r s)).
Proof.
    split; [apply no_demotion_events|split].
    - etrans; [apply no_demotion_events|apply no_demotion_stream_done].
    - intros reads r. apply no_demotion_read_loop.
Qed.

End NoDemotion.

(** ** The successor of a completed agent *)

Lemma side_effect_status k s s' :
  side_effect s s' →
  k ≠ js "builder" ∨ not_started s k = false →
  status_of s' k = status_of s k.
Proof.
  destruct 1 as [s Hb| |]; [|done..].
  intros Hk. rewrite status_of_set_store, status_of_store.
  case_bool_decide as E; [|done]. destruct E as [-> _].
  destruct Hk; congruence.
Qed.

Lemma side_effects_status k s s' :
  rtc side_effect s s' →
  k ≠ js "builder" ∨ not_started s k = false →
  status_of s' k = status_of s k.
Proof.
  induction 1 as [|s1 s2 s3 H12 _ IH]; [done|]. intros Hk.
  pose proof (side_effect_status k _ _ H12 Hk) as E12.
  rewrite IH, E12; [done|].
  destruct Hk as [?|Hk]; [by left|right].
  unfold not_started in *. by rewrite E12.
Qed.

Section Successor.
Context `{!Platform}.

Lemma next_agent_pairs X Y :
    next_agent (IdString X) = Some Y →
    (X = js "orchestrator" ∧ Y = js "parser") ∨
    (X = js "parser" ∧ Y = js "modeler") ∨
    (X = js "modeler" ∧ Y = js "builder") ∨
    (X = js "builder" ∧ Y = js "verifier").
Proof.
    unfold next_agent, AGENT_SEQUENCE, indexOf.
    repeat (case_bool_decide; simpl; [subst; intros [= <-]; tauto|]).
    done.
Qed.

Lemma status_of_activate_if_not_started k s k' :
    status_of (activate_if_not_started k s) k' =
    if bool_decide (k' = k ∧ k ≠ js "__proto__") && not_started s k
    then Some active else status_of s k'.
Proof.
    unfold activate_if_not_started. destruct (not_started s k).
    - rewrite status_of_set_store, status_of_store. by case_bool_decide.
    - by rewrite andb_false_r.
Qed.

  (** The first block on an event whose author resolves to the string
      [X], an agent with a card. *)
Lemma update_author_status_finished event author finishReason X s :
    get event (js "author") = Some author →
    truthy author = true →
    resolve_agent author = Some (IdString X) →
    X ≠ [] →
    is_Some (cards s !! card_id X) →
    get event (js "finishReason") = Some finishReason →
    is_finish finishReason = true →
    update_author_status event s =
    let s1 := store_status X completed (setAgentStatus X completed s) in
    match next_agent (IdString X) with
    | Some nextAgentId => Normal (activate_if_not_started nextAgentId s1)
    | None => Normal s1
    end.
Proof.
    intros Hauthor Htruthy Hresolve HX Hcard Hfr Hfinish.
    unfold update_author_status. rewrite Hauthor. cbn [attempt].
    rewrite Htruthy, Hresolve. cbn [attempt id_text id_truthy].
    rewrite (bool_decide_eq_false_2 (X = [])) by done.
    rewrite (bool_decide_eq_true_2 _ Hcard). cbn [negb andb].
    rewrite Hfr. cbn [attempt]. by rewrite Hfinish.
Qed.

Lemma update_author_status_seen event author finishReason X s :
    get event (js "author") = Some author →
    truthy author = true →
    resolve_agent author = Some (IdString X) →
    X ≠ [] →
    is_Some (cards s !! card_id X) →
    get event (js "finishReason") = Some finishReason →
    is_finish finishReason = false →
    update_author_status event s = Normal (activate_if_not_started X s).
Proof.
    intros Hauthor Htruthy Hresolve HX Hcard Hfr Hfinish.
    unfold update_author_status. rewrite Hauthor. cbn [attempt].
    rewrite Htruthy, Hresolve. cbn [attempt id_text id_truthy].
    rewrite (bool_decide_eq_false_2 (X = [])) by done.
    rewrite (bool_decide_eq_true_2 _ Hcard). cbn [negb andb].
    rewrite Hfr. cbn [attempt]. by rewrite Hfinish.
Qed.

  (** C3.  When an event whose author resolves to an agent [X] that has a
      card carries one of the three finish reasons, and [AGENT_SEQUENCE]
      has a successor [Y] of [X], then after the event [Y] is active if it
      had not started, and has the status it had if it was already active
      or completed. *)
Theorem completion_promotes_successor_iff_not_started
      (event author finishReason : value) (X Y : jsstring) (s : state) :
    get event (js "author") = Some author →
    truthy author = true →
    resolve_agent author = Some (IdString X) →
    is_Some (cards s !! card_id X) →
    get event (js "finishReason") = Some finishReason →
    is_finish finishReason = true →
    next_agent (IdString X) = Some Y →
    status_of (final (processStreamEvent event s)) Y =
      if not_started s Y then Some active else status_of s Y.
Proof.
    intros Hauthor Htruthy Hresolve Hcard Hfr Hfinish Hnext.
    assert (X ≠ Y ∧ Y ≠ js "__proto__" ∧ X ≠ []) as (HXY & HY & HX).
    { destruct (next_agent_pairs _ _ Hnext) as [[-> ->]|[[-> ->]|[[-> ->]|[-> ->]]]];
        by vm_compute. }
    rewrite processStreamEvent_split.
    rewrite (update_author_status_finished event author finishReason X s)
      by done.
    rewrite Hnext. simpl.
    set (s1 := store_status X completed (setAgentStatus X completed s)).
    assert (status_of s1 Y = status_of s Y) as E1.
    { unfold s1. rewrite status_of_set_store, status_of_store.
      rewrite bool_decide_eq_false_2; [done|]. intros [? _]; done. }
    assert (not_started s1 Y = not_started s Y) as N1
      by (unfold not_started; by rewrite E1).
    rewrite (side_effects_status Y _ _ (side_effects_after_author event _)).
    - rewrite status_of_activate_if_not_started, N1, E1.
      rewrite bool_decide_eq_true_2 by done. done.
    - right. unfold not_started at 1.
      rewrite status_of_activate_if_not_started, N1, E1.
      rewrite bool_decide_eq_true_2 by done. simpl.
      unfold not_started. destruct (status_of s Y) as [[]|]; done.
Qed.

End Successor.

(** ** Which way a status moves *)

(** The event names [agentId] as finished: its author resolves to it and
    it carries one of the three finish reasons. *)
Definition completes `{!Platform} (event : value) (agentId : jsstring) : Prop :=
  ∃ author finishReason id,
    get event (js "author") = Some author ∧ truthy author = true ∧
    resolve_agent author = Some id ∧ id_text id = agentId ∧
    get event (js "finishReason") = Some finishReason ∧
    is_finish finishReason = true.

Lemma side_effects_status_cases k s s' :
  rtc side_effect s s' →
  status_of s' k = status_of s k ∨
  (not_started s k = true ∧ status_of s' k = Some active).
Proof.
  intros Hchain. destruct (not_started s k) eqn:Hns;
    [|left; apply (side_effects_status k _ _ Hchain); by right].
  induction Hchain as [|s1 s2 s3 H12 H23 IH]; [by left|].
  destruct H12 as [s1 Hb|v s1|t s1]; try (by apply IH).
  destruct (decide (k = js "builder")) as [->|Hk].
  - right. split; [done|].
    rewrite (side_effects_status _ _ _ H23); [by rewrite status_of_set_store, status_of_store|].
    right. unfold not_started. by rewrite status_of_set_store, status_of_store.
  - destruct IH as [IH|[_ IH]].
    + unfold not_started in *. rewrite status_of_set_store, status_of_store.
      rewrite bool_decide_eq_false_2; [done|]. intros [? _]; done.
    + left. rewrite IH, status_of_set_store, status_of_store.
      rewrite bool_decide_eq_false_2; [done|]. intros [? _]; done.
    + by right.
Qed.

Section Transitions.
Context `{!Platform}.

Lemma author_status_cases event s k :
    let s1 := final (update_author_status event s) in
    status_of s1 k = status_of s k ∨
    (not_started s k = true ∧ status_of s1 k = Some active) ∨
    (status_of s k ≠ Some completed ∧ status_of s1 k = Some completed ∧
     completes event k).
Proof.
    cbv zeta. unfold update_author_status.
    destruct (get event (js "author")) as [author|] eqn:Hauthor; [|by left].
    cbn [attempt]. destruct (truthy author) eqn:Htruthy; [|by left].
    destruct (resolve_agent author) as [agentId|] eqn:Hresolve; [|by left].
    cbn [attempt]. destruct (id_truthy agentId && _); [|by left].
    destruct (get event (js "finishReason")) as [finishReason|] eqn:Hfr; [|by left].
    cbn [attempt]. destruct (is_finish finishReason) eqn:Hfinish.
    - set (a := id_text agentId).
      set (s1 := store_status a completed (setAgentStatus a completed s)).
      assert (∀ k', status_of s1 k' =
                if bool_decide (k' = a ∧ a ≠ js "__proto__") then Some completed
                else status_of s k') as E1
        by (intros k'; unfold s1; by rewrite status_of_set_store, status_of_store).
      assert (status_of s1 k = status_of s k ∨
              (status_of s k ≠ Some completed ∧ status_of s1 k = Some completed ∧
               completes event k)) as Hown.
      { rewrite E1. case_bool_decide as Hk; [|by left]. destruct Hk as [-> _].
        destruct (decide (status_of s a = Some completed)) as [->|Hc]; [by left|].
        right. split; [done|]. split; [done|].
        by exists author, finishReason, agentId. }
      destruct (next_agent agentId) as [next|] eqn:Hnext; simpl; [|naive_solver].
      rewrite status_of_activate_if_not_started.
      case_bool_decide as Hk; simpl; [|naive_solver].
      destruct Hk as [-> _].
      assert (next ≠ a) as Hne.
      { destruct agentId as [X|]; [|done].
        destruct (next_agent_pairs _ _ Hnext) as [[-> ->]|[[-> ->]|[[-> ->]|[-> ->]]]];
          by vm_compute. }
      assert (status_of s1 next = status_of s next) as En.
      { rewrite E1. rewrite bool_decide_eq_false_2; [done|]. intros [? _]; done. }
      assert (not_started s1 next = not_started s next) as N1
        by (unfold not_started; by rewrite En).
      rewrite N1, En.
      destruct (not_started s next) eqn:Hns; [right; left; done|by left].
    - simpl. rewrite status_of_activate_if_not_started.
      case_bool_decide as Hk; simpl; [|by left]. destruct Hk as [-> _].
      destruct (not_started s (id_text agentId)) eqn:Hns; [right; left; done|by left].
Qed.

Lemma stream_done_cases s k :
    status_of (stream_done s) k = status_of s k ∨
    (status_of s k = Some active ∧ status_of (stream_done s) k = Some completed).
Proof.
    unfold stream_done. cbv zeta. rewrite status_of_finish.
    generalize STAGES. intros l; revert s.
    induction l as [|a l IH]; intros s; simpl; [by left|].
    set (s1 := match status_of s a with
               | Some active | Some completed => setAgentStatus a completed s
               | _ => s
               end).
    assert (status_of s1 k = status_of s k ∨
            (status_of s k = Some active ∧ status_of s1 k = Some completed)) as H1.
    { unfold s1. destruct (status_of s a) as [[]|] eqn:Ea; try by left.
      - destruct (status_of_setAgentStatus a completed s k) as [->| ->]; [by left|].
        rewrite status_of_store. case_bool_decide as Hk; [|by left].
        destruct Hk as [-> _]. by right.
      - destruct (status_of_setAgentStatus a completed s k) as [->| ->]; [by left|].
        rewrite status_of_store. case_bool_decide as Hk; [|by left].
        destruct Hk as [-> _]. by left. }
    destruct (IH s1) as [E|[Ha E]].
    - rewrite E. exact H1.
    - destruct H1 as [H1|[H1 H1']]; [|congruence].
      right. split; [congruence|done].
Qed.

  (** C6, as the code has it.  Processing an event moves the status of an
      agent forward or not at all: it stays, or goes from not started to
      active, or is set to completed because the event names that very
      agent as finished, and this last move is made from any status, not
      started included.  The end of the stream moves a status from active
      to completed or not at all. *)
Theorem status_moves_forward (event : value) (s : state) (agentId : jsstring) :
    let s' := final (processStreamEvent event s) in
    (status_of s' agentId = status_of s agentId ∨
     (not_started s agentId = true ∧ status_of s' agentId = Some active) ∨
     (status_of s agentId ≠ Some completed ∧ status_of s' agentId = Some completed ∧
      completes event agentId)) ∧
    (status_of (stream_done s) agentId = status_of s agentId ∨
     (status_of s agentId = Some active ∧
      status_of (stream_done s) agentId = Some completed)).
Proof.
    cbv zeta. split; [|apply stream_done_cases].
    rewrite processStreamEvent_split, final_and_then.
    pose proof (author_status_cases event s agentId) as H1. cbv zeta in H1.
    destruct (update_author_status event s) as [s1|s1]; simpl in H1; [|exact H1].
    destruct (side_effects_status_cases agentId _ _
                (side_effects_after_author event s1)) as [E|[Hns E]].
    - by rewrite E.
    - destruct H1 as [H1|[[_ H1]|(_ & H1 & _)]].
      + right; left. split; [|done]. unfold not_started in *. by rewrite <- H1.
      + unfold not_started in Hns. by rewrite H1 in Hns.
      + unfold not_started in Hns. by rewrite H1 in Hns.
Qed.

End Transitions.

(** ** Chunk boundaries *)

Lemma indexOf_newline_app_Some b1 b2 i :
  Str.indexOf_newline b1 = Some i → Str.indexOf_newline (b1 ++ b2) = Some i.
Proof.
  revert i; induction b1 as [|c b1 IH]; intros i; simpl; [done|].
  destruct (N.eqb c 10); [done|].
  destruct (Str.indexOf_newline b1) as [j|]; simpl; [|done].
  intros [= <-]. by rewrite (IH j).
Qed.

Section Chunks.
Context `{!Platform}.

Lemma decode_app d a b :
    decode d (a ++ b) =
    let '(d1, t1) := decode d a in
    let '(d2, t2) := decode d1 b in
    (d2, t1 ++ t2).
Proof.
    revert d; induction a as [|x a IH]; intros d; simpl.
    - by destruct (decode d b).
    - destruct (decoder_step d x) as [d0 t0]. rewrite IH.
      destruct (decode d0 a) as [d1 t1], (decode d1 b) as [d2 t2].
      by rewrite app_assoc.
Qed.

  (** Draining a buffer, then draining what is left of it with more text
      appended, is draining the whole. *)
Lemma drain_lines_app b1 b2 events s :
    drain_lines (b1 ++ b2) events s =
    drain_lines ((drain_lines b1 events s).1.1 ++ b2)
      (drain_lines b1 events s).1.2 (drain_lines b1 events s).2.
Proof.
    funelim (drain_lines b1 events s).
    - match goal with E : Str.indexOf_newline _ = Some _ |- _ =>
        rewrite (drain_lines_newline _ _ _ _ (indexOf_newline_app_Some _ b2 _ E));
        pose proof (Str.indexOf_newline_lt _ _ E) as Hlt
      end.
      unfold Str.substring_to, Str.substring_from in *.
      rewrite take_app_le, drop_app_le by lia.
      match goal with IH : ∀ _, drain_lines _ _ _ = _ |- _ => apply IH end.
    - done.
Qed.

Lemma drain_lines_leaves_no_newline buf events s :
    Str.indexOf_newline (drain_lines buf events s).1.1 = None.
Proof. funelim (drain_lines buf events s); done. Qed.

Lemma feed_chunk_app a b r s :
    feed_chunk (a ++ b) r s =
    feed_chunk b (feed_chunk a r s).1 (feed_chunk a r s).2.
Proof.
    unfold feed_chunk. rewrite decode_app.
    destruct (decode (decoder r) a) as [d1 t1].
    destruct (drain_lines (buffer r ++ t1) (decoded r) s) as [[b1 ev1] s1] eqn:E1.
    simpl. destruct (decode d1 b) as [d2 t2].
    by rewrite app_assoc, drain_lines_app, E1.
Qed.

Lemma feed_chunk_leaves_no_newline bytes r s :
    Str.indexOf_newline (buffer (feed_chunk bytes r s).1) = None.
Proof.
    unfold feed_chunk. destruct (decode _ _) as [d t].
    pose proof (drain_lines_leaves_no_newline (buffer r ++ t) (decoded r) s) as Hn.
    by destruct (drain_lines _ _ _) as [[b ev] s'].
Qed.

Lemma feed_chunk_nil r s :
    Str.indexOf_newline (buffer r) = None → feed_chunk [] r s = (r, s).
Proof.
    intros Hn. unfold feed_chunk. simpl. rewrite app_nil_r.
    rewrite drain_lines_no_newline by done. by destruct r.
Qed.

  (** The chunks of a list fed one after the other: the outer loop between
      two reads. *)
Definition feed_chunks (chunks : list (list byte)) (r : reader) (s : state)
      : reader * state :=
    foldl (λ rs bytes, feed_chunk bytes rs.1 rs.2) (r, s) chunks.

Lemma feed_chunks_concat chunks r s :
    Str.indexOf_newline (buffer r) = None →
    feed_chunks chunks r s = feed_chunk (concat chunks) r s.
Proof.
    unfold feed_chunks.
    revert r s; induction chunks as [|c chunks IH]; intros r s Hn; simpl.
    - by rewrite feed_chunk_nil.
    - rewrite feed_chunk_app, <- IH by apply feed_chunk_leaves_no_newline.
      by destruct (feed_chunk c r s).
Qed.

Lemma read_loop_chunks chunks rest r s :
    read_loop ((ReadChunk <$> chunks) ++ rest) r s =
    read_loop rest (feed_chunks chunks r s).1 (feed_chunks chunks r s).2.
Proof.
    unfold feed_chunks.
    revert r s; induction chunks as [|c chunks IH]; intros r s; simpl; [done|].
    destruct (feed_chunk c r s) as [r' s'] eqn:E. by rewrite IH.
Qed.

  (** C2.  The decoder does not see chunk boundaries.  However a byte
      stream is cut into chunks, reading the chunks one by one from a fresh
      reader hands [processStreamEvent] the same events in the same order
      as reading the whole stream as one chunk, and leaves the same page,
      the same partial line in the buffer and the same decoder state; the
      read loop then goes on identically. *)
Theorem decoding_is_chunk_independent (chunks : list (list byte)) (s : state) :
    decoded (feed_chunks chunks new_reader s).1 =
      decoded (feed_chunk (concat chunks) new_reader s).1 ∧
    feed_chunks chunks new_reader s = feed_chunk (concat chunks) new_reader s ∧
    ∀ rest,
      read_loop ((ReadChunk <$> chunks) ++ rest) new_reader s =
      read_loop (ReadChunk (concat chunks) :: rest) new_reader s.
Proof.
    assert (feed_chunks chunks new_reader s = feed_chunk (concat chunks) new_reader s)
      as E by (by apply feed_chunks_concat).
    split; [by rewrite E|split; [done|]].
    intros rest. rewrite read_loop_chunks, E. simpl.
    by destruct (feed_chunk (concat chunks) new_reader s).
Qed.

End Chunks.

(** ** Malformed lines *)

Lemma indexOf_newline_line line rest :
  Str.indexOf_newline line = None →
  Str.indexOf_newline (line ++ 10 :: rest) = Some (length line).
Proof.
  induction line as [|c line IH]; simpl; [done|].
  destruct (N.eqb c 10); [done|].
  destruct (Str.indexOf_newline line); simpl; [done|].
  intros _. by rewrite IH.
Qed.

Section Lines.
Context `{!Platform}.

  (** One complete line at the head of the buffer. *)
Lemma drain_lines_line line rest events s :
    Str.indexOf_newline line = None →
    drain_lines (line ++ [10] ++ rest) events s =
    drain_lines rest (events ++ option_list (process_line (Str.trim line) s).2)
      (process_line (Str.trim line) s).1.
Proof.
    intros Hn. simpl.
    rewrite (drain_lines_newline _ _ _ _ (indexOf_newline_line line rest Hn)).
    unfold Str.substring_to, Str.substring_from.
    rewrite take_app_length.
    replace (drop (S (length line)) (line ++ 10 :: rest)) with rest; [done|].
    rewrite drop_app_ge by lia.
    by replace (S (length line) - length line)%nat with 1%nat by lia.
Qed.

  (** Text that ends in a newline leaves nothing in the buffer. *)
Lemma drain_lines_terminated pre events s :
    pre = [] ∨ (∃ p, pre = p ++ [10]) →
    (drain_lines pre events s).1.1 = [].
Proof.
    intros [->|[p ->]]; [by rewrite drain_lines_no_newline|].
    rewrite drain_lines_app.
    pose proof (drain_lines_leaves_no_newline p events s) as Hn.
    destruct (drain_lines p events s) as [[b ev] s1]; simpl in *.
    rewrite <- (app_nil_r [10]).
    rewrite (drain_lines_line b [] _ _ Hn).
    by rewrite drain_lines_no_newline.
Qed.

  (** A line that decodes to an event is handed to [processStreamEvent]. *)
Lemma process_line_good line data s :
    Str.startsWith (js "data: ") line = true →
    JSON_parse (Str.substring_from 6 line) = Some data →
    Str.substring_from 6 line ≠ [] →
    process_line line s = (final (processStreamEvent data s), Some data).
Proof.
    intros Hp Hj Hne. unfold process_line.
    by rewrite Hp, (bool_decide_eq_false_2 _ Hne), Hj.
Qed.

  (** C4.  A line whose payload after ["data: "] does not parse is
      dropped without a trace: handling it returns normally with the page
      as it was and no event, and the loop over the lines goes on.  Placed
      between complete lines [pre] and any further text [rest], the line
      changes nothing: the same events are decoded and processed, and the
      same state is reached, as if it were not there; in particular a
      well-formed line right after it is decoded and processed as usual.
      No chunk, whatever its lines, ends the read loop. *)
Theorem malformed_line_is_skipped
      (pre bad good rest : jsstring) (data : value) (events : list value) (s : state) :
    Str.indexOf_newline bad = None →
    Str.startsWith (js "data: ") (Str.trim bad) = true →
    JSON_parse (Str.substring_from 6 (Str.trim bad)) = None →
    pre = [] ∨ (∃ p, pre = p ++ [10]) →
    Str.indexOf_newline good = None →
    Str.startsWith (js "data: ") (Str.trim good) = true →
    Str.substring_from 6 (Str.trim good) ≠ [] →
    JSON_parse (Str.substring_from 6 (Str.trim good)) = Some data →
    process_line (Str.trim bad) s = (s, None) ∧
    drain_lines (pre ++ bad ++ [10] ++ rest) events s =
      drain_lines (pre ++ rest) events s ∧
    drain_lines (bad ++ [10] ++ good ++ [10] ++ rest) events s =
      drain_lines rest (events ++ [data]) (final (processStreamEvent data s)) ∧
    ∀ bytes reads r,
      read_loop (ReadChunk bytes :: reads) r s =
      read_loop reads (feed_chunk bytes r s).1 (feed_chunk bytes r s).2.
Proof.
    intros Hbad Hprefix Hparse Hpre Hgood Hgprefix Hgne Hgparse.
    assert (∀ s, process_line (Str.trim bad) s = (s, None)) as Hline.
    { intros s'. unfold process_line. rewrite Hprefix, Hparse.
      by destruct (negb _). }
    assert (∀ rest ev s, drain_lines (bad ++ [10] ++ rest) ev s = drain_lines rest ev s)
      as Hskip.
    { intros rest' ev s'. rewrite (drain_lines_line _ _ _ _ Hbad), Hline. simpl.
      by rewrite app_nil_r. }
    split; [apply Hline|]. split; [|split].
    - rewrite (drain_lines_app pre (bad ++ [10] ++ rest)), (drain_lines_app pre rest).
      rewrite (drain_lines_terminated pre events s Hpre). simpl. apply Hskip.
    - rewrite Hskip, (drain_lines_line _ _ _ _ Hgood).
      by rewrite (process_line_good _ data s Hgprefix Hgparse Hgne).
    - intros bytes reads r. simpl. by destruct (feed_chunk bytes r s).
Qed.

End Lines.

(** ** The read loop as a fold over the decoded events *)

Section Fold.
Context `{!Platform}.

Lemma process_events_app l1 l2 s :
    process_events (l1 ++ l2) s = process_events l2 (process_events l1 s).
Proof. apply foldl_app. Qed.

  (** What a line decodes to does not depend on the page. *)
Lemma process_line_event line s s' :
    (process_line line s).2 = (process_line line s').2.
Proof. unfold process_line. by repeat case_match. Qed.

Lemma process_line_fold line s :
    (process_line line s).1 = process_events (option_list (process_line line s).2) s.
Proof. unfold process_line. by repeat case_match. Qed.

Lemma drain_lines_reader buf events s s' :
    (drain_lines buf events s).1 = (drain_lines buf events s').1.
Proof.
    revert s'. funelim (drain_lines buf events s); intros s'; [|by rewrite drain_lines_no_newline].
    match goal with E : Str.indexOf_newline _ = Some _ |- _ =>
      rewrite (drain_lines_newline _ _ s' _ E) end.
    rewrite (process_line_event _ s' s).
    match goal with IH : ∀ _, (drain_lines _ _ _).1 = _ |- _ => apply IH end.
Qed.

Lemma drain_lines_fold buf events s :
    ∃ new, (drain_lines buf events s).1.2 = events ++ new ∧
           (drain_lines buf events s).2 = process_events new s.
Proof.
    funelim (drain_lines buf events s); [|exists []; by rewrite app_nil_r].
    match goal with IH : ∃ _, _ |- _ => destruct IH as (new & Hev & Hst) end.
    eexists (_ ++ new). rewrite app_assoc, process_events_app, <- process_line_fold.
    by split.
Qed.

Lemma feed_chunk_reader bytes r s s' :
    (feed_chunk bytes r s).1 = (feed_chunk bytes r s').1.
Proof.
    unfold feed_chunk. destruct (decode _ _) as [d t].
    pose proof (drain_lines_reader (buffer r ++ t) (decoded r) s s') as E.
    destruct (drain_lines _ _ s) as [[b ev] s1], (drain_lines _ _ s') as [[b' ev'] s1'].
    simpl in *. by injection E as -> ->.
Qed.

  (** One chunk processes, in order, exactly the events it adds to the
      trace. *)
Lemma feed_chunk_fold bytes r s :
    ∃ new, decoded (feed_chunk bytes r s).1 = decoded r ++ new ∧
           (feed_chunk bytes r s).2 = process_events new s.
Proof.
    unfold feed_chunk. destruct (decode _ _) as [d t].
    destruct (drain_lines_fold (buffer r ++ t) (decoded r) s) as (new & Hev & Hst).
    destruct (drain_lines _ _ s) as [[b ev] s1]. simpl in *. by exists new.
Qed.

End Fold.

(** ** What the page keeps *)

(** The agent has a card. *)
Definition has_card (s : state) (agentId : jsstring) : Prop :=
  is_Some (cards s !! card_id agentId).

Lemma has_card_setAgentStatus k st s k' :
  has_card (setAgentStatus k st s) k' ↔ has_card s k'.
Proof.
  unfold has_card, setAgentStatus.
  destruct (cards s !! card_id k) as [c|] eqn:Ec; [|done]. simpl.
  destruct (decide (card_id k = card_id k')) as [E|E].
  - rewrite <- E, lookup_insert_eq, Ec. split; eauto.
  - by rewrite lookup_insert_ne.
Qed.

Lemma has_card_store_set k st s k' :
  has_card (store_status k st (setAgentStatus k st s)) k' ↔ has_card s k'.
Proof. apply has_card_setAgentStatus. Qed.

Lemma has_card_activate_if_not_started k s k' :
  has_card (activate_if_not_started k s) k' ↔ has_card s k'.
Proof.
  unfold activate_if_not_started. destruct (not_started s k); [|done].
  apply has_card_store_set.
Qed.

Lemma has_card_resetAllAgents s k : has_card (resetAllAgents s) k ↔ has_card s k.
Proof.
  unfold resetAllAgents. generalize STAGES. intros l; revert s.
  induction l as [|a l IH]; intros s; simpl; [done|].
  by rewrite IH, has_card_store_set.
Qed.

Lemma reportContent_setAgentStatus k st s :
  reportContent (setAgentStatus k st s) = reportContent s.
Proof. unfold setAgentStatus. by destruct (cards s !! card_id k). Qed.

Lemma reportContent_effects s s' : rtc effect s s' → reportContent s' = reportContent s.
Proof.
  induction 1 as [|s1 s2 s3 H12 _ IH]; [done|]. rewrite IH.
  destruct H12 as [a s _|k s _|s s' [s0 _|v s0|t s0]]; simpl;
    try done; apply reportContent_setAgentStatus.
Qed.

Lemma fullReport_setAgentStatus k st s :
  fullReport (setAgentStatus k st s) = fullReport s.
Proof. unfold setAgentStatus. by destruct (cards s !! card_id k). Qed.

Lemma pdfFilePath_setAgentStatus k st s :
  pdfFilePath (setAgentStatus k st s) = pdfFilePath s.
Proof. unfold setAgentStatus. by destruct (cards s !! card_id k). Qed.

Lemma fullReport_resetAllAgents s : fullReport (resetAllAgents s) = fullReport s.
Proof.
  unfold resetAllAgents. generalize STAGES. intros l; revert s.
  induction l as [|a l IH]; intros s; simpl; [done|].
  rewrite IH. simpl. apply fullReport_setAgentStatus.
Qed.

Lemma pdfFilePath_resetAllAgents s : pdfFilePath (resetAllAgents s) = pdfFilePath s.
Proof.
  unfold resetAllAgents. generalize STAGES. intros l; revert s.
  induction l as [|a l IH]; intros s; simpl; [done|].
  rewrite IH. simpl. apply pdfFilePath_setAgentStatus.
Qed.

Lemma reportContent_resetAllAgents s :
  reportContent (resetAllAgents s) = reportContent s.
Proof.
  unfold resetAllAgents. generalize STAGES. intros l; revert s.
  induction l as [|a l IH]; intros s; simpl; [done|].
  rewrite IH. simpl. apply reportContent_setAgentStatus.
Qed.

(** After [resetAllAgents] the five agents are waiting. *)
Lemma status_of_resetAllAgents s k :
  k ∈ STAGES → status_of (resetAllAgents s) k = Some waiting.
Proof.
  intros Hk. unfold resetAllAgents, STAGES in *. simpl.
  repeat rewrite status_of_set_store, status_of_store.
  repeat (apply elem_of_cons in Hk as [->|Hk]; [by eval_decides|]).
  by apply elem_of_nil in Hk.
Qed.

Lemma has_card_effects s s' k : rtc effect s s' → has_card s' k ↔ has_card s k.
Proof.
  induction 1 as [|s1 s2 s3 H12 _ IH]; [done|]. rewrite IH.
  destruct H12 as [a s _|a s _|s s' [s0 _|v s0|t s0]];
    try done; apply has_card_store_set.
Qed.

Lemma status_of_eq s s' k :
  agentStatuses s = agentStatuses s' → status_of s k = status_of s' k.
Proof. unfold status_of. by intros ->. Qed.

Lemma has_card_eq s s' k : cards s = cards s' → has_card s k ↔ has_card s' k.
Proof. unfold has_card. by intros ->. Qed.

Lemma stream_opened_eq `{!Platform} s :
  stream_opened s =
  with_reportContent PlaceholderProcessing
    (store_status (js "orchestrator") active
       (setAgentStatus (js "orchestrator") active s)).
Proof. reflexivity. Qed.

Lemma startAnalysis_reset_fields `{!Platform} s :
  agentStatuses (startAnalysis_reset s) =
    agentStatuses (resetAllAgents (with_reportContent PlaceholderStarting
                                     (with_fullReport [] s))) ∧
  cards (startAnalysis_reset s) =
    cards (resetAllAgents (with_reportContent PlaceholderStarting
                             (with_fullReport [] s))).
Proof.
  unfold startAnalysis_reset.
  generalize (resetAllAgents (with_reportContent PlaceholderStarting
                                (with_fullReport [] s))).
  intros x. by destruct x.
Qed.

Lemma has_card_stream_opened `{!Platform} s k : has_card (stream_opened s) k ↔ has_card s k.
Proof.
  rewrite stream_opened_eq.
  generalize (has_card_store_set (js "orchestrator") active s k).
  generalize (store_status (js "orchestrator") active
                (setAgentStatus (js "orchestrator") active s)).
  intros x. by destruct x.
Qed.

Lemma has_card_startAnalysis_reset `{!Platform} s k :
  has_card (startAnalysis_reset s) k ↔ has_card s k.
Proof.
  rewrite (has_card_eq _ _ k (proj2 (startAnalysis_reset_fields s))).
  etrans; [apply has_card_resetAllAgents|]. by destruct s.
Qed.

Lemma status_of_stream_opened `{!Platform} s k :
  status_of (stream_opened s) k =
  if bool_decide (k = js "orchestrator") then Some active else status_of s k.
Proof.
  rewrite stream_opened_eq.
  transitivity (status_of (store_status (js "orchestrator") active
                             (setAgentStatus (js "orchestrator") active s)) k).
  { generalize (store_status (js "orchestrator") active
                  (setAgentStatus (js "orchestrator") active s)).
    intros x. by destruct x. }
  rewrite status_of_set_store, status_of_store.
  destruct (decide (k = js "orchestrator")) as [->|Hk].
  - by rewrite !bool_decide_eq_true_2.
  - rewrite !bool_decide_eq_false_2; [done..|]. intros [? _]; done.
Qed.

Lemma status_of_startAnalysis_reset `{!Platform} s k :
  k ∈ STAGES → status_of (startAnalysis_reset s) k = Some waiting.
Proof.
  intros Hk. rewrite (status_of_eq _ _ k (proj1 (startAnalysis_reset_fields s))).
  by apply status_of_resetAllAgents.
Qed.

(** The end of the stream completes an active agent that has a card. *)
Lemma stream_done_completes `{!Platform} s k :
  k ∈ STAGES → has_card s k → status_of s k = Some active →
  status_of (stream_done s) k = Some completed.
Proof.
  intros Hk Hcard Hactive.
  assert (k ≠ js "__proto__") as Hproto.
  { unfold STAGES in Hk.
    repeat (apply elem_of_cons in Hk as [->|Hk]; [by vm_compute|]).
    by apply elem_of_nil in Hk. }
  unfold stream_done. cbv zeta. rewrite status_of_finish.
  assert (status_of s k = Some active ∨ status_of s k = Some completed) as Hst
    by (by left).
  clear Hactive. revert Hk s Hcard Hst. generalize STAGES.
  induction l as [|a l IH]; intros Hk s Hcard Hst; [by apply elem_of_nil in Hk|].
  simpl.
  set (step := λ (s : state) (agentId : jsstring),
         match status_of s agentId with
         | Some active | Some completed => setAgentStatus agentId completed s
         | _ => s
         end).
  assert (∀ l s, status_of s k = Some completed →
                 status_of (foldl step s l) k = Some completed) as Hkeep.
  { clear. intros l. induction l as [|a l IH]; intros s Hc; simpl; [done|].
    apply IH. unfold step.
    destruct (status_of s a) as [[]|]; try done;
      by apply no_demotion_setAgentStatus_completed. }
  destruct (decide (a = k)) as [->|Hne].
  - apply Hkeep. unfold step.
    assert (status_of (setAgentStatus k completed s) k = Some completed) as Hset.
    { unfold setAgentStatus. destruct Hcard as [c Hc]. unfold card_id in *.
      rewrite Hc. rewrite status_of_store. by rewrite bool_decide_eq_true_2. }
    by destruct Hst as [-> | ->].
  - apply elem_of_cons in Hk as [?|Hk]; [done|].
    apply IH; [done| |].
    + unfold step. destruct (status_of s a) as [[]|]; try done;
        by apply has_card_setAgentStatus.
    + assert (status_of (setAgentStatus a completed s) k = status_of s k) as E.
      { destruct (status_of_setAgentStatus a completed s k) as [->| ->]; [done|].
        rewrite status_of_store. rewrite bool_decide_eq_false_2; [done|].
        intros [? _]; done. }
      unfold step. destruct (status_of s a) as [[]|]; try done; by rewrite E.
Qed.

(** * Scenarios on the reference platform *)

(** The statuses of the five agents, in the order of [STAGES]. *)
Definition statuses (s : state) : list (option status) := status_of s <$> STAGES.

(** The UTF-8 bytes of a text of Basic Latin characters, the only ones the
    scenarios use. *)
Definition utf8_bytes (text : jsstring) : list byte :=
  (λ c, default "000"%byte (Byte.of_N c)) <$> text.

(** A response that opens a stream. *)
Definition streaming_response `{!Platform} : response :=
  {| response_ok := true; response_status := 200; response_text := inr [];
     response_json := inr VNull; response_body := true |}.

(** The answer of [POST /api/sessions] with the session id under [id]. *)
Definition session_response `{!Platform} (id : jsstring) : response :=
  {| response_ok := true; response_status := 200; response_text := inr [];
     response_json := inr (VObject [(js "id", VString id)]); response_body := true |}.

Section ParserScenario.
Local Existing Instance reference_platform.

Definition parser_frame : jsstring :=
    js "data: {" ++ quoted "author" ++ js ":" ++ quoted "architecture_parser_agent"
    ++ js "}".

Definition parser_stop_frame : jsstring :=
    js "data: {" ++ quoted "author" ++ js ":" ++ quoted "architecture_parser_agent"
    ++ js "," ++ quoted "finishReason" ++ js ":" ++ quoted "STOP" ++ js "}".

Definition parser_event : value :=
    VObject [(js "author", VString (js "architecture_parser_agent"))].

Definition parser_stop_event : value :=
    VObject [(js "author", VString (js "architecture_parser_agent"));
             (js "finishReason", VString (js "STOP"))].

  (** The two frames, each ended by a newline, or by a blank line as
      server-sent events are. *)
Definition parser_stream (blank_lines : bool) : list byte :=
    let sep := if blank_lines then [10; 10] else [10] in
    utf8_bytes (parser_frame ++ sep ++ parser_stop_frame ++ sep).

Lemma after_author_status_parser_event s :
    after_author_status parser_event s = Normal s.
Proof. by vm_compute. Qed.

Lemma after_author_status_parser_stop_event s :
    after_author_status parser_stop_event s = Normal s.
Proof. by vm_compute. Qed.

Lemma processStreamEvent_parser_event s :
    has_card s (js "parser") →
    processStreamEvent parser_event s =
    Normal (activate_if_not_started (js "parser") s).
Proof.
    intros Hcard. rewrite processStreamEvent_split.
    rewrite (update_author_status_seen parser_event
               (VString (js "architecture_parser_agent")) VUndefined (js "parser"))
      by done.
    apply after_author_status_parser_event.
Qed.

Lemma processStreamEvent_parser_stop_event s :
    has_card s (js "parser") →
    processStreamEvent parser_stop_event s =
    Normal (activate_if_not_started (js "modeler")
              (store_status (js "parser") completed
                 (setAgentStatus (js "parser") completed s))).
Proof.
    intros Hcard. rewrite processStreamEvent_split.
    rewrite (update_author_status_finished parser_stop_event
               (VString (js "architecture_parser_agent")) (VString (js "STOP"))
               (js "parser")) by done.
    apply after_author_status_parser_stop_event.
Qed.

  (** What the stream decodes to, on any page. *)
Lemma parser_stream_decoded blank_lines s :
    decoded (feed_chunk (parser_stream blank_lines) new_reader s).1 =
    [parser_event; parser_stop_event].
Proof.
    rewrite (feed_chunk_reader _ _ s initial_page).
    destruct blank_lines; by vm_compute.
Qed.

Lemma parser_stream_state blank_lines s :
    (feed_chunk (parser_stream blank_lines) new_reader s).2 =
    process_events [parser_event; parser_stop_event] s.
Proof.
    destruct (feed_chunk_fold (parser_stream blank_lines) new_reader s)
      as (new & Hev & ->).
    rewrite parser_stream_decoded in Hev. simpl in Hev. by subst.
Qed.

End ParserScenario.

Lemma stage_elem k : bool_decide (k ∈ STAGES) = true → k ∈ STAGES.
Proof. apply bool_decide_eq_true_1. Qed.

Ltac stage_mem := apply stage_elem; vm_compute; reflexivity.

(** Rewrites the status of an agent in a state built from the status
    operations down to the statuses of the state they started from. *)
Ltac status_calc :=
  repeat first
    [ rewrite status_of_activate_if_not_started
    | rewrite status_of_set_store
    | rewrite status_of_store
    | rewrite status_of_stream_opened
    | rewrite status_of_startAnalysis_reset by stage_mem
    | progress unfold not_started ].

Lemma streamQuery_streams `{!Platform} reads s :
  streamQuery (inr streaming_response) reads s =
  read_loop reads new_reader (stream_opened s).
Proof. reflexivity. Qed.

Lemma read_loop_done `{!Platform} r s :
  read_loop [ReadDone] r s = Returned (stream_done s).
Proof. reflexivity. Qed.

Section ParserScenarioRun.
Local Existing Instance reference_platform.

  (** C5, as the code has it.  On any page with cards for orchestrator,
      parser and modeler, a run whose stream is the two parser frames, cut
      into chunks in any way, and then ends goes as follows.  The run
      starts with all five agents waiting; opening the stream makes the
      orchestrator active; the first frame makes the parser active; the
      second completes the parser and makes the modeler active; the end of
      the stream completes the modeler and the orchestrator.  Builder and
      verifier are waiting throughout. *)
Theorem parser_scenario_statuses
      (s : state) (chunks : list (list byte)) (blank_lines : bool) :
    has_card s (js "orchestrator") →
    has_card s (js "parser") →
    has_card s (js "modeler") →
    concat chunks = parser_stream blank_lines →
    let start := startAnalysis_reset s in
    let opened := stream_opened start in
    let fed := feed_chunks chunks new_reader opened in
    statuses start =
      [Some waiting; Some waiting; Some waiting; Some waiting; Some waiting] ∧
    statuses opened =
      [Some active; Some waiting; Some waiting; Some waiting; Some waiting] ∧
    statuses (process_events [parser_event] opened) =
      [Some active; Some active; Some waiting; Some waiting; Some waiting] ∧
    decoded fed.1 = [parser_event; parser_stop_event] ∧
    statuses fed.2 =
      [Some active; Some completed; Some active; Some waiting; Some waiting] ∧
    streamQuery (inr streaming_response) ((ReadChunk <$> chunks) ++ [ReadDone]) start =
      Returned (stream_done fed.2) ∧
    statuses (stream_done fed.2) =
      [Some completed; Some completed; Some completed; Some waiting; Some waiting].
Proof.
    intros Horch Hparser Hmodeler Hchunks start opened fed.
    assert (∀ k, has_card opened k ↔ has_card s k) as Hcards.
    { intros k. unfold opened, start.
      by rewrite has_card_stream_opened, has_card_startAnalysis_reset. }
    assert (process_events [parser_event] opened =
            activate_if_not_started (js "parser") opened) as E1.
    { unfold process_events. cbn [foldl].
      rewrite processStreamEvent_parser_event; [done|]. by apply Hcards. }
    assert (fed = feed_chunk (parser_stream blank_lines) new_reader opened) as Efed.
    { unfold fed. rewrite feed_chunks_concat by done. by rewrite Hchunks. }
    assert (fed.2 =
            activate_if_not_started (js "modeler")
              (store_status (js "parser") completed
                 (setAgentStatus (js "parser") completed
                    (activate_if_not_started (js "parser") opened)))) as E2.
    { rewrite Efed, parser_stream_state.
      rewrite (process_events_app [parser_event] [parser_stop_event]).
      rewrite E1. unfold process_events. cbn [foldl].
      rewrite processStreamEvent_parser_stop_event; [done|].
      apply has_card_activate_if_not_started. by apply Hcards. }
    assert (∀ k, k ∈ STAGES → status_of start k = Some waiting) as H0
      by (intros k Hk; by apply status_of_startAnalysis_reset).
    assert (∀ k, status_of opened k =
                 if bool_decide (k = js "orchestrator") then Some active
                 else status_of start k) as H1
      by (intros k; apply status_of_stream_opened).
    assert (streamQuery (inr streaming_response)
              ((ReadChunk <$> chunks) ++ [ReadDone]) start =
            Returned (stream_done fed.2)) as Hrun.
    { rewrite streamQuery_streams, read_loop_chunks. apply read_loop_done. }
    clearbody start opened fed.
    assert (statuses fed.2 =
            [Some active; Some completed; Some active; Some waiting; Some waiting])
      as Hfed.
    { rewrite E2. unfold statuses, STAGES. cbn [fmap list_fmap].
      repeat f_equal; status_calc; rewrite ?H1; eval_decides;
        rewrite ?H0 by stage_mem; reflexivity. }
    assert (∀ k, has_card fed.2 k ↔ has_card s k) as Hcards2.
    { intros k. rewrite E2, has_card_activate_if_not_started, has_card_store_set,
        has_card_activate_if_not_started. apply Hcards. }
    split; [|split; [|split; [|split; [|split; [|split]]]]].
    - unfold statuses, STAGES. cbn [fmap list_fmap].
      repeat f_equal; by apply H0; stage_mem.
    - unfold statuses, STAGES. cbn [fmap list_fmap].
      repeat f_equal; rewrite H1; eval_decides; rewrite ?H0 by stage_mem; reflexivity.
    - rewrite E1. unfold statuses, STAGES. cbn [fmap list_fmap].
      repeat f_equal; status_calc; rewrite ?H1; eval_decides;
        rewrite ?H0 by stage_mem; reflexivity.
    - by rewrite Efed, parser_stream_decoded.
    - exact Hfed.
    - exact Hrun.
    - unfold statuses, STAGES in *. cbn [fmap list_fmap] in *.
      injection Hfed as Ho Hp Hm Hb Hv.
      repeat f_equal.
      + apply stream_done_completes; [stage_mem|by apply Hcards2|done].
      + by apply no_demotion_stream_done.
      + apply stream_done_completes; [stage_mem|by apply Hcards2|done].
      + destruct (stream_done_cases fed.2 (js "builder")) as [->|[? _]]; congruence.
      + destruct (stream_done_cases fed.2 (js "verifier")) as [->|[? _]]; congruence.
Qed.

End ParserScenarioRun.

Section ParserScenarioOnThePage.
Local Existing Instance reference_platform.

  (** The page as loaded, with a description typed in. *)
Definition scenario_page : state := typed (js "A web shop behind a gateway") initial_page.

  (** The stream of the two parser frames in one chunk, then its end. *)
Definition parser_run : environment :=
    {| session_fetch := inr (session_response (js "session-1"));
       file_read := None;
       query_fetch := inr streaming_response;
       reads := [ReadChunk (parser_stream true); ReadDone] |}.

  (** The scenario in the words of the spec: at the end the parser is
      completed; the modeler is active after the second frame and completed
      at the end; orchestrator, builder and verifier have the status they
      had before. *)
Definition parser_scenario_as_specified
      (before after_second_frame at_end : state) : Prop :=
    status_of at_end (js "parser") = Some completed ∧
    status_of after_second_frame (js "modeler") = Some active ∧
    status_of at_end (js "modeler") = Some completed ∧
    ∀ k, k ∈ [js "orchestrator"; js "builder"; js "verifier"] →
         status_of at_end k = status_of before k.

  (** C5 fails for the orchestrator: the run returns with the
      orchestrator completed, whether "before" is taken when the run
      starts (waiting) or when the first frame arrives (active). *)
Lemma parser_scenario_completes_orchestrator :
    let start := startAnalysis_reset scenario_page in
    let opened := stream_opened (with_currentSessionId (VString (js "session-1")) start) in
    let after_frames := (feed_chunk (parser_stream true) new_reader opened).2 in
    let at_end := outcome_state (startAnalysis parser_run scenario_page) in
    is_returned (startAnalysis parser_run scenario_page) = true ∧
    statuses start =
      [Some waiting; Some waiting; Some waiting; Some waiting; Some waiting] ∧
    statuses opened =
      [Some active; Some waiting; Some waiting; Some waiting; Some waiting] ∧
    statuses after_frames =
      [Some active; Some completed; Some active; Some waiting; Some waiting] ∧
    statuses at_end =
      [Some completed; Some completed; Some completed; Some waiting; Some waiting] ∧
    ¬ parser_scenario_as_specified start after_frames at_end ∧
    ¬ parser_scenario_as_specified opened after_frames at_end.
Proof.
    cbv zeta.
    assert (status_of (outcome_state (startAnalysis parser_run scenario_page))
              (js "orchestrator") = Some completed) as Hend by (by vm_compute).
    split; [by vm_compute|]. split; [by vm_compute|]. split; [by vm_compute|].
    split; [by vm_compute|]. split; [by vm_compute|].
    assert (js "orchestrator" ∈ [js "orchestrator"; js "builder"; js "verifier"])
      as Hin by (apply elem_of_cons; by left).
    unfold parser_scenario_as_specified.
    split; intros (_ & _ & _ & H); specialize (H _ Hin);
      rewrite Hend in H; vm_compute in H; discriminate.
Qed.

  (** The scenario theorem applies to the page as loaded, with the stream
      cut in the middle of the first frame. *)
Lemma parser_scenario_statuses_witness :
    statuses (stream_done
                (feed_chunks [take 20 (parser_stream true); drop 20 (parser_stream true)]
                   new_reader (stream_opened (startAnalysis_reset scenario_page))).2) =
      [Some completed; Some completed; Some completed; Some waiting; Some waiting].
Proof.
    refine (proj2 (proj2 (proj2 (proj2 (proj2 (proj2
              (parser_scenario_statuses scenario_page
                 [take 20 (parser_stream true); drop 20 (parser_stream true)] true
                 _ _ _ _))))))).
    - eexists. vm_compute. reflexivity.
    - eexists. vm_compute. reflexivity.
    - eexists. vm_compute. reflexivity.
    - vm_compute. reflexivity.
Defined.

End ParserScenarioOnThePage.

(** ** Witnesses for the successor and the malformed line *)

Section MoreWitnesses.
Local Existing Instance reference_platform.

  (** On the page as loaded, the parser's finish event starts the modeler. *)
Lemma completion_promotes_successor_witness :
    status_of (final (processStreamEvent parser_stop_event scenario_page))
      (js "modeler") =
    if not_started scenario_page (js "modeler") then Some active
    else status_of scenario_page (js "modeler").
Proof.
    apply (completion_promotes_successor_iff_not_started parser_stop_event
             (VString (js "architecture_parser_agent")) (VString (js "STOP"))
             (js "parser") (js "modeler") scenario_page).
    - vm_compute. reflexivity.
    - vm_compute. reflexivity.
    - vm_compute. reflexivity.
    - eexists. vm_compute. reflexivity.
    - vm_compute. reflexivity.
    - vm_compute. reflexivity.
    - vm_compute. reflexivity.
Defined.

  (** A frame cut short, between the two parser frames. *)
Definition broken_frame : jsstring := js "data: {" ++ quoted "author" ++ js ":".

Lemma malformed_line_is_skipped_witness :
    process_line (Str.trim broken_frame) scenario_page = (scenario_page, None) ∧
    drain_lines ((parser_frame ++ [10]) ++ broken_frame ++ [10] ++ [])
      [] scenario_page =
    drain_lines ((parser_frame ++ [10]) ++ []) [] scenario_page.
Proof.
    refine (let H := malformed_line_is_skipped (parser_frame ++ [10]) broken_frame
                       parser_stop_frame [] parser_stop_event [] scenario_page
                       _ _ _ _ _ _ _ _ in
            conj (proj1 H) (proj1 (proj2 H))).
    - vm_compute. reflexivity.
    - vm_compute. reflexivity.
    - vm_compute. reflexivity.
    - right. eexists. reflexivity.
    - vm_compute. reflexivity.
    - vm_compute. reflexivity.
    - vm_compute. discriminate.
    - vm_compute. reflexivity.
Defined.

End MoreWitnesses.

(** ** A completion event on an agent that has not started *)

(** A status change of one step along not started, active, completed. *)
Definition one_step (before after : option status) : Prop :=
  after = before ∨
  (before ≠ Some active ∧ before ≠ Some completed ∧ after = Some active) ∨
  (before = Some active ∧ after = Some completed).

Definition modeler_stop_event : value :=
  VObject [(js "author", VString (js "threat_modeler_agent"));
           (js "finishReason", VString (js "STOP"))].

Section SkippedStep.
Local Existing Instance reference_platform.

  (** C6 fails as stated: right after the start of a run, a finish event
      of the modeler takes the modeler from waiting to completed. *)
Lemma completion_event_skips_active :
    let s0 := stream_opened (startAnalysis_reset scenario_page) in
    let s1 := final (processStreamEvent modeler_stop_event s0) in
    status_of s0 (js "modeler") = Some waiting ∧
    status_of s1 (js "modeler") = Some completed ∧
    ¬ one_step (status_of s0 (js "modeler")) (status_of s1 (js "modeler")).
Proof.
    cbv zeta.
    assert (status_of (stream_opened (startAnalysis_reset scenario_page))
              (js "modeler") = Some waiting) as H0 by (by vm_compute).
    assert (status_of (final (processStreamEvent modeler_stop_event
                                (stream_opened (startAnalysis_reset scenario_page))))
              (js "modeler") = Some completed) as H1 by (by vm_compute).
    split; [done|]. split; [done|].
    rewrite H0, H1. intros [H|[(_ & _ & H)|[H _]]]; discriminate.
Qed.

End SkippedStep.

(** ** What the two resets clear *)

Lemma aborted_setAgentStatus k st s : aborted (setAgentStatus k st s) = aborted s.
Proof. unfold setAgentStatus. by destruct (cards s !! card_id k). Qed.

Lemma aborted_resetAllAgents s : aborted (resetAllAgents s) = aborted s.
Proof.
  unfold resetAllAgents. generalize STAGES. intros l; revert s.
  induction l as [|a l IH]; intros s; simpl; [done|].
  rewrite IH. simpl. apply aborted_setAgentStatus.
Qed.

Section Resets.
Context `{!Platform}.

  (** The start of a run empties the report buffer and leaves the PDF
      path as it finds it: [startAnalysis] has no assignment to
      [pdfFilePath]. *)
Lemma startAnalysis_reset_buffers s :
    fullReport (startAnalysis_reset s) = [] ∧
    pdfFilePath (startAnalysis_reset s) = pdfFilePath s ∧
    reportContent (startAnalysis_reset s) = PlaceholderStarting.
Proof.
    unfold startAnalysis_reset. cbv zeta.
    pose proof (fullReport_resetAllAgents
                  (with_reportContent PlaceholderStarting (with_fullReport [] s))) as Hf.
    pose proof (pdfFilePath_resetAllAgents
                  (with_reportContent PlaceholderStarting (with_fullReport [] s))) as Hp.
    pose proof (reportContent_resetAllAgents
                  (with_reportContent PlaceholderStarting (with_fullReport [] s))) as Hr.
    revert Hf Hp Hr.
    generalize (resetAllAgents (with_reportContent PlaceholderStarting
                                  (with_fullReport [] s))).
    intros x Hf Hp Hr. split; [exact Hf|]. split; [exact Hp|exact Hr].
Qed.

  (** What [resetAnalysis] puts before [resetAllAgents] and the button
      states. *)
Definition reset_variables (s : state) : state :=
    let ab := match abortController s with
              | Some c => {[ c ]} ∪ aborted s
              | None => aborted s
              end in
    let s := with_controllers (abortController s) (controllers s) ab s in
    let s := with_currentSessionId VNull s in
    let s := with_fullReport [] s in
    let s := with_pdfFilePath VNull s in
    let s := with_agentStatuses ∅ s in
    let s := with_inputs None [] (js "none") [] s in
    let s := match balloons s with
             | Some _ => with_balloons (Some O) s
             | None => s
             end in
    with_reportContent PlaceholderInitial s.

Lemma resetAnalysis_eq s :
    resetAnalysis s = with_buttons false true true (resetAllAgents (reset_variables s)).
Proof. reflexivity. Qed.

Lemma reset_variables_fields s :
    fullReport (reset_variables s) = [] ∧
    pdfFilePath (reset_variables s) = VNull ∧
    reportContent (reset_variables s) = PlaceholderInitial ∧
    currentSessionId (reset_variables s) = VNull ∧
    agentStatuses (reset_variables s) = ∅ ∧
    (∀ c, abortController s = Some c → c ∈ aborted (reset_variables s)).
Proof.
    destruct s as [sid ctl fr pdf st up made ab inp cds rc b1 b2 b3 du fp bl al].
    unfold reset_variables. simpl. destruct bl; simpl; repeat split; try done.
    all: intros c ->; set_solver.
Qed.

  (** [resetAnalysis] clears the report buffer, the PDF path, the session
      and the display, and aborts the current controller. *)
Lemma resetAnalysis_buffers s :
    fullReport (resetAnalysis s) = [] ∧
    pdfFilePath (resetAnalysis s) = VNull ∧
    reportContent (resetAnalysis s) = PlaceholderInitial ∧
    (∀ c, abortController s = Some c → c ∈ aborted (resetAnalysis s)).
Proof.
    rewrite resetAnalysis_eq.
    destruct (reset_variables_fields s) as (Hf & Hp & Hr & _ & _ & Ha).
    pose proof (fullReport_resetAllAgents (reset_variables s)) as Hf'.
    pose proof (pdfFilePath_resetAllAgents (reset_variables s)) as Hp'.
    pose proof (reportContent_resetAllAgents (reset_variables s)) as Hr'.
    pose proof (aborted_resetAllAgents (reset_variables s)) as Ha'.
    rewrite Hf in Hf'. rewrite Hp in Hp'. rewrite Hr in Hr'.
    rewrite <- Ha' in Ha. revert Hf' Hp' Hr' Ha.
    generalize (resetAllAgents (reset_variables s)).
    intros x Hf' Hp' Hr' Ha. split; [exact Hf'|]. split; [exact Hp'|].
    split; [exact Hr'|exact Ha].
Qed.

End Resets.

(** The function is waiting for the next read, with no event decoded. *)
Definition waiting_for_first_event `{!Platform} (o : outcome) : bool :=
  match o with
  | Pending r _ => bool_decide (length (decoded r) = O)
  | _ => false
  end.

Section SecondRun.
Local Existing Instance reference_platform.

Definition report_frame : jsstring :=
    js "data: {" ++ quoted "content" ++ js ":" ++ quoted "Report" ++ js "}".

Definition artifact_frame : jsstring :=
    js "data: {" ++ quoted "actions" ++ js ":{" ++ quoted "artifactDelta" ++ js ":{"
    ++ quoted "report.pdf" ++ js ":{" ++ quoted "filePath" ++ js ":"
    ++ quoted "/tmp/report.pdf" ++ js "}}}}".

  (** A first run that reports some text and a PDF, and ends. *)
Definition first_run : environment :=
    {| session_fetch := inr (session_response (js "session-1"));
       file_read := None;
       query_fetch := inr streaming_response;
       reads := [ReadChunk (utf8_bytes (report_frame ++ [10] ++ artifact_frame ++ [10]));
                 ReadDone] |}.

  (** A second run whose stream has opened and delivered nothing yet. *)
Definition second_run : environment :=
    {| session_fetch := inr (session_response (js "session-2"));
       file_read := None;
       query_fetch := inr streaming_response;
       reads := [] |}.

  (** C7 at its failing input.  After a run that set [pdfFilePath], a
      click on Analyze starts a second run: before its first event the
      report buffer is empty, and [pdfFilePath] still holds the path of
      the first run.  [resetAnalysis] on the same page clears it. *)
Theorem second_run_starts_with_stale_pdfFilePath :
    let after_first := outcome_state (startAnalysis first_run scenario_page) in
    let second := startAnalysis second_run after_first in
    is_returned (startAnalysis first_run scenario_page) = true ∧
    fullReport after_first = js "Report" ∧
    pdfFilePath after_first = VString (js "/tmp/report.pdf") ∧
    waiting_for_first_event second = true ∧
    fullReport (outcome_state second) = [] ∧
    pdfFilePath (outcome_state second) = VString (js "/tmp/report.pdf") ∧
    pdfFilePath (resetAnalysis after_first) = VNull.
Proof. cbv zeta. repeat split; by vm_compute. Qed.

End SecondRun.

(** ** Cancelling a run *)

Lemma read_loop_reject_abort `{!Platform} e reads r s :
  is_abort e = true → read_loop (ReadReject e :: reads) r s = Returned s.
Proof. intros He. simpl. by rewrite He. Qed.

Lemma startAnalysis_catch_returned `{!Platform} s :
  startAnalysis_catch (Returned s) = Returned s.
Proof. reflexivity. Qed.

Lemma reportContent_stream_opened `{!Platform} s :
  reportContent (stream_opened s) = PlaceholderProcessing.
Proof.
  rewrite stream_opened_eq.
  generalize (store_status (js "orchestrator") active
                (setAgentStatus (js "orchestrator") active s)).
  intros x. by destruct x.
Qed.

Section Cancel.
Context `{!Platform}.

  (** The display is the same after the events as before. *)
Definition same_display (s s' : state) : Prop := reportContent s' = reportContent s.

#[local] Instance same_display_refl : Reflexive same_display.
Proof. by intros s. Qed.

#[local] Instance same_display_trans : Transitive same_display.
Proof. unfold same_display. intros s1 s2 s3 H12 H23. by rewrite H23. Qed.

Lemma same_display_event data s : same_display s (final (processStreamEvent data s)).
Proof. apply reportContent_effects, processStreamEvent_effects. Qed.

Lemma same_display_feed_chunks chunks r s :
    same_display s (feed_chunks chunks r s).2.
Proof.
    unfold feed_chunks. revert r s.
    induction chunks as [|c chunks IH]; intros r s; simpl; [done|].
    etrans; [apply (feed_chunk_preserves same_display same_display_event c r s)|].
    destruct (feed_chunk c r s) as [r' s']. apply IH.
Qed.

  (** A run cancelled in mid-stream, at either of the two places that
      abort the controller of a run.  Whatever chunks the run has read by
      then, the display holds the processing placeholder.  [resetAnalysis]
      puts the initial placeholder there, empties the report buffer and
      clears the PDF path; the start of another run puts the starting
      placeholder there and empties the report buffer, and leaves the PDF
      path as the cancelled run has set it.  In both cases the pending
      read then rejects with an [AbortError], which both [catch] blocks
      swallow: the cancelled run returns with the page exactly as the
      canceller left it, without an error box. *)
Lemma cancelled_run_pages
      (chunks : list (list byte)) (s0 : state) (message : jsstring) :
    let mid := feed_chunks chunks new_reader (stream_opened s0) in
    let abort := {| exn_name := js "AbortError"; exn_message := message |} in
    read_loop (ReadChunk <$> chunks) new_reader (stream_opened s0) =
      Pending mid.1 mid.2 ∧
    reportContent mid.2 = PlaceholderProcessing ∧
    (let s' := resetAnalysis mid.2 in
     (∀ c, abortController mid.2 = Some c → c ∈ aborted s') ∧
     startAnalysis_catch (read_loop [ReadReject abort] mid.1 s') = Returned s' ∧
     reportContent s' = PlaceholderInitial ∧
     fullReport s' = [] ∧
     pdfFilePath s' = VNull) ∧
    (let s' := startAnalysis_reset mid.2 in
     startAnalysis_catch (read_loop [ReadReject abort] mid.1 s') = Returned s' ∧
     reportContent s' = PlaceholderStarting ∧
     fullReport s' = [] ∧
     pdfFilePath s' = pdfFilePath mid.2).
Proof.
    cbv zeta.
    destruct (resetAnalysis_buffers
                (feed_chunks chunks new_reader (stream_opened s0)).2)
      as (Hf & Hp & Hr & Ha).
    destruct (startAnalysis_reset_buffers
                (feed_chunks chunks new_reader (stream_opened s0)).2)
      as (Hf' & Hp' & Hr').
    split; [|split; [|split]].
    - rewrite <- (app_nil_r (ReadChunk <$> chunks)). by rewrite read_loop_chunks.
    - rewrite (same_display_feed_chunks chunks new_reader (stream_opened s0)).
      apply reportContent_stream_opened.
    - split; [exact Ha|]. split; [|split; [exact Hr|split; [exact Hf|exact Hp]]].
      rewrite read_loop_reject_abort by reflexivity.
      apply startAnalysis_catch_returned.
    - split; [|split; [exact Hr'|split; [exact Hf'|exact Hp']]].
      rewrite read_loop_reject_abort by reflexivity.
      apply startAnalysis_catch_returned.
Qed.

End Cancel.


Section CancelledByRestart.
Local Existing Instance reference_platform.



End CancelledByRestart.

(** ** The rendered report *)

(** What the page shows for markup assigned to [innerHTML]: the nodes
    the HTML parser makes of it. *)
Inductive node : Type :=
| Text (t : jsstring)
| Element (tag : jsstring) (children : list node).

(** The HTML parser on the markup [updateReportDisplay] writes, after the
    tokenizer and the rules for the insertion mode "in body" of the HTML
    standard, which is the mode for a fragment set on a flow container
    such as a [div] (the page itself is not part of the sources; the
    elements of the report area in the placeholders are [div]s).  Covered
    are the tags the function emits,
    [p], [h1] to [h3], [strong], [em] and [code], written in lower case
    without attributes, and text free of [&], NUL and carriage return.  A
    formatting element must be closed by its own end tag while it is the
    current node, or be open at the end; markup that needs the list of
    active formatting elements rebuilt, or the adoption agency algorithm
    with a block inside, is outside and gives [None], as every other input
    not covered. *)
Module Html.

Inductive token : Type :=
| StartTag (name : jsstring)
| EndTag (name : jsstring)
| Character (c : N).

Inductive tokenizer_state : Type :=
| Data
| TagOpen
| EndTagOpen
| TagName (closing : bool) (reversed_name : jsstring).

Definition is_lower_alpha (c : N) : bool := N.leb 97 c && N.leb c 122.
Definition is_digit (c : N) : bool := N.leb 48 c && N.leb c 57.

Fixpoint tokenize (st : tokenizer_state) (s : jsstring) : option (list token) :=
    match s with
    | [] => match st with Data => Some [] | _ => None end
    | c :: s' =>
        match st with
        | Data =>
            if N.eqb c 60 then tokenize TagOpen s'
            else if N.eqb c 38 || N.eqb c 0 || N.eqb c 13 then None
            else cons (Character c) <$> tokenize Data s'
        | TagOpen =>
            if N.eqb c 47 then tokenize EndTagOpen s'
            else if is_lower_alpha c then tokenize (TagName false [c]) s'
            else None
        | EndTagOpen =>
            if is_lower_alpha c then tokenize (TagName true [c]) s' else None
        | TagName closing name =>
            if N.eqb c 62 then
              cons (if closing then EndTag (reverse name) else StartTag (reverse name))
                <$> tokenize Data s'
            else if is_lower_alpha c || is_digit c
              then tokenize (TagName closing (c :: name)) s'
            else None
        end
    end.

  (** The stack of open elements, the current node first, each element
      with its children so far, the last one first; and the children of
      the container. *)
Record builder : Type := {
    open : list (jsstring * list node);
    container : list node;
  }.

Definition is_heading (tag : jsstring) : bool :=
    bool_decide (tag ∈ [js "h1"; js "h2"; js "h3"]).

Definition is_formatting (tag : jsstring) : bool :=
    bool_decide (tag ∈ [js "strong"; js "em"; js "code"]).

Definition is_paragraph (tag : jsstring) : bool := bool_decide (tag = js "p").

  (** The stack has an element with such a tag; none of the covered
      elements ends a scope. *)
Definition has_open (which : jsstring → bool) (b : builder) : bool :=
    existsb (λ frame, which frame.1) (open b).

Definition current_is (which : jsstring → bool) (b : builder) : bool :=
    match open b with
    | (tag, _) :: _ => which tag
    | [] => false
    end.

  (** Insert a node at the current node. *)
Definition append (n : node) (b : builder) : builder :=
    match open b with
    | (tag, children) :: rest =>
        {| open := (tag, n :: children) :: rest; container := container b |}
    | [] => {| open := []; container := n :: container b |}
    end.

  (** Insert an element for a start tag and make it the current node. *)
Definition push (tag : jsstring) (b : builder) : builder :=
    {| open := (tag, []) :: open b; container := container b |}.

  (** Pop the current node off the stack. *)
Definition pop (b : builder) : builder :=
    match open b with
    | (tag, children) :: rest =>
        append (Element tag (reverse children))
          {| open := rest; container := container b |}
    | [] => b
    end.

  (** Insert a character: into the text node that ends the current node,
      if it ends with one. *)
Definition insert_character (c : N) (b : builder) : builder :=
    let extend (children : list node) :=
      match children with
      | Text t :: before => Text (t ++ [c]) :: before
      | _ => Text [c] :: children
      end in
    match open b with
    | (tag, children) :: rest =>
        {| open := (tag, extend children) :: rest; container := container b |}
    | [] => {| open := []; container := extend (container b) |}
    end.

  (** "Close a p element", with a [p] on the stack: between it and the
      current node there can be formatting elements only, and popping those
      is not covered. *)
Definition close_p (b : builder) : option builder :=
    if current_is is_paragraph b then Some (pop b) else None.

  (** "Generate implied end tags": of the covered elements, [p]. *)
Fixpoint implied_end_tags (frames : list (jsstring * list node)) (b : builder) : builder :=
    match frames with
    | (tag, _) :: rest => if is_paragraph tag then implied_end_tags rest (pop b) else b
    | [] => b
    end.

  (** One token in the insertion mode "in body". *)
Definition insert (tok : token) (b : builder) : option builder :=
    match tok with
    | Character c => Some (insert_character c b)
    | StartTag name =>
        if is_paragraph name then
          b1 ← (if has_open is_paragraph b then close_p b else Some b);
          Some (push name b1)
        else if is_heading name then
          b1 ← (if has_open is_paragraph b then close_p b else Some b);
          Some (push name (if current_is is_heading b1 then pop b1 else b1))
        else if is_formatting name then Some (push name b)
        else None
    | EndTag name =>
        if is_paragraph name then
          if has_open is_paragraph b then close_p b
          else Some (append (Element name []) b)
        else if is_heading name then
          if has_open is_heading b then
            let b1 := implied_end_tags (open b) b in
            if current_is is_heading b1 then Some (pop b1) else None
          else Some b
        else if is_formatting name then
          if current_is (λ tag, bool_decide (tag = name)) b then Some (pop b)
          else if has_open (λ tag, bool_decide (tag = name)) b then None
          else Some b
        else None
    end.

Fixpoint build (toks : list token) (b : builder) : option builder :=
    match toks with
    | [] => Some b
    | tok :: toks' => b1 ← insert tok b; build toks' b1
    end.

  (** The end of the input: every open element is closed. *)
Fixpoint close_all (frames : list (jsstring * list node)) (b : builder) : builder :=
    match frames with
    | _ :: rest => close_all rest (pop b)
    | [] => b
    end.

  (** The children the container has after [container.innerHTML = s]. *)
Definition parse (s : jsstring) : option (list node) :=
    toks ← tokenize Data s;
    b ← build toks {| open := []; container := [] |};
    Some (reverse (container (close_all (open b) b))).

  (** Two pieces of markup that give the same nodes. *)
Definition equivalent (a b : jsstring) : Prop :=
    ∃ tree, parse a = Some tree ∧ parse b = Some tree.

Definition is_empty_paragraph (n : node) : bool :=
    match n with
    | Element tag [] => is_paragraph tag
    | _ => false
    end.

  (** The nodes without the paragraphs that have no content. *)
Definition without_empty_paragraphs (nodes : list node) : list node :=
    filter (λ n, is_empty_paragraph n = false) nodes.

End Html.

Definition title_event : value :=
  VObject [(js "content", VString (js "# Title" ++ [10; 10]))].

Definition bold_event : value :=
  VObject [(js "content", VString (js "**bold**"))].

Lemma fullReport_stream_done_agents s l :
  fullReport
    (foldl (λ s agentId,
              match status_of s agentId with
              | Some active | Some completed => setAgentStatus agentId completed s
              | _ => s
              end) s l) = fullReport s.
Proof.
  revert s; induction l as [|a l IH]; intros s; simpl; [done|].
  rewrite IH. destruct (status_of s a) as [[]|]; try done;
    apply fullReport_setAgentStatus.
Qed.

Section Rendering.
Context `{!Platform}.

  (** What the end of the stream shows: the processing placeholder when
      the report is blank, else the rendered report. *)
Lemma reportContent_stream_done s :
    reportContent (stream_done s) =
    if bool_decide (Str.trim (fullReport s) = []) then PlaceholderProcessing
    else Rendered (Markdown.render (fullReport s)).
Proof.
    unfold stream_done. cbv zeta.
    pose proof (fullReport_stream_done_agents s STAGES) as Hf. revert Hf.
    generalize (foldl (λ s agentId,
                         match status_of s agentId with
                         | Some active | Some completed =>
                             setAgentStatus agentId completed s
                         | _ => s
                         end) s STAGES).
    intros x <-. unfold triggerCelebration, updateReportDisplay.
    by repeat case_match.
Qed.

Lemma processStreamEvent_title_event s :
    processStreamEvent title_event s =
    Normal (with_fullReport (fullReport s ++ js "# Title" ++ [10; 10]) s).
Proof. by vm_compute. Qed.

Lemma processStreamEvent_bold_event s :
    processStreamEvent bold_event s =
    Normal (with_fullReport (fullReport s ++ js "**bold**") s).
Proof. by vm_compute. Qed.

  (** C9, as the code has it.  With an empty report buffer, the fragments
      ["# Title\n\n"] and ["**bold**"] accumulate and, at the end of the
      stream, the markup
      [<p><h1>Title</h1></p><p><strong>bold</strong></p>] is assigned to the
      report.  The page shows it as four nodes: an empty paragraph, the
      heading, another empty paragraph, and the paragraph with the bold
      text.  Without the two empty paragraphs these are the nodes of the
      markup [<h1>Title</h1><p><strong>bold</strong></p>]. *)
Theorem title_and_bold_rendering (s : state) :
    fullReport s = [] →
    let s' := process_events [title_event; bold_event] s in
    fullReport s' = js "# Title" ++ [10; 10] ++ js "**bold**" ∧
    reportContent (stream_done s') =
      Rendered (js "<p><h1>Title</h1></p><p><strong>bold</strong></p>") ∧
    Html.parse (js "<p><h1>Title</h1></p><p><strong>bold</strong></p>") =
      Some [Element (js "p") [];
            Element (js "h1") [Text (js "Title")];
            Element (js "p") [];
            Element (js "p") [Element (js "strong") [Text (js "bold")]]] ∧
    Html.without_empty_paragraphs <$>
      Html.parse (js "<p><h1>Title</h1></p><p><strong>bold</strong></p>") =
    Html.parse (js "<h1>Title</h1><p><strong>bold</strong></p>") ∧
    Html.parse (js "<h1>Title</h1><p><strong>bold</strong></p>") =
      Some [Element (js "h1") [Text (js "Title")];
            Element (js "p") [Element (js "strong") [Text (js "bold")]]].
Proof.
    intros Hempty. cbv zeta.
    assert (fullReport (process_events [title_event; bold_event] s) =
            js "# Title" ++ [10; 10] ++ js "**bold**") as Hf.
    { unfold process_events. cbn [foldl].
      rewrite processStreamEvent_title_event. cbn [final].
      rewrite processStreamEvent_bold_event. cbn [final fullReport with_fullReport].
      rewrite Hempty. reflexivity. }
    split; [exact Hf|]. split; [|repeat split; by vm_compute].
    rewrite reportContent_stream_done, Hf. by vm_compute.
Qed.

End Rendering.

Section RenderingOnThePage.
Local Existing Instance reference_platform.

Lemma title_and_bold_rendering_witness :
    reportContent
      (stream_done (process_events [title_event; bold_event] scenario_page)) =
    Rendered (js "<p><h1>Title</h1></p><p><strong>bold</strong></p>").
Proof.
    refine (proj1 (proj2 (title_and_bold_rendering scenario_page _))).
    vm_compute. reflexivity.
Defined.

  (** C9 fails as stated: what is displayed is not what the markup
      [<h1>Title</h1><p><strong>bold</strong></p>] would display.  The
      markup differs, and so do the nodes the page makes of it: four, with
      an empty paragraph before and after the heading, against two. *)
Lemma rendering_adds_empty_paragraphs :
    let shown := js "<p><h1>Title</h1></p><p><strong>bold</strong></p>" in
    let claimed := js "<h1>Title</h1><p><strong>bold</strong></p>" in
    reportContent
      (stream_done (process_events [title_event; bold_event] scenario_page)) =
      Rendered shown ∧
    Html.parse shown =
      Some [Element (js "p") [];
            Element (js "h1") [Text (js "Title")];
            Element (js "p") [];
            Element (js "p") [Element (js "strong") [Text (js "bold")]]] ∧
    Html.parse claimed =
      Some [Element (js "h1") [Text (js "Title")];
            Element (js "p") [Element (js "strong") [Text (js "bold")]]] ∧
    shown ≠ claimed ∧
    ¬ Html.equivalent shown claimed.
Proof.
    cbv zeta. split; [by vm_compute|]. split; [by vm_compute|].
    split; [by vm_compute|]. split; [by vm_compute|].
    intros (tree & Hshown & Hclaimed).
    vm_compute in Hshown. vm_compute in Hclaimed. congruence.
Qed.

End RenderingOnThePage.

(** ** A tool response that does not parse *)

(** The event has, among its [actions.toolCalls], a call named
    [convert_markdown_to_pdf] whose [response] is a non-empty string that
    [JSON.parse] rejects. *)
Definition unparsable_tool_response `{!Platform} (event : value) : Prop :=
  ∃ actions calls call text,
    get event (js "actions") = Some actions ∧ truthy actions = true ∧
    get actions (js "toolCalls") = Some (VArray calls) ∧ call ∈ calls ∧
    get call (js "name") = Some (VString (js "convert_markdown_to_pdf")) ∧
    get call (js "response") = Some (VString text) ∧ text ≠ [] ∧
    JSON_parse text = None.

Definition throws (c : completion) : Prop := ∃ s, c = Throw s.

Lemma and_then_throws c k : (∀ s, throws (k s)) → throws (c >>> k).
Proof. intros Hk. destruct c as [s|s]; simpl; [apply Hk|by exists s]. Qed.

Lemma for_each_throws {A} (body : A → state → completion) l x :
  x ∈ l → (∀ s, throws (body x s)) → ∀ s, throws (for_each body l s).
Proof.
  intros Hx Hbody. induction l as [|y l IH]; intros s; [by apply elem_of_nil in Hx|].
  simpl. apply elem_of_cons in Hx as [<-|Hx].
  - destruct (Hbody s) as [s' ->]. by exists s'.
  - destruct (body y s) as [s1|s1]; simpl; [by apply IH|by exists s1].
Qed.

Section ToolResponse.
Context `{!Platform}.

Lemma update_pdf_path_throws event s :
    unparsable_tool_response event → throws (update_pdf_path event s).
Proof.
    intros (actions & calls & call & text & Ha & Hta & Hc & Hin & Hn & Hr & Hne & Hp).
    unfold update_pdf_path, toolCalls_of. rewrite Ha. cbn [attempt].
    rewrite Hta, Hc. cbn [attempt truthy iterate].
    apply (for_each_throws _ calls call Hin). intros s'.
    rewrite Hn. cbn [attempt is_string].
    rewrite bool_decide_eq_true_2 by done. rewrite Hr. cbn [attempt truthy].
    rewrite (bool_decide_eq_false_2 _ Hne). cbn [negb]. rewrite Hp.
    by exists s'.
Qed.

Lemma processStreamEvent_throws event s :
    unparsable_tool_response event → throws (processStreamEvent event s).
Proof.
    intros Hbad. unfold processStreamEvent.
    apply and_then_throws. intros s'. by apply update_pdf_path_throws.
Qed.

Lemma read_loop_chunks_pending chunks r s :
    read_loop (ReadChunk <$> chunks) r s =
    Pending (feed_chunks chunks r s).1 (feed_chunks chunks r s).2.
Proof.
    rewrite <- (app_nil_r (ReadChunk <$> chunks)). by rewrite read_loop_chunks.
Qed.

  (** The body of the loop of lines 481-491: one tool call. *)
Definition read_tool_response (toolCall : value) (s : state) : completion :=
    attempt (get toolCall (js "name")) s (λ name,
      if is_string (js "convert_markdown_to_pdf") name then
        attempt (get toolCall (js "response")) s (λ resp,
          if truthy resp then
            attempt (match resp with
                     | VString text => JSON_parse text
                     | _ => Some resp
                     end) s (λ response,
              attempt (get response (js "file_path")) s (λ file_path,
                if truthy file_path then
                  match file_path with
                  | VString p =>
                      if Str.endsWith (js ".pdf") p
                      then Normal (with_pdfFilePath file_path s)
                      else Normal s
                  | _ => Throw s
                  end
                else Normal s))
          else Normal s)
      else Normal s).

Lemma update_pdf_path_eq event s :
    update_pdf_path event s =
    toolCalls_of event s (λ calls,
      match calls with
      | None => Normal s
      | Some l => for_each read_tool_response l s
      end).
Proof. reflexivity. Qed.

  (** The five blocks before the tool responses: lines 372-477. *)
Definition before_tool_responses (event : value) (s : state) : completion :=
    update_author_status event s
    >>> update_verification_loop event
    >>> update_builder_tools event
    >>> update_artifacts event
    >>> update_report event.

Lemma processStreamEvent_tool_responses event s :
    processStreamEvent event s = before_tool_responses event s >>> update_pdf_path event.
Proof. reflexivity. Qed.

Lemma for_each_app {A} (body : A → state → completion) l1 l2 s :
    for_each body (l1 ++ l2) s = for_each body l1 s >>> for_each body l2.
Proof.
    revert s; induction l1 as [|x l1 IH]; intros s; simpl; [done|].
    destruct (body x s) as [s1|s1]; simpl; [apply IH|done].
Qed.

  (** A loop that reaches a throwing element ends in a throw, with the
      state the elements before it have made. *)
Lemma for_each_throws_at {A} (body : A → state → completion) pre x post s :
    (∀ s', body x s' = Throw s') →
    ∃ s', for_each body (pre ++ x :: post) s = Throw s' ∧
          s' = final (for_each body pre s).
Proof.
    intros Hx. rewrite for_each_app.
    destruct (for_each body pre s) as [s1|s1]; simpl; [|by exists s1].
    rewrite Hx. simpl. by exists s1.
Qed.

  (** C10, as the code has it.  An event with a tool call named
      [convert_markdown_to_pdf] whose response is a non-empty string that
      [JSON.parse] rejects makes [processStreamEvent] throw.  The throw ends
      the processing of that event: the tool calls after the bad one are
      not looked at, whatever they are.  What was done before the throw is
      kept: the page is exactly the one the five blocks before the tool
      responses and the tool calls before the bad one have made, status
      changes and appended text included.  The throw goes no further:
      the [try] around the handling of the line catches it, the display is
      untouched, the loop over the lines goes on with the text after the
      line on that page, and no sequence of chunks makes the read loop
      throw. *)
Theorem tool_response_error_is_swallowed
      (event actions call : value) (pre post : list value) (text : jsstring)
      (line rest : jsstring) (events : list value) (s : state) :
    get event (js "actions") = Some actions →
    truthy actions = true →
    get actions (js "toolCalls") = Some (VArray (pre ++ call :: post)) →
    get call (js "name") = Some (VString (js "convert_markdown_to_pdf")) →
    get call (js "response") = Some (VString text) →
    text ≠ [] →
    JSON_parse text = None →
    Str.indexOf_newline line = None →
    Str.startsWith (js "data: ") (Str.trim line) = true →
    Str.substring_from 6 (Str.trim line) ≠ [] →
    JSON_parse (Str.substring_from 6 (Str.trim line)) = Some event →
    ∃ s',
      processStreamEvent event s = Throw s' ∧
      s' = final (before_tool_responses event s >>> for_each read_tool_response pre) ∧
      (∀ s5, before_tool_responses event s = Normal s5 →
             update_pdf_path event s5 = Throw s' ∧
             s' = final (for_each read_tool_response pre s5) ∧
             agentStatuses s' = agentStatuses s5 ∧ cards s' = cards s5 ∧
             fullReport s' = fullReport s5) ∧
      reportContent s' = reportContent s ∧
      process_line (Str.trim line) s = (s', Some event) ∧
      drain_lines (line ++ [10] ++ rest) events s =
        drain_lines rest (events ++ [event]) s' ∧
      ∀ chunks r,
        read_loop (ReadChunk <$> chunks) r s =
        Pending (feed_chunks chunks r s).1 (feed_chunks chunks r s).2.
Proof.
    intros Ha Hta Hc Hn Hr Hne Hp Hline Hprefix Hpayload Hparse.
    assert (∀ s0, read_tool_response call s0 = Throw s0) as Hcall.
    { intros s0. unfold read_tool_response. rewrite Hn. cbn [attempt is_string].
      rewrite bool_decide_eq_true_2 by done. rewrite Hr. cbn [attempt truthy].
      rewrite (bool_decide_eq_false_2 _ Hne). cbn [negb]. by rewrite Hp. }
    assert (∀ s5, ∃ s', update_pdf_path event s5 = Throw s' ∧
                        s' = final (for_each read_tool_response pre s5)) as Hpdf.
    { intros s5. rewrite update_pdf_path_eq. unfold toolCalls_of.
      rewrite Ha. cbn [attempt]. rewrite Hta, Hc. cbn [attempt truthy iterate].
      by apply for_each_throws_at. }
    assert (∀ l s5, agentStatuses (final (for_each read_tool_response l s5))
                    = agentStatuses s5 ∧
                    cards (final (for_each read_tool_response l s5)) = cards s5 ∧
                    fullReport (final (for_each read_tool_response l s5))
                    = fullReport s5) as Hkeep.
    { clear. intros l. induction l as [|x l IH]; intros s5; [done|].
      cbn [for_each].
      assert (agentStatuses (final (read_tool_response x s5)) = agentStatuses s5 ∧
              cards (final (read_tool_response x s5)) = cards s5 ∧
              fullReport (final (read_tool_response x s5)) = fullReport s5 ∧
              (∀ s6, read_tool_response x s5 = Normal s6 →
                     final (read_tool_response x s5) = s6)) as (E1 & E2 & E3 & E4).
      { unfold read_tool_response.
        destruct (get x (js "name")) as [name|]; [|done]. cbn [attempt].
        destruct (is_string _ name); [|by repeat split; intros ? [= <-]].
        destruct (get x (js "response")) as [resp|]; [|done]. cbn [attempt].
        destruct (truthy resp); [|by repeat split; intros ? [= <-]].
        destruct (match resp with VString text => JSON_parse text | _ => Some resp end)
          as [response|]; [|done]. cbn [attempt].
        destruct (get response (js "file_path")) as [file_path|]; [|done].
        cbn [attempt].
        destruct (truthy file_path); [|by repeat split; intros ? [= <-]].
        destruct file_path; try done.
        destruct (Str.endsWith _ _); by repeat split; intros ? [= <-]. }
      destruct (read_tool_response x s5) as [s6|s6]; cbn [and_then final] in *;
        [|done].
      destruct (IH s6) as (I1 & I2 & I3). by rewrite I1, I2, I3. }
    assert (∃ s', processStreamEvent event s = Throw s' ∧
                  s' = final (before_tool_responses event s
                              >>> for_each read_tool_response pre)) as (s' & Hthrow & Hs').
    { rewrite processStreamEvent_tool_responses.
      destruct (before_tool_responses event s) as [s5|s5]; cbn [and_then];
        [apply Hpdf|by exists s5]. }
    exists s'. split; [exact Hthrow|]. split; [exact Hs'|].
    assert (final (processStreamEvent event s) = s') as Hfinal by (by rewrite Hthrow).
    assert (process_line (Str.trim line) s = (s', Some event)) as Hpl
      by (by rewrite (process_line_good _ event s Hprefix Hparse Hpayload), Hfinal).
    split; [|split; [|split; [done|split]]].
    - intros s5 H5. rewrite H5 in Hs'. cbn [and_then] in Hs'.
      destruct (Hpdf s5) as (s'' & Hthrow' & Hs''). rewrite <- Hs' in Hs''. subst s''.
      split; [exact Hthrow'|]. split; [exact Hs'|].
      rewrite Hs'. apply Hkeep.
    - rewrite <- Hfinal. apply reportContent_effects, processStreamEvent_effects.
    - by rewrite (drain_lines_line _ _ _ _ Hline), Hpl.
    - intros chunks r. apply read_loop_chunks_pending.
Qed.

End ToolResponse.

(** The function has thrown. *)
Definition is_thrown `{!Platform} (o : outcome) : bool :=
  match o with Thrown _ _ => true | _ => false end.

Section ToolResponseOnThePage.
Local Existing Instance reference_platform.

Definition bad_tool_event : value :=
    VObject [(js "actions",
              VObject [(js "toolCalls",
                        VArray [VObject [(js "name", VString (js "convert_markdown_to_pdf"));
                                         (js "response", VString (js "not json"))]])])].

Definition bad_tool_frame : jsstring :=
    js "data: {" ++ quoted "actions" ++ js ":{" ++ quoted "toolCalls" ++ js ":[{"
    ++ quoted "name" ++ js ":" ++ quoted "convert_markdown_to_pdf" ++ js ","
    ++ quoted "response" ++ js ":" ++ quoted "not json" ++ js "}]}}".

  (** The frame with the bad tool response, then a parser frame, then the
      end of the stream. *)
Definition bad_tool_run : environment :=
    {| session_fetch := inr (session_response (js "session-1"));
       file_read := None;
       query_fetch := inr streaming_response;
       reads := [ReadChunk (utf8_bytes (bad_tool_frame ++ [10] ++ parser_frame ++ [10]));
                 ReadDone] |}.

Lemma bad_tool_event_unparsable : unparsable_tool_response bad_tool_event.
Proof.
    eexists _, _, _, _. split; [vm_compute; reflexivity|].
    split; [reflexivity|]. split; [vm_compute; reflexivity|].
    split; [apply elem_of_cons; by left|]. split; [vm_compute; reflexivity|].
    split; [vm_compute; reflexivity|]. split; [vm_compute; discriminate|].
    vm_compute. reflexivity.
Qed.

  (** The event with the bad tool response, carrying an author and a text
      too. *)
Definition bad_tool_event_with_text : value :=
    VObject [(js "author", VString (js "report_builder_agent"));
             (js "content", VString (js "Report"));
             (js "actions",
              VObject [(js "toolCalls",
                        VArray [VObject [(js "name", VString (js "convert_markdown_to_pdf"));
                                         (js "response", VString (js "not json"))]])])].

Definition bad_tool_frame_with_text : jsstring :=
    js "data: {" ++ quoted "author" ++ js ":" ++ quoted "report_builder_agent" ++ js ","
    ++ quoted "content" ++ js ":" ++ quoted "Report" ++ js ","
    ++ quoted "actions" ++ js ":{" ++ quoted "toolCalls" ++ js ":[{"
    ++ quoted "name" ++ js ":" ++ quoted "convert_markdown_to_pdf" ++ js ","
    ++ quoted "response" ++ js ":" ++ quoted "not json" ++ js "}]}}".

  (** The status of the builder and the text of the event stay after the
      throw. *)
Lemma tool_response_error_is_swallowed_witness :
    ∃ s',
      processStreamEvent bad_tool_event_with_text scenario_page = Throw s' ∧
      status_of s' (js "builder") = Some active ∧
      fullReport s' = js "Report" ∧
      reportContent s' = reportContent scenario_page.
Proof.
    destruct (tool_response_error_is_swallowed bad_tool_event_with_text
                (VObject [(js "toolCalls",
                           VArray [VObject [(js "name",
                                             VString (js "convert_markdown_to_pdf"));
                                            (js "response", VString (js "not json"))]])])
                (VObject [(js "name", VString (js "convert_markdown_to_pdf"));
                          (js "response", VString (js "not json"))])
                [] [] (js "not json") bad_tool_frame_with_text [] [] scenario_page)
      as (s' & Hthrow & Hkept & _ & Hdisplay & _).
    - reflexivity.
    - reflexivity.
    - reflexivity.
    - reflexivity.
    - reflexivity.
    - vm_compute. discriminate.
    - vm_compute. reflexivity.
    - vm_compute. reflexivity.
    - vm_compute. reflexivity.
    - vm_compute. discriminate.
    - vm_compute. reflexivity.
    - exists s'. split; [exact Hthrow|]. rewrite Hkept.
      split; [vm_compute; reflexivity|]. split; [vm_compute; reflexivity|].
      rewrite <- Hkept. exact Hdisplay.
Defined.

  (** The claim in its own words, for an event and the run that reads it:
      processing the event throws, the exception ends the read loop, and
      an error is displayed. *)
Definition tool_error_as_specified (event : value) (s : state) (run : outcome) : Prop :=
    throws (processStreamEvent event s) ∧
    is_thrown run = true ∧
    is_error_box (reportContent (outcome_state run)) = true.

  (** C10 fails as stated: the event throws, after its tool name has
      started the builder, and yet the run reads on, decodes and processes
      the parser frame that follows, returns at the end of the stream and
      shows no error. *)
Lemma tool_response_error_does_not_end_the_run :
    let run := startAnalysis bad_tool_run scenario_page in
    throws (processStreamEvent bad_tool_event
              (stream_opened (startAnalysis_reset scenario_page))) ∧
    is_returned run = true ∧
    statuses (outcome_state run) =
      [Some completed; Some completed; Some waiting; Some completed; Some waiting] ∧
    reportContent (outcome_state run) = PlaceholderProcessing ∧
    ¬ tool_error_as_specified bad_tool_event
        (stream_opened (startAnalysis_reset scenario_page)) run ∧
    ¬ ∃ event s, unparsable_tool_response event ∧
                 ∃ chunks r, is_thrown (read_loop (ReadChunk <$> chunks) r s) = true.
Proof.
    cbv zeta.
    assert (is_returned (startAnalysis bad_tool_run scenario_page) = true) as Hret
      by (by vm_compute).
    split; [apply processStreamEvent_throws, bad_tool_event_unparsable|].
    split; [done|]. split; [vm_compute; reflexivity|].
    split; [vm_compute; reflexivity|]. split.
    - intros (_ & Hthrown & _).
      destruct (startAnalysis bad_tool_run scenario_page); discriminate.
    - intros (event & s & _ & chunks & r & Hthrown).
      by rewrite read_loop_chunks_pending in Hthrown.
Qed.

End ToolResponseOnThePage.

(** * Further properties of the script *)

(** ** The card of an agent *)

(** The card shows status [st]: it has the class of [st] and neither of
    the two other status classes. *)
Definition shows (c : card) (st : status) : Prop :=
  status_name st ∈ classList c ∧
  ∀ st', st' ≠ st → status_name st' ∉ classList c.

Definition status_classes : list jsstring :=
  [js "waiting"; js "active"; js "completed"].

Lemma status_name_class st : status_name st ∈ status_classes.
Proof. unfold status_classes. destruct st; simpl; set_solver. Qed.

Lemma status_name_inj st st' : status_name st = status_name st' → st = st'.
Proof. destruct st, st'; simpl; intros E; try done; by vm_compute in E. Qed.

Lemma card_id_inj k k' : card_id k = card_id k' → k = k'.
Proof. unfold card_id. apply app_inv_head. Qed.

(** [classList.remove] of the three status classes followed by
    [classList.add] of one of them. *)
Lemma classList_set_status st l :
  classList_add (status_name st) (classList_remove_statuses l) =
  classList_remove_statuses l ++ [status_name st].
Proof.
  unfold classList_add. rewrite bool_decide_eq_false_2; [done|].
  unfold classList_remove_statuses. intros [Hnot _]%list_elem_of_filter.
  apply Hnot. apply (status_name_class st).
Qed.

Lemma classList_set_status_shows st l :
  let l' := classList_add (status_name st) (classList_remove_statuses l) in
  status_name st ∈ l' ∧
  (∀ st', st' ≠ st → status_name st' ∉ l') ∧
  (∀ c, c ∉ status_classes → c ∈ l' ↔ c ∈ l).
Proof.
  cbv zeta. rewrite classList_set_status. split; [set_solver|]. split.
  - intros st' Hne [Hin|Hin]%elem_of_app.
    + unfold classList_remove_statuses in Hin.
      apply list_elem_of_filter in Hin as [Hnot _].
      apply Hnot, (status_name_class st').
    + apply list_elem_of_singleton in Hin. by apply status_name_inj in Hin.
  - intros c Hc. rewrite elem_of_app. unfold classList_remove_statuses.
    rewrite list_elem_of_filter, list_elem_of_singleton. split.
    + intros [[_ ?]| ->]; [done|]. destruct Hc. apply status_name_class.
    + intros Hin. left. split; [exact Hc|exact Hin].
Qed.

(** The cards after [setAgentStatus] on an agent that has one. *)
Lemma cards_setAgentStatus k st s c :
  cards s !! card_id k = Some c →
  cards (setAgentStatus k st s) =
  <[ card_id k :=
       {| classList := classList_add (status_name st)
                         (classList_remove_statuses (classList c));
          agent_status_text :=
            (λ _, match st with
                  | waiting => js "Waiting"
                  | _ => getAgentStatusMessage k st
                  end) <$> agent_status_text c |} ]> (cards s).
Proof. intros Hc. unfold setAgentStatus. by rewrite Hc. Qed.

(** X1.  On an agent that has a card, [setAgentStatus] makes the card
    show the new status: the class of that status is set, the two other
    status classes are gone, every other class of the card is kept; the
    status line, if the card has one, gets a non-empty text; the status is
    stored unless the agent is named [__proto__]; the cards of the other
    agents are untouched. *)
Theorem setAgentStatus_updates_the_card (k : jsstring) (st : status) (s : state) (c : card) :
  cards s !! card_id k = Some c →
  ∃ c',
    cards (setAgentStatus k st s) !! card_id k = Some c' ∧
    shows c' st ∧
    (∀ cls, cls ∉ status_classes → cls ∈ classList c' ↔ cls ∈ classList c) ∧
    (∀ text, agent_status_text c' = Some text → text ≠ []) ∧
    (is_Some (agent_status_text c') ↔ is_Some (agent_status_text c)) ∧
    (k ≠ js "__proto__" → status_of (setAgentStatus k st s) k = Some st) ∧
    (∀ k', k' ≠ k →
       cards (setAgentStatus k st s) !! card_id k' = cards s !! card_id k').
Proof.
  intros Hc. unfold setAgentStatus. rewrite Hc.
  destruct (classList_set_status_shows st (classList c)) as (H1 & H2 & H3).
  eexists. split; [apply lookup_insert_eq|]. cbn [classList agent_status_text].
  split; [by split|]. split; [exact H3|]. split; [|split; [|split]].
  - intros text Ht. destruct (agent_status_text c); [|done].
    injection Ht as <-. destruct st; [by vm_compute|..];
      unfold getAgentStatusMessage;
      destruct (messages_lookup k messages) as [[a b]|] eqn:Hm;
      try (by vm_compute);
      unfold messages in Hm; simpl in Hm;
      repeat (case_bool_decide; [injection Hm as <- <-; by vm_compute|]);
      done.
  - destruct (agent_status_text c); split; intros [? ?]; try done; by eexists.
  - intros Hk. rewrite status_of_store. by rewrite bool_decide_eq_true_2.
  - intros k' Hne. apply lookup_insert_ne. intros E. by apply card_id_inj in E.
Qed.

Lemma setAgentStatus_updates_the_card_witness :
  ∃ c', cards (setAgentStatus (js "parser") active initial_page) !! card_id (js "parser")
        = Some c' ∧ shows c' active.
Proof.
  destruct (setAgentStatus_updates_the_card (js "parser") active initial_page
              {| classList := [js "agent-card"; js "waiting"];
                 agent_status_text := Some (js "Waiting") |})
    as (c' & Hc' & Hshows & _).
  - vm_compute. reflexivity.
  - exists c'. split; [exact Hc'|exact Hshows].
Defined.

(** ** The cards follow the stored statuses *)

(** Every agent with a stored status and a card has a card that shows
    that status; [__proto__] holds no status. *)
Definition in_sync (s : state) : Prop :=
  agentStatuses s !! js "__proto__" = None ∧
  ∀ k st c, status_of s k = Some st → cards s !! card_id k = Some c → shows c st.

Lemma in_sync_eq s s' :
  agentStatuses s' = agentStatuses s → cards s' = cards s → in_sync s → in_sync s'.
Proof. unfold in_sync, status_of. by intros -> ->. Qed.

Lemma in_sync_setAgentStatus k st s : in_sync s → in_sync (setAgentStatus k st s).
Proof.
  intros [Hproto Hsync].
  destruct (cards s !! card_id k) as [c|] eqn:Hc;
    [|unfold setAgentStatus; rewrite Hc; by split].
  pose proof (cards_setAgentStatus k st s c Hc) as Hcards.
  destruct (classList_set_status_shows st (classList c)) as (Hin & Hout & _).
  assert (Hc' := eq_trans (f_equal (.!! card_id k) Hcards) (lookup_insert_eq _ _ _)).
  assert (∀ k', k' ≠ k →
            cards (setAgentStatus k st s) !! card_id k' = cards s !! card_id k')
    as Hothers.
  { intros k' Hne. rewrite Hcards. apply lookup_insert_ne.
    intros E. by apply card_id_inj in E. }
  assert (∀ k', status_of (setAgentStatus k st s) k' =
                if bool_decide (k' = k ∧ k ≠ js "__proto__") then Some st
                else status_of s k') as Hst.
  { intros k'. unfold setAgentStatus. rewrite Hc. by rewrite status_of_store. }
  split.
  - change (status_of (setAgentStatus k st s) (js "__proto__") = None).
    rewrite Hst. case_bool_decide as E; [|exact Hproto].
    destruct E as [<- E]. done.
  - intros k' st' c'' Hk' Hcard. rewrite Hst in Hk'.
    destruct (decide (k' = k)) as [->|Hne].
    + rewrite Hc' in Hcard. injection Hcard as <-.
      case_bool_decide as E; [injection Hk' as <-; by split|].
      assert (k = js "__proto__") as -> by (destruct (decide (k = js "__proto__")); [done|by destruct E]).
      unfold status_of in Hk'. by rewrite Hproto in Hk'.
    + rewrite bool_decide_eq_false_2 in Hk' by (intros [? _]; done).
      rewrite Hothers in Hcard by done. by eapply Hsync.
Qed.

Lemma in_sync_store_set k st s :
  in_sync s → in_sync (store_status k st (setAgentStatus k st s)).
Proof.
  intros Hs.
  destruct (cards s !! card_id k) as [c|] eqn:Hc.
  - apply (in_sync_eq (setAgentStatus k st s)); [|done|by apply in_sync_setAgentStatus].
    unfold setAgentStatus. rewrite Hc. unfold store_status, obj_set. simpl.
    case_bool_decide; [done|]. apply insert_insert_eq.
  - unfold setAgentStatus. rewrite Hc. destruct Hs as [Hproto Hsync]. split.
    + change (status_of (store_status k st s) (js "__proto__") = None).
      rewrite status_of_store. case_bool_decide as E; [|exact Hproto].
      destruct E as [<- E]. done.
    + intros k' st' c' Hk' Hcard. rewrite status_of_store in Hk'.
      case_bool_decide as E; [|by eapply Hsync].
      destruct E as [-> _]. simpl in Hcard. congruence.
Qed.

Lemma in_sync_effect s s' : effect s s' → in_sync s → in_sync s'.
Proof.
  destruct 1 as [a s _|k s _|s s' [s0 _|v s0|t s0]];
    try apply in_sync_store_set; by apply in_sync_eq.
Qed.

Lemma in_sync_effects s s' : rtc effect s s' → in_sync s → in_sync s'.
Proof. induction 1; intros Hs; [done|]. eauto using in_sync_effect. Qed.

Lemma in_sync_resetAllAgents s : in_sync s → in_sync (resetAllAgents s).
Proof.
  unfold resetAllAgents. generalize STAGES. intros l; revert s.
  induction l as [|a l IH]; intros s Hs; simpl; [done|].
  by apply IH, in_sync_store_set.
Qed.

Lemma in_sync_no_status s :
  agentStatuses s = ∅ → in_sync s.
Proof.
  intros E. unfold in_sync, status_of. rewrite E. split; [done|].
  intros k st c Hk. by rewrite lookup_empty in Hk.
Qed.

(** The relation "if the cards were in sync before, they are after". *)
Definition keeps_in_sync (s s' : state) : Prop := in_sync s → in_sync s'.

#[local] Instance keeps_in_sync_refl : Reflexive keeps_in_sync.
Proof. intros s Hs. exact Hs. Qed.

#[local] Instance keeps_in_sync_trans : Transitive keeps_in_sync.
Proof. unfold keeps_in_sync. intros s1 s2 s3 H12 H23 H1. auto. Qed.

Section InSync.
Context `{!Platform}.

Lemma keeps_in_sync_event data s : keeps_in_sync s (final (processStreamEvent data s)).
Proof.
  intros Hs. exact (in_sync_effects _ _ (processStreamEvent_effects data s) Hs).
Qed.

Lemma in_sync_stream_done s : in_sync s → in_sync (stream_done s).
Proof.
  intros Hs. unfold stream_done. cbv zeta.
  assert (in_sync (foldl (λ s agentId,
                            match status_of s agentId with
                            | Some active | Some completed =>
                                setAgentStatus agentId completed s
                            | _ => s
                            end) s STAGES)) as Hfold.
  { revert Hs. generalize STAGES. intros l; revert s.
    induction l as [|a l IH]; intros s Hs; simpl; [done|].
    apply IH. destruct (status_of s a) as [[]|]; try done;
      by apply in_sync_setAgentStatus. }
  revert Hfold.
  generalize (foldl (λ s agentId,
                       match status_of s agentId with
                       | Some active | Some completed =>
                           setAgentStatus agentId completed s
                       | _ => s
                       end) s STAGES).
  intros x Hx. apply (in_sync_eq x); [| |exact Hx];
    unfold triggerCelebration, updateReportDisplay; by repeat case_match.
Qed.

Lemma in_sync_read_loop reads r s :
  in_sync s → in_sync (outcome_state (read_loop reads r s)).
Proof.
  revert r s; induction reads as [|[bytes| |e] reads IH]; intros r s Hs; simpl.
  - done.
  - pose proof (feed_chunk_preserves keeps_in_sync keeps_in_sync_event bytes r s Hs)
      as Hf.
    destruct (feed_chunk bytes r s) as [r' s']. by apply IH.
  - by apply in_sync_stream_done.
  - by destruct (is_abort e).
Qed.

Lemma in_sync_resetAnalysis s : in_sync (resetAnalysis s).
Proof.
  rewrite resetAnalysis_eq.
  assert (in_sync (resetAllAgents (reset_variables s))) as Hr.
  { apply in_sync_resetAllAgents, in_sync_no_status.
    by destruct (reset_variables_fields s) as (_ & _ & _ & _ & E & _). }
  revert Hr. generalize (resetAllAgents (reset_variables s)).
  intros x Hx. by apply (in_sync_eq x).
Qed.

Lemma in_sync_startAnalysis_reset s : in_sync s → in_sync (startAnalysis_reset s).
Proof.
  intros Hs.
  destruct (startAnalysis_reset_fields s) as [Ea Ec].
  apply (in_sync_eq _ _ Ea Ec), in_sync_resetAllAgents.
  by apply (in_sync_eq s).
Qed.

Lemma in_sync_stream_opened s : in_sync s → in_sync (stream_opened s).
Proof.
  intros Hs. rewrite stream_opened_eq.
  pose proof (in_sync_store_set (js "orchestrator") active s Hs) as H1.
  revert H1. generalize (store_status (js "orchestrator") active
                           (setAgentStatus (js "orchestrator") active s)).
  intros x Hx. by apply (in_sync_eq x).
Qed.

(** X2.  The cards follow the stored statuses.  [resetAnalysis] leaves a
    page on which every agent with a stored status and a card has a card
    showing exactly that status; the start of a run, the opening of the
    stream, every event, the end of the stream and the whole read loop on
    any read results keep it so. *)
Theorem cards_show_the_stored_statuses (s : state) :
  in_sync s →
  in_sync (startAnalysis_reset s) ∧
  in_sync (stream_opened s) ∧
  (∀ events, in_sync (process_events events s)) ∧
  in_sync (stream_done s) ∧
  (∀ reads r, in_sync (outcome_state (read_loop reads r s))) ∧
  ∀ s0, in_sync (resetAnalysis s0).
Proof.
  intros Hs. split; [by apply in_sync_startAnalysis_reset|].
  split; [by apply in_sync_stream_opened|]. split; [|split; [|split]].
  - intros events. revert s Hs. induction events as [|e l IH]; intros s Hs; [done|].
    simpl. apply IH. by apply keeps_in_sync_event.
  - by apply in_sync_stream_done.
  - intros reads r. by apply in_sync_read_loop.
  - apply in_sync_resetAnalysis.
Qed.

End InSync.

Lemma cards_show_the_stored_statuses_witness :
  in_sync (stream_done initial_page).
Proof.
  refine (proj1 (proj2 (proj2 (proj2
            (@cards_show_the_stored_statuses reference_platform initial_page _))))).
  apply in_sync_no_status. reflexivity.
Defined.

(** ** What the events leave alone *)

(** Everything on the page except the agent statuses, the cards, the
    report buffer and the PDF path: the session, the controllers, the
    inputs, the display, the three buttons, the balloons and the alerts. *)
Definition surroundings (s : state) :=
  (currentSessionId s, abortController s, uploadedFile s, controllers s, aborted s,
   input_value s, reportContent s,
   (analyzeBtn_disabled s, resetBtn_disabled s, downloadBtn_disabled s),
   diagramUpload_value s, filePreview_display s, balloons s, alerts s).

Lemma surroundings_setAgentStatus k st s :
  surroundings (setAgentStatus k st s) = surroundings s.
Proof. unfold setAgentStatus. by destruct (cards s !! card_id k). Qed.

Lemma surroundings_store_set k st s :
  surroundings (store_status k st (setAgentStatus k st s)) = surroundings s.
Proof. apply surroundings_setAgentStatus. Qed.

Lemma surroundings_effect s s' : effect s s' → surroundings s' = surroundings s.
Proof.
  destruct 1 as [a s _|k s _|s s' [s0 _|v s0|t s0]];
    try done; apply surroundings_store_set.
Qed.

Lemma surroundings_effects s s' : rtc effect s s' → surroundings s' = surroundings s.
Proof.
  induction 1 as [|s1 s2 s3 H12 _ IH]; [done|].
  by rewrite IH, (surroundings_effect _ _ H12).
Qed.

Definition same_surroundings (s s' : state) : Prop := surroundings s' = surroundings s.

#[local] Instance same_surroundings_refl : Reflexive same_surroundings.
Proof. by intros s. Qed.

#[local] Instance same_surroundings_trans : Transitive same_surroundings.
Proof. unfold same_surroundings. intros s1 s2 s3 H12 H23. by rewrite H23. Qed.

(** The cards that exist are the same. *)
Definition same_cards (s s' : state) : Prop := ∀ k, has_card s' k ↔ has_card s k.

#[local] Instance same_cards_refl : Reflexive same_cards.
Proof. by intros s k. Qed.

#[local] Instance same_cards_trans : Transitive same_cards.
Proof. unfold same_cards. intros s1 s2 s3 H12 H23 k. by rewrite H23. Qed.

Section Surroundings.
Context `{!Platform}.

Lemma same_surroundings_event data s :
  same_surroundings s (final (processStreamEvent data s)).
Proof. apply surroundings_effects, processStreamEvent_effects. Qed.

Lemma same_cards_event data s : same_cards s (final (processStreamEvent data s)).
Proof. intros k. apply has_card_effects, processStreamEvent_effects. Qed.

Lemma same_surroundings_events events s :
  same_surroundings s (process_events events s).
Proof.
  revert s; induction events as [|e l IH]; intros s; simpl; [done|].
  etrans; [apply same_surroundings_event|apply IH].
Qed.

Lemma same_surroundings_pending reads r s :
  is_pending (read_loop reads r s) = true →
  same_surroundings s (outcome_state (read_loop reads r s)).
Proof.
  revert r s; induction reads as [|[bytes| |e] reads IH]; intros r s; simpl.
  - done.
  - pose proof (feed_chunk_preserves same_surroundings same_surroundings_event
                  bytes r s) as Hf.
    destruct (feed_chunk bytes r s) as [r' s']. intros Hp.
    etrans; [exact Hf|by apply IH].
  - done.
  - by destruct (is_abort e).
Qed.

Lemma same_cards_pending reads r s :
  is_pending (read_loop reads r s) = true →
  same_cards s (outcome_state (read_loop reads r s)).
Proof.
  revert r s; induction reads as [|[bytes| |e] reads IH]; intros r s; simpl.
  - done.
  - pose proof (feed_chunk_preserves same_cards same_cards_event bytes r s) as Hf.
    destruct (feed_chunk bytes r s) as [r' s']. intros Hp.
    etrans; [exact Hf|by apply IH].
  - done.
  - by destruct (is_abort e).
Qed.

(** X3.  Events touch nothing but the agent statuses, the cards, the
    report buffer and the PDF path.  Whatever events are processed, and
    however far the read loop has got without reaching the end of the
    stream or a rejection, the session id, the controllers, the uploaded
    file, the inputs, the display, the three buttons, the balloons and the
    alerts are what they were, and no card has appeared or gone. *)
Theorem events_leave_the_surroundings (s : state) :
  (∀ events, surroundings (process_events events s) = surroundings s ∧
             ∀ k, has_card (process_events events s) k ↔ has_card s k) ∧
  ∀ reads r,
    is_pending (read_loop reads r s) = true →
    surroundings (outcome_state (read_loop reads r s)) = surroundings s ∧
    ∀ k, has_card (outcome_state (read_loop reads r s)) k ↔ has_card s k.
Proof.
  split.
  - intros events. split; [apply same_surroundings_events|].
    revert s; induction events as [|e l IH]; intros s k; simpl; [done|].
    rewrite IH. apply same_cards_event.
  - intros reads r Hp. split.
    + by apply same_surroundings_pending.
    + by apply same_cards_pending.
Qed.

End Surroundings.

Section SurroundingsOnThePage.
Local Existing Instance reference_platform.

Lemma events_leave_the_surroundings_witness :
  surroundings
    (outcome_state
       (read_loop [ReadChunk (utf8_bytes (report_frame ++ [10]))] new_reader
          scenario_page)) =
  surroundings scenario_page.
Proof.
  refine (proj1 (proj2 (events_leave_the_surroundings scenario_page) _ _ _)).
  vm_compute. reflexivity.
Defined.

End SurroundingsOnThePage.

(** ** The end of the stream *)

(** The report buffer, the PDF path and the surroundings. *)
Definition outside_agents (s : state) := (fullReport s, pdfFilePath s, surroundings s).

Lemma outside_agents_setAgentStatus k st s :
  outside_agents (setAgentStatus k st s) = outside_agents s.
Proof. unfold setAgentStatus. by destruct (cards s !! card_id k). Qed.

Lemma outside_agents_resetAllAgents s :
  outside_agents (resetAllAgents s) = outside_agents s.
Proof.
  unfold resetAllAgents. generalize STAGES. intros l; revert s.
  induction l as [|a l IH]; intros s; simpl; [done|].
  rewrite IH. apply outside_agents_setAgentStatus.
Qed.

(** The loop of lines 317-321. *)
Definition complete_started (s : state) : state :=
  foldl (λ s agentId,
           match status_of s agentId with
           | Some active | Some completed => setAgentStatus agentId completed s
           | _ => s
           end) s STAGES.

Lemma stream_done_eq s :
  stream_done s =
  triggerCelebration (with_buttons false false false
                        (updateReportDisplay (complete_started s))).
Proof. reflexivity. Qed.

Lemma outside_agents_complete_started s :
  outside_agents (complete_started s) = outside_agents s.
Proof.
  unfold complete_started. generalize STAGES. intros l; revert s.
  induction l as [|a l IH]; intros s; simpl; [done|].
  rewrite IH. destruct (status_of s a) as [[]|]; try done;
    apply outside_agents_setAgentStatus.
Qed.

(** The three [disabled] flags: Analyze, Reset, Download. *)
Definition buttons_disabled (s : state) : bool * bool * bool :=
  (analyzeBtn_disabled s, resetBtn_disabled s, downloadBtn_disabled s).

(** What the end of the stream changes outside the agents: the display,
    the buttons and the balloons. *)
Lemma stream_done_outside s :
  fullReport (stream_done s) = fullReport s ∧
  pdfFilePath (stream_done s) = pdfFilePath s ∧
  reportContent (stream_done s) =
    (if bool_decide (Str.trim (fullReport s) = []) then PlaceholderProcessing
     else Rendered (Markdown.render (fullReport s))) ∧
  buttons_disabled (stream_done s) = (false, false, false) ∧
  balloons (stream_done s) = (λ _, 18%nat) <$> balloons s ∧
  (currentSessionId (stream_done s), abortController (stream_done s),
   uploadedFile (stream_done s), controllers (stream_done s), aborted (stream_done s),
   input_value (stream_done s), diagramUpload_value (stream_done s),
   filePreview_display (stream_done s), alerts (stream_done s)) =
  (currentSessionId s, abortController s, uploadedFile s, controllers s, aborted s,
   input_value s, diagramUpload_value s, filePreview_display s, alerts s).
Proof.
  rewrite stream_done_eq.
  pose proof (outside_agents_complete_started s) as Hx. revert Hx.
  generalize (complete_started s). intros x Hx.
  unfold outside_agents, surroundings in Hx.
  injection Hx as Hf Hp Hsid Hctl Hup Hmade Hab Hinp Hrc Hb1 Hb2 Hb3 Hdu Hfp Hbl Hal.
  rewrite <- Hf, <- Hp, <- Hsid, <- Hctl, <- Hup, <- Hmade, <- Hab, <- Hinp,
    <- Hdu, <- Hfp, <- Hbl, <- Hal.
  unfold triggerCelebration, updateReportDisplay, buttons_disabled.
  destruct x as [sid ctl fr pdf st up made ab inp cds rc b1 b2 b3 du fp bl al].
  simpl. case_bool_decide; destruct bl; done.
Qed.

Section EndOfStream.
Context `{!Platform}.

(** X4.  When the stream ends, Analyze, Reset and Download are enabled,
    also when there is nothing to download; the report buffer and the PDF
    path are kept; the display holds the rendered report, or still the
    processing placeholder when the report is blank; a balloon container
    gets its 18 balloons; and no stage that has a card is left active: a
    stage that was active or completed is completed, any other keeps its
    status. *)
Theorem end_of_stream_page (s : state) :
  buttons_disabled (stream_done s) = (false, false, false) ∧
  fullReport (stream_done s) = fullReport s ∧
  pdfFilePath (stream_done s) = pdfFilePath s ∧
  reportContent (stream_done s) =
    (if bool_decide (Str.trim (fullReport s) = []) then PlaceholderProcessing
     else Rendered (Markdown.render (fullReport s))) ∧
  balloons (stream_done s) = (λ _, 18%nat) <$> balloons s ∧
  ∀ k, k ∈ STAGES → has_card s k →
       status_of (stream_done s) k ≠ Some active ∧
       (status_of (stream_done s) k = Some completed ↔
        status_of s k = Some active ∨ status_of s k = Some completed).
Proof.
  destruct (stream_done_outside s) as (Hf & Hp & Hrc & Hb & Hbl & _).
  split; [exact Hb|].
  split; [exact Hf|]. split; [exact Hp|]. split; [exact Hrc|]. split; [exact Hbl|].
  intros k Hk Hcard.
  destruct (stream_done_cases s k) as [E|[Ha E]].
  - rewrite E. split.
    + intros Ha. rewrite (stream_done_completes s k Hk Hcard Ha) in E. congruence.
    + split; [by right|]. intros [Ha|Hc]; [|done].
      rewrite (stream_done_completes s k Hk Hcard Ha) in E. congruence.
  - rewrite E. split; [done|]. split; [by left|done].
Qed.

End EndOfStream.

Lemma end_of_stream_page_witness :
  status_of (stream_done (store_status (js "parser") active initial_page)) (js "parser")
  ≠ Some active.
Proof.
  refine (proj1 (proj2 (proj2 (proj2 (proj2 (proj2
    (@end_of_stream_page reference_platform
       (store_status (js "parser") active initial_page))))))
    (js "parser") _ _)).
  - apply elem_of_cons; right. apply elem_of_cons; by left.
  - eexists. vm_compute. reflexivity.
Defined.

(** ** The course of a run *)

Lemma buttons_of_surroundings s s' :
  surroundings s' = surroundings s →
  buttons_disabled s' = buttons_disabled s ∧ reportContent s' = reportContent s.
Proof. unfold surroundings, buttons_disabled. intros [= ]. split; congruence. Qed.

Section Run.
Context `{!Platform}.

(** What [startAnalysis] runs inside its [try], on the page as
    [startAnalysis_reset] left it. *)
Definition run_body (env : environment) (s : state) : outcome :=
  match createSession (session_fetch env) with
  | inl e => Thrown e s
  | inr session_id =>
      let s := with_currentSessionId session_id s in
      match uploadedFile s, file_read env with
      | Some _, Some e => Thrown e s
      | _, _ => streamQuery (query_fetch env) (reads env) s
      end
  end.

Lemma startAnalysis_started env s :
  Str.trim (input_value s) ≠ [] ∨ uploadedFile s ≠ None →
  startAnalysis env s = startAnalysis_catch (run_body env (startAnalysis_reset s)).
Proof.
  intros Hgo. unfold startAnalysis.
  destruct Hgo as [Hgo|Hgo].
  - by rewrite (bool_decide_eq_false_2 _ Hgo).
  - rewrite (bool_decide_eq_false_2 (uploadedFile s = None) Hgo).
    by rewrite andb_false_r.
Qed.

(** How the read loop can stand or end, and what it has touched outside
    the agents, the report buffer and the PDF path by then. *)
Inductive loop_outcome (s : state) : outcome → Prop :=
| loop_pending r s' :
    same_surroundings s s' → loop_outcome s (Pending r s')
| loop_done s1 :
    same_surroundings s s1 → loop_outcome s (Returned (stream_done s1))
| loop_aborted s' :
    same_surroundings s s' → loop_outcome s (Returned s')
| loop_failed e s' :
    is_abort e = false → same_surroundings s s' → loop_outcome s (Thrown e s').

Lemma loop_outcome_from s s0 o :
  same_surroundings s s0 → loop_outcome s0 o → loop_outcome s o.
Proof.
  intros H0 [r s' Hs|s1 Hs|s' Hs|e s' He Hs];
    [constructor 1|constructor 2|constructor 3|constructor 4];
    try done; by etrans.
Qed.

Lemma read_loop_outcome reads r s : loop_outcome s (read_loop reads r s).
Proof.
  revert r s; induction reads as [|[bytes| |e] reads IH]; intros r s; simpl.
  - by constructor 1.
  - pose proof (feed_chunk_preserves same_surroundings same_surroundings_event
                  bytes r s) as Hf.
    destruct (feed_chunk bytes r s) as [r' s'].
    exact (loop_outcome_from _ _ _ Hf (IH r' s')).
  - by constructor 2.
  - destruct (is_abort e) eqn:He; [by constructor 3|by constructor 4].
Qed.

Lemma stream_opened_surroundings s :
  buttons_disabled (stream_opened s) = buttons_disabled s ∧
  reportContent (stream_opened s) = PlaceholderProcessing.
Proof.
  rewrite stream_opened_eq.
  destruct (buttons_of_surroundings _ _
              (surroundings_store_set (js "orchestrator") active s)) as [Hb _].
  revert Hb.
  generalize (store_status (js "orchestrator") active
                (setAgentStatus (js "orchestrator") active s)).
  intros x Hb. by split.
Qed.

Lemma startAnalysis_reset_surroundings s :
  buttons_disabled (startAnalysis_reset s) = (true, true, true) ∧
  reportContent (startAnalysis_reset s) = PlaceholderStarting.
Proof.
  split; [|by destruct (startAnalysis_reset_buffers s) as (_ & _ & ?)].
  unfold startAnalysis_reset. cbv zeta.
  generalize (resetAllAgents (with_reportContent PlaceholderStarting
                                (with_fullReport [] s))).
  intros x. reflexivity.
Qed.

(** How a run that has passed the input check can stand or end. *)
Inductive run_outcome : outcome → Prop :=
| run_streaming r s :
    buttons_disabled s = (true, true, true) →
    reportContent s = PlaceholderProcessing →
    run_outcome (Pending r s)
| run_finished s :
    buttons_disabled s = (false, false, false) →
    (reportContent s = PlaceholderProcessing ∨ ∃ html, reportContent s = Rendered html) →
    run_outcome (Returned s)
| run_failed s message :
    buttons_disabled s = (false, false, true) →
    reportContent s = ErrorBox message →
    run_outcome (Returned s)
| run_cancelled s :
    buttons_disabled s = (true, true, true) →
    (reportContent s = PlaceholderStarting ∨ reportContent s = PlaceholderProcessing) →
    run_outcome (Returned s).

Lemma run_outcome_catch_thrown e s :
  buttons_disabled s = (true, true, true) →
  (reportContent s = PlaceholderStarting ∨ reportContent s = PlaceholderProcessing) →
  run_outcome (startAnalysis_catch (Thrown e s)).
Proof.
  intros Hb Hd. simpl. destruct (is_abort e); [by constructor 4|].
  apply (run_failed _ (exn_message e)); [|done].
  unfold buttons_disabled in *. simpl. congruence.
Qed.

Lemma run_outcome_loop s o :
  buttons_disabled s = (true, true, true) →
  reportContent s = PlaceholderProcessing →
  loop_outcome s o → run_outcome (startAnalysis_catch o).
Proof.
  intros Hb Hd [r s' Hs|s1 Hs|s' Hs|e s' He Hs];
    destruct (buttons_of_surroundings _ _ Hs) as [Hb' Hd'];
    rewrite Hb in Hb'; rewrite Hd in Hd'.
  - by constructor 1.
  - destruct (stream_done_outside s1) as (_ & _ & Hrc & Hbd & _).
    simpl. constructor 2; [done|]. rewrite Hrc.
    case_bool_decide; [by left|right; by eexists].
  - simpl. constructor 4; [done|by right].
  - apply run_outcome_catch_thrown; [done|by right].
Qed.

Lemma run_outcome_started env s :
  run_outcome (startAnalysis_catch (run_body env (startAnalysis_reset s))).
Proof.
  destruct (startAnalysis_reset_surroundings s) as [Hb Hd].
  revert Hb Hd. generalize (startAnalysis_reset s). intros s0 Hb Hd.
  unfold run_body.
  destruct (createSession (session_fetch env)) as [e|session_id];
    [apply run_outcome_catch_thrown; [done|by left]|].
  cbv zeta.
  assert (buttons_disabled (with_currentSessionId session_id s0) = (true, true, true))
    as Hb1 by exact Hb.
  assert (reportContent (with_currentSessionId session_id s0) = PlaceholderStarting)
    as Hd1 by exact Hd.
  revert Hb1 Hd1. generalize (with_currentSessionId session_id s0).
  intros s1 Hb1 Hd1.
  assert (run_outcome (startAnalysis_catch
                         (streamQuery (query_fetch env) (reads env) s1))) as Hq.
  { unfold streamQuery.
    destruct (query_fetch env) as [e|resp];
      [apply run_outcome_catch_thrown; [done|by left]|].
    destruct (negb (response_ok resp)).
    { destruct (response_text resp);
        (apply run_outcome_catch_thrown; [done|by left]). }
    destruct (negb (response_body resp));
      [apply run_outcome_catch_thrown; [done|by left]|].
    destruct (stream_opened_surroundings s1) as [Hb2 Hd2]. rewrite Hb1 in Hb2.
    apply (run_outcome_loop (stream_opened s1)); [done..|].
    apply read_loop_outcome. }
  destruct (uploadedFile s1); [|exact Hq].
  destruct (file_read env); [|exact Hq].
  apply run_outcome_catch_thrown; [done|by left].
Qed.

(** X5.  A run that has passed the input check never rejects, and
    stands or ends in one of four ways.  While it waits for the stream,
    all three buttons are disabled and the processing placeholder is
    shown.  When the stream has ended, all three buttons are enabled and
    the display holds the rendered report or the processing placeholder.
    After a failure, the error box is shown, Analyze and Reset are enabled
    and Download is disabled.  After an abort it returns with the three
    buttons still disabled and a placeholder on display. *)
Theorem run_ends_in_one_of_four_ways (env : environment) (s : state) :
  Str.trim (input_value s) ≠ [] ∨ uploadedFile s ≠ None →
  run_outcome (startAnalysis env s) ∧ is_thrown (startAnalysis env s) = false.
Proof.
  intros Hgo. rewrite (startAnalysis_started env s Hgo).
  pose proof (run_outcome_started env s) as Hrun.
  split; [exact Hrun|]. by destruct Hrun.
Qed.

End Run.

Section RunOnThePage.
Local Existing Instance reference_platform.

Lemma run_ends_in_one_of_four_ways_witness :
  run_outcome (startAnalysis first_run scenario_page).
Proof.
  refine (proj1 (run_ends_in_one_of_four_ways first_run scenario_page _)).
  left. by vm_compute.
Defined.

End RunOnThePage.

(** ** The input check *)

Lemma trimStart_nil s :
  Str.trimStart s = [] ↔ forallb Str.is_whitespace s = true.
Proof.
  induction s as [|c s IH]; simpl; [done|].
  destruct (Str.is_whitespace c); simpl; [exact IH|]. split; done.
Qed.

Lemma trimStart_head s c rest :
  Str.trimStart s = c :: rest → Str.is_whitespace c = false.
Proof.
  induction s as [|d s IH]; simpl; [done|].
  destruct (Str.is_whitespace d) eqn:Hd; [exact IH|]. by intros [= <- _].
Qed.

Lemma forallb_whitespace_trimStart s :
  forallb Str.is_whitespace (Str.trimStart s) = forallb Str.is_whitespace s.
Proof.
  induction s as [|c s IH]; simpl; [done|].
  destruct (Str.is_whitespace c) eqn:Hc; simpl; [exact IH|by rewrite Hc].
Qed.

Lemma forallb_reverse {A} (f : A → bool) l : forallb f (reverse l) = forallb f l.
Proof.
  induction l as [|x l IH]; [done|].
  rewrite reverse_cons, forallb_app, IH. simpl. by rewrite andb_true_r, andb_comm.
Qed.

(** [s.trim()] is empty exactly when [s] holds nothing but white space. *)
Lemma trim_nil s : Str.trim s = [] ↔ forallb Str.is_whitespace s = true.
Proof.
  unfold Str.trim.
  rewrite <- (forallb_whitespace_trimStart s), <- (forallb_reverse _ (Str.trimStart s)).
  rewrite <- trimStart_nil. split; [|by intros ->].
  intros E. apply (f_equal reverse) in E. by rewrite reverse_involutive in E.
Qed.

(** A trimmed string does not end in white space. *)
Lemma trim_last s t c : Str.trim s = t ++ [c] → Str.is_whitespace c = false.
Proof.
  unfold Str.trim. intros E. apply (f_equal reverse) in E.
  rewrite reverse_involutive, reverse_app in E. simpl in E.
  by apply trimStart_head in E.
Qed.

Section InputCheck.
Context `{!Platform}.

(** X6.  With nothing but white space in the input and no uploaded
    file, a click on Analyze shows the alert and does nothing else: no
    request, no controller, the page as it was.  With any other character
    in the input, or with an uploaded file, no alert is shown and the run
    starts: a new controller is made. *)
Theorem blank_input_only_alerts (env : environment) (s : state) :
  (forallb Str.is_whitespace (input_value s) = true → uploadedFile s = None →
   startAnalysis env s =
   Returned (with_alert
     (js "Please enter an architecture description or upload a diagram") s)) ∧
  (forallb Str.is_whitespace (input_value s) = false ∨ uploadedFile s ≠ None →
   startAnalysis env s = startAnalysis_catch (run_body env (startAnalysis_reset s)) ∧
   alerts (startAnalysis_reset s) = alerts s ∧
   controllers (startAnalysis_reset s) = S (controllers s) ∧
   abortController (startAnalysis_reset s) = Some (controllers s)).
Proof.
  split.
  - intros Hblank%trim_nil Hfile. unfold startAnalysis.
    by rewrite (bool_decide_eq_true_2 _ Hblank), (bool_decide_eq_true_2 _ Hfile).
  - intros Hgo. split.
    + apply startAnalysis_started. destruct Hgo as [Hgo|Hgo]; [left|by right].
      rewrite trim_nil. by rewrite Hgo.
    + unfold startAnalysis_reset. cbv zeta.
      pose proof (outside_agents_resetAllAgents
                    (with_reportContent PlaceholderStarting (with_fullReport [] s)))
        as Hx.
      revert Hx.
      generalize (resetAllAgents (with_reportContent PlaceholderStarting
                                    (with_fullReport [] s))).
      intros x Hx. unfold outside_agents, surroundings in Hx.
      injection Hx as _ _ _ _ _ Hmade _ _ _ _ _ _ _ _ _ Hal.
      simpl in *. by rewrite Hmade, Hal.
Qed.

End InputCheck.

Section InputCheckOnThePage.
Local Existing Instance reference_platform.

Lemma blank_input_only_alerts_witness :
  alerts (outcome_state (startAnalysis first_run (typed [32; 9; 10] initial_page))) =
  [js "Please enter an architecture description or upload a diagram"].
Proof.
  rewrite (proj1 (blank_input_only_alerts first_run (typed [32; 9; 10] initial_page)));
    reflexivity.
Defined.

End InputCheckOnThePage.

(** ** Lines of the stream *)

Lemma startsWith_app p s : Str.startsWith p s = true → ∃ r, s = p ++ r.
Proof.
  revert s; induction p as [|a p IH]; intros s; simpl; [by exists s|].
  destruct s as [|b s]; [done|].
  destruct (N.eqb_spec a b) as [->|]; [|done].
  intros [r ->]%IH. by exists r.
Qed.

Lemma trimStart_app_whitespace s c :
  Str.is_whitespace c = true →
  Str.trimStart (s ++ [c]) =
  match Str.trimStart s with [] => [] | t => t ++ [c] end.
Proof.
  intros Hc. induction s as [|d s IH]; simpl; [by rewrite Hc|].
  destruct (Str.is_whitespace d); [exact IH|done].
Qed.

(** White space at the end of a line is trimmed away. *)
Lemma trim_app_whitespace s c :
  Str.is_whitespace c = true → Str.trim (s ++ [c]) = Str.trim s.
Proof.
  intros Hc. unfold Str.trim. rewrite (trimStart_app_whitespace s c Hc).
  destruct (Str.trimStart s) as [|d t] eqn:E; [done|].
  rewrite reverse_app. simpl. by rewrite Hc.
Qed.

Section DataLines.
Context `{!Platform}.

(** X7.  The payload of a data line is never empty.  A line is trimmed
    before it is tested, so a line that starts with ["data: "] has at
    least one more character: a bare ["data: "] loses its space to the
    trim and is no data line.  The test [if (jsonStr)] therefore always
    succeeds, and what happens to a data line is decided by [JSON.parse]
    alone. *)
Theorem data_line_payload_is_not_empty (raw : jsstring) (s : state) :
  Str.startsWith (js "data: ") (Str.trim raw) = true →
  Str.substring_from 6 (Str.trim raw) ≠ [] ∧
  process_line (Str.trim raw) s =
    match JSON_parse (Str.substring_from 6 (Str.trim raw)) with
    | Some data => (final (processStreamEvent data s), Some data)
    | None => (s, None)
    end.
Proof.
  intros Hp.
  assert (Str.substring_from 6 (Str.trim raw) ≠ []) as Hne.
  { destruct (startsWith_app _ _ Hp) as [r Hr]. rewrite Hr.
    change (Str.substring_from 6 (js "data: " ++ r)) with r. intros ->.
    change (js "data: " ++ []) with (js "data:" ++ [32]) in Hr.
    by apply trim_last in Hr. }
  split; [exact Hne|].
  unfold process_line. by rewrite Hp, (bool_decide_eq_false_2 _ Hne).
Qed.

(** X8.  A line that, once trimmed, does not start with ["data: "] is
    ignored: a blank line, a comment, an [event:] field, and also a
    [data:] field written without the space.  The loop over the lines goes
    on with the rest of the buffer, the page and the events as they were. *)
Theorem other_lines_are_ignored
    (line rest : jsstring) (events : list value) (s : state) :
  Str.indexOf_newline line = None →
  Str.startsWith (js "data: ") (Str.trim line) = false →
  process_line (Str.trim line) s = (s, None) ∧
  drain_lines (line ++ [10] ++ rest) events s = drain_lines rest events s.
Proof.
  intros Hn Hp.
  assert (process_line (Str.trim line) s = (s, None)) as Hl
    by (unfold process_line; by rewrite Hp).
  split; [exact Hl|].
  rewrite (drain_lines_line _ _ _ _ Hn), Hl. simpl. by rewrite app_nil_r.
Qed.

(** X9.  White space around a line makes no difference, a carriage
    return before the newline in particular: a line ending in CR LF is
    handled exactly as the same line ending in LF. *)
Theorem carriage_return_is_trimmed
    (line line' rest : jsstring) (events : list value) (s : state) :
  Str.indexOf_newline line = None →
  Str.indexOf_newline line' = None →
  Str.trim line = Str.trim line' →
  drain_lines (line ++ [10] ++ rest) events s =
    drain_lines (line' ++ [10] ++ rest) events s ∧
  drain_lines ((line ++ [13]) ++ [10] ++ rest) events s =
    drain_lines (line ++ [10] ++ rest) events s.
Proof.
  intros Hn Hn' Ht. split.
  - by rewrite (drain_lines_line _ _ _ _ Hn), (drain_lines_line _ _ _ _ Hn'), Ht.
  - assert (Str.indexOf_newline (line ++ [13]) = None) as Hcr.
    { clear -Hn. induction line as [|c line IH]; simpl in *; [done|].
      destruct (N.eqb c 10); [done|].
      destruct (Str.indexOf_newline line); [done|]. by rewrite IH. }
    rewrite (drain_lines_line _ _ _ _ Hn), (drain_lines_line _ _ _ _ Hcr).
    by rewrite trim_app_whitespace.
Qed.

(** X10.  A last line without a newline is never processed.  As long as
    the buffer and the decoded text of a chunk hold no newline, the chunk
    only grows the buffer: no event, the page as it was.  When the stream
    then ends, the buffer is dropped with whatever it holds, a complete
    event included. *)
Theorem unterminated_last_line_is_dropped (bytes : list byte) (r : reader) (s : state) :
  Str.indexOf_newline (buffer r ++ (decode (decoder r) bytes).2) = None →
  (feed_chunk bytes r s).2 = s ∧
  decoded (feed_chunk bytes r s).1 = decoded r ∧
  buffer (feed_chunk bytes r s).1 = buffer r ++ (decode (decoder r) bytes).2 ∧
  read_loop [ReadChunk bytes; ReadDone] r s = Returned (stream_done s).
Proof.
  intros Hn. unfold read_loop, feed_chunk.
  destruct (decode (decoder r) bytes) as [d text]. simpl in Hn.
  by rewrite (drain_lines_no_newline _ _ _ Hn).
Qed.

End DataLines.

Section DataLinesOnThePage.
Local Existing Instance reference_platform.

Lemma data_line_payload_is_not_empty_witness :
  Str.substring_from 6 (Str.trim (report_frame ++ [13])) ≠ [].
Proof.
  refine (proj1 (data_line_payload_is_not_empty (report_frame ++ [13]) initial_page _)).
  vm_compute. reflexivity.
Defined.

(** A [data:] field without the space after the colon. *)
Lemma other_lines_are_ignored_witness :
  drain_lines ((js "data:{" ++ quoted "content" ++ js ":" ++ quoted "Report" ++ js "}")
               ++ [10] ++ []) [] initial_page =
  drain_lines [] [] initial_page.
Proof.
  refine (proj2 (other_lines_are_ignored _ [] [] initial_page _ _));
    vm_compute; reflexivity.
Defined.

Lemma carriage_return_is_trimmed_witness :
  drain_lines ((report_frame ++ [13]) ++ [10] ++ []) [] initial_page =
  drain_lines (report_frame ++ [10] ++ []) [] initial_page.
Proof.
  refine (proj2 (carriage_return_is_trimmed report_frame report_frame [] []
                   initial_page _ _ _));
    vm_compute; reflexivity.
Defined.

Lemma unterminated_last_line_is_dropped_witness :
  (feed_chunk (utf8_bytes report_frame) new_reader scenario_page).2 = scenario_page.
Proof.
  refine (proj1 (unterminated_last_line_is_dropped (utf8_bytes report_frame)
                   new_reader scenario_page _)).
  vm_compute. reflexivity.
Defined.

End DataLinesOnThePage.

(** ** What an event adds does not depend on the page *)

Definition is_normal (c : completion) : bool :=
  match c with Normal _ => true | Throw _ => false end.

(** From [s] to [s'] the text [t] was appended to the report buffer and
    the PDF path was set to [q], if any. *)
Definition adds (t : jsstring) (q : option value) (s s' : state) : Prop :=
  fullReport s' = fullReport s ++ t ∧ pdfFilePath s' = default (pdfFilePath s) q.

(** Two runs of a statement, from [s1] and from [s2], end the same way
    and add the same. *)
Definition alike (s1 s2 : state) (c1 c2 : completion) : Prop :=
  is_normal c1 = is_normal c2 ∧
  ∃ t q, adds t q s1 (final c1) ∧ adds t q s2 (final c2).

Lemma adds_nothing s s' :
  outside_agents s' = outside_agents s → adds [] None s s'.
Proof.
  unfold outside_agents, adds. intros [= Hf Hp _]. by rewrite app_nil_r.
Qed.

Lemma alike_unchanged s1 s2 x1 x2 :
  outside_agents x1 = outside_agents s1 → outside_agents x2 = outside_agents s2 →
  alike s1 s2 (Normal x1) (Normal x2).
Proof. intros H1 H2. split; [done|]. exists [], None. by split; apply adds_nothing. Qed.

Lemma alike_same s1 s2 : alike s1 s2 (Normal s1) (Normal s2).
Proof. by apply alike_unchanged. Qed.

Lemma alike_throw s1 s2 : alike s1 s2 (Throw s1) (Throw s2).
Proof. split; [done|]. exists [], None. by split; apply adds_nothing. Qed.

Lemma alike_and_then s1 s2 c1 c2 k :
  alike s1 s2 c1 c2 →
  (∀ x1 x2, alike x1 x2 (k x1) (k x2)) →
  alike s1 s2 (c1 >>> k) (c2 >>> k).
Proof.
  intros [Hn (t & q & [Hf1 Hp1] & [Hf2 Hp2])] Hk.
  destruct c1 as [x1|x1], c2 as [x2|x2]; try done; simpl in *.
  - destruct (Hk x1 x2) as [Hn' (t' & q' & [Hf1' Hp1'] & [Hf2' Hp2'])].
    split; [done|].
    exists (t ++ t'), (match q' with Some v => Some v | None => q end).
    unfold adds. rewrite Hf1', Hf2', Hp1', Hp2', Hf1, Hf2, Hp1, Hp2, !app_assoc.
    by destruct q', q.
  - split; [done|]. by exists t, q.
Qed.

Lemma alike_attempt {A} (o : option A) s1 s2 k1 k2 :
  (∀ a, alike s1 s2 (k1 a) (k2 a)) →
  alike s1 s2 (attempt o s1 k1) (attempt o s2 k2).
Proof. intros Hk. destruct o; simpl; [apply Hk|apply alike_throw]. Qed.

Lemma alike_for_each {A} (body : A → state → completion) l :
  (∀ x y1 y2, alike y1 y2 (body x y1) (body x y2)) →
  ∀ s1 s2, alike s1 s2 (for_each body l s1) (for_each body l s2).
Proof.
  intros Hb. induction l as [|x l IH]; intros s1 s2; simpl; [apply alike_same|].
  apply alike_and_then; [apply Hb|apply IH].
Qed.

Lemma outside_agents_activate_if_not_started k s :
  outside_agents (activate_if_not_started k s) = outside_agents s.
Proof.
  unfold activate_if_not_started. destruct (not_started s k); [|done].
  apply outside_agents_setAgentStatus.
Qed.

Lemma alike_activate k s1 s2 :
  alike s1 s2 (Normal (activate_if_not_started k s1))
              (Normal (activate_if_not_started k s2)).
Proof. apply alike_unchanged; apply outside_agents_activate_if_not_started. Qed.

Lemma alike_pdf v s1 s2 :
  alike s1 s2 (Normal (with_pdfFilePath v s1)) (Normal (with_pdfFilePath v s2)).
Proof.
  split; [done|]. exists [], (Some v). unfold adds. simpl. by rewrite !app_nil_r.
Qed.

Lemma alike_report t s1 s2 :
  alike s1 s2 (Normal (with_fullReport (fullReport s1 ++ t) s1))
              (Normal (with_fullReport (fullReport s2 ++ t) s2)).
Proof. split; [done|]. by exists t, None. Qed.

(** Reading a property throws on [null] and [undefined] only, whatever
    the property. *)
Lemma get_is_Some v k k' : is_Some (get v k) → is_Some (get v k').
Proof. destruct v; simpl; intros [? ?]; try done; by eexists. Qed.

Section Alike.
Context `{!Platform}.

Lemma alike_author event s1 s2 :
  alike s1 s2 (update_author_status event s1) (update_author_status event s2).
Proof.
  unfold update_author_status.
  destruct (get event (js "author")) as [author|] eqn:Hauthor;
    [|apply alike_throw].
  cbn [attempt]. destruct (truthy author); [|apply alike_same].
  apply alike_attempt; intros agentId.
  destruct (get_is_Some event (js "author") (js "finishReason")) as [fr Hfr];
    [by eexists|].
  rewrite Hfr. cbn [attempt].
  assert (∀ s, ∃ x,
    (if id_truthy agentId && bool_decide (is_Some (cards s !! card_id (id_text agentId)))
     then
       if is_finish fr then
         match next_agent agentId with
         | Some nextAgentId =>
             Normal (activate_if_not_started nextAgentId
                       (store_status (id_text agentId) completed
                          (setAgentStatus (id_text agentId) completed s)))
         | None =>
             Normal (store_status (id_text agentId) completed
                       (setAgentStatus (id_text agentId) completed s))
         end
       else Normal (activate_if_not_started (id_text agentId) s)
     else Normal s) = Normal x ∧ outside_agents x = outside_agents s) as Hcases.
  { intros s. destruct (id_truthy agentId && _); [|by eexists].
    destruct (is_finish fr).
    - destruct (next_agent agentId); eexists; (split; [reflexivity|]).
      + rewrite outside_agents_activate_if_not_started.
        apply outside_agents_setAgentStatus.
      + apply outside_agents_setAgentStatus.
    - eexists; split; [reflexivity|]. apply outside_agents_activate_if_not_started. }
  destruct (Hcases s1) as (x1 & -> & H1), (Hcases s2) as (x2 & -> & H2).
  by apply alike_unchanged.
Qed.

Lemma alike_verification_loop event s1 s2 :
  alike s1 s2 (update_verification_loop event s1) (update_verification_loop event s2).
Proof.
  unfold update_verification_loop.
  apply alike_attempt; intros author. destruct (truthy author); [|apply alike_same].
  apply alike_attempt; intros []; [apply alike_activate|].
  apply alike_attempt; intros []; [apply alike_activate|apply alike_same].
Qed.

Lemma alike_toolCalls_of event s1 s2 k1 k2 :
  (∀ calls, alike s1 s2 (k1 calls) (k2 calls)) →
  alike s1 s2 (toolCalls_of event s1 k1) (toolCalls_of event s2 k2).
Proof.
  intros Hk. unfold toolCalls_of.
  apply alike_attempt; intros actions. destruct (truthy actions); [|apply Hk].
  apply alike_attempt; intros toolCalls. destruct (truthy toolCalls); [|apply Hk].
  apply alike_attempt; intros l. apply Hk.
Qed.

Lemma alike_builder_tools event s1 s2 :
  alike s1 s2 (update_builder_tools event s1) (update_builder_tools event s2).
Proof.
  unfold update_builder_tools.
  apply alike_toolCalls_of; intros [l|]; [|apply alike_same].
  apply alike_for_each; clear; intros toolCall s1 s2.
  apply alike_attempt; intros name. destruct (truthy name); [|apply alike_same].
  apply alike_attempt; intros []; [apply alike_activate|].
  apply alike_attempt; intros []; [apply alike_activate|apply alike_same].
Qed.

Lemma alike_artifacts event s1 s2 :
  alike s1 s2 (update_artifacts event s1) (update_artifacts event s2).
Proof.
  unfold update_artifacts.
  apply alike_attempt; intros actions. destruct (truthy actions); [|apply alike_same].
  apply alike_attempt; intros artifacts.
  destruct (truthy artifacts); [|apply alike_same].
  apply alike_for_each; clear; intros [filename artifact] s1 s2.
  destruct (Str.endsWith _ _); [|apply alike_same].
  apply alike_attempt; intros filePath. apply alike_pdf.
Qed.

Lemma alike_append (text : value) s1 s2 :
  alike s1 s2
    (if truthy text
     then attempt (to_string text) s1
            (λ t, Normal (with_fullReport (fullReport s1 ++ t) s1))
     else Normal s1)
    (if truthy text
     then attempt (to_string text) s2
            (λ t, Normal (with_fullReport (fullReport s2 ++ t) s2))
     else Normal s2).
Proof.
  destruct (truthy text); [|apply alike_same].
  apply alike_attempt; intros t. apply alike_report.
Qed.

Lemma alike_report_block event s1 s2 :
  alike s1 s2 (update_report event s1) (update_report event s2).
Proof.
  unfold update_report.
  apply alike_attempt; intros content.
  destruct (truthy content) eqn:Hc; [|apply alike_same].
  cbv zeta.
  assert (alike s1 s2
    (attempt (get content (js "parts")) s1 (λ parts,
       if truthy parts then
         attempt (iterate parts) s1 (λ l,
           attempt (parts_text [] l) s1 (λ text,
             if truthy (VString text)
             then attempt (to_string (VString text)) s1
                    (λ t, Normal (with_fullReport (fullReport s1 ++ t) s1))
             else Normal s1))
       else
         attempt (get content (js "text")) s1 (λ text,
           if truthy text
           then (if truthy text
                 then attempt (to_string text) s1
                        (λ t, Normal (with_fullReport (fullReport s1 ++ t) s1))
                 else Normal s1)
           else (if truthy (VString [])
                 then attempt (to_string (VString [])) s1
                        (λ t, Normal (with_fullReport (fullReport s1 ++ t) s1))
                 else Normal s1))))
    (attempt (get content (js "parts")) s2 (λ parts,
       if truthy parts then
         attempt (iterate parts) s2 (λ l,
           attempt (parts_text [] l) s2 (λ text,
             if truthy (VString text)
             then attempt (to_string (VString text)) s2
                    (λ t, Normal (with_fullReport (fullReport s2 ++ t) s2))
             else Normal s2))
       else
         attempt (get content (js "text")) s2 (λ text,
           if truthy text
           then (if truthy text
                 then attempt (to_string text) s2
                        (λ t, Normal (with_fullReport (fullReport s2 ++ t) s2))
                 else Normal s2)
           else (if truthy (VString [])
                 then attempt (to_string (VString [])) s2
                        (λ t, Normal (with_fullReport (fullReport s2 ++ t) s2))
                 else Normal s2))))) as Hobj.
  { apply alike_attempt; intros parts. destruct (truthy parts).
    - apply alike_attempt; intros l. apply alike_attempt; intros text.
      apply alike_append.
    - apply alike_attempt; intros text. destruct (truthy text) eqn:Ht.
      + pose proof (alike_append text s1 s2) as Ha. by rewrite Ht in Ha.
      + apply (alike_append (VString [])). }
  destruct content as [| |b|lit|str|l|props]; try exact Hobj.
  pose proof (alike_append (VString str) s1 s2) as Ha. by rewrite Hc in Ha.
Qed.

Lemma alike_pdf_path event s1 s2 :
  alike s1 s2 (update_pdf_path event s1) (update_pdf_path event s2).
Proof.
  unfold update_pdf_path.
  apply alike_toolCalls_of; intros [l|]; [|apply alike_same].
  apply alike_for_each; clear; intros toolCall s1 s2.
  apply alike_attempt; intros name. destruct (is_string _ name); [|apply alike_same].
  apply alike_attempt; intros resp. destruct (truthy resp); [|apply alike_same].
  apply alike_attempt; intros response.
  apply alike_attempt; intros file_path.
  destruct (truthy file_path); [|apply alike_same].
  destruct file_path; try apply alike_throw.
  destruct (Str.endsWith _ _); [apply alike_pdf|apply alike_same].
Qed.

Lemma alike_event event s1 s2 :
  alike s1 s2 (processStreamEvent event s1) (processStreamEvent event s2).
Proof.
  unfold processStreamEvent.
  repeat (apply alike_and_then; [|intros ? ?]);
    auto using alike_author, alike_verification_loop, alike_builder_tools,
      alike_artifacts, alike_report_block, alike_pdf_path.
Qed.

(** X11.  What an event adds does not depend on the page.  Whether
    [processStreamEvent] throws on an event, the text the event appends to
    the report buffer, and whether and to what it sets the PDF path are
    fixed by the event alone: the agent statuses and the cards have no
    part in it.  The report buffer after any events is the buffer before
    them followed by what each event, in order, adds to an empty
    buffer. *)
Theorem report_text_is_page_independent (events : list value) (s blank : state) :
  fullReport blank = [] →
  fullReport (process_events events s) =
    fullReport s ++
    concat ((λ e, fullReport (final (processStreamEvent e blank))) <$> events) ∧
  ∀ e s',
    is_normal (processStreamEvent e s) = is_normal (processStreamEvent e s') ∧
    (pdfFilePath (final (processStreamEvent e s)) =
       pdfFilePath (final (processStreamEvent e s')) ∨
     pdfFilePath (final (processStreamEvent e s)) = pdfFilePath s ∧
     pdfFilePath (final (processStreamEvent e s')) = pdfFilePath s').
Proof.
  intros Hblank. split.
  - revert s. induction events as [|e l IH]; intros s; simpl;
      [by rewrite app_nil_r|].
    rewrite IH.
    destruct (alike_event e blank s) as [_ (t & q & [Hb _] & [Hs _])].
    rewrite Hb, Hs, Hblank. simpl. by rewrite app_assoc.
  - intros e s'.
    destruct (alike_event e s s') as [Hn (t & q & [_ Hp] & [_ Hp'])].
    split; [exact Hn|]. rewrite Hp, Hp'. destruct q; simpl; [by left|by right].
Qed.

End Alike.

Section AlikeOnThePage.
Local Existing Instance reference_platform.

Lemma report_text_is_page_independent_witness :
  fullReport (process_events [title_event; bold_event] scenario_page) =
  fullReport scenario_page ++
  concat ((λ e, fullReport (final (processStreamEvent e initial_page)))
            <$> [title_event; bold_event]).
Proof.
  refine (proj1 (report_text_is_page_independent [title_event; bold_event]
                   scenario_page initial_page _)).
  reflexivity.
Defined.

End AlikeOnThePage.

(** ** Invariants of a run *)

Section RunInvariant.
Context `{!Platform}.
Variable P : state → Prop.
Hypothesis P_alert : ∀ m s, P s → P (with_alert m s).
Hypothesis P_reset : ∀ s, P s → P (startAnalysis_reset s).
Hypothesis P_session : ∀ id s, P s → P (with_currentSessionId id s).
Hypothesis P_opened : ∀ s, P s → P (stream_opened s).
Hypothesis P_event : ∀ data s, P s → P (final (processStreamEvent data s)).
Hypothesis P_done : ∀ s, P s → P (stream_done s).
Hypothesis P_error : ∀ m s,
  P s → P (with_buttons false false (downloadBtn_disabled s)
             (with_reportContent (ErrorBox m) s)).

Lemma read_loop_invariant reads r s : P s → P (outcome_state (read_loop reads r s)).
Proof.
  revert r s; induction reads as [|[bytes| |e] reads IH]; intros r s Hs; simpl.
  - done.
  - assert (Reflexive (λ s s' : state, P s → P s')) as Hrefl by (by intros ?).
    assert (Transitive (λ s s' : state, P s → P s')) as Htrans
      by (intros ? ? ? H12 H23 ?; auto).
    pose proof (feed_chunk_preserves (λ s s', P s → P s') P_event bytes r s Hs) as Hf.
    destruct (feed_chunk bytes r s) as [r' s']. by apply IH.
  - by apply P_done.
  - by destruct (is_abort e).
Qed.

Lemma startAnalysis_catch_invariant o :
  P (outcome_state o) → P (outcome_state (startAnalysis_catch o)).
Proof.
  destruct o as [r s|s|e s]; simpl; try done.
  intros Hs. destruct (is_abort e); simpl; [done|by apply P_error].
Qed.

Lemma run_body_invariant env s : P s → P (outcome_state (run_body env s)).
Proof.
  intros Hs. unfold run_body.
  destruct (createSession (session_fetch env)) as [e|session_id]; [done|].
  cbv zeta. pose proof (P_session session_id s Hs) as H1. revert H1.
  generalize (with_currentSessionId session_id s). intros s1 H1.
  assert (P (outcome_state (streamQuery (query_fetch env) (reads env) s1))) as Hq.
  { unfold streamQuery. destruct (query_fetch env) as [e|resp]; [done|].
    destruct (negb (response_ok resp)); [by destruct (response_text resp)|].
    destruct (negb (response_body resp)); [done|].
    by apply read_loop_invariant, P_opened. }
  destruct (uploadedFile s1); [|exact Hq]. by destruct (file_read env).
Qed.

Lemma startAnalysis_invariant env s : P s → P (outcome_state (startAnalysis env s)).
Proof.
  intros Hs. unfold startAnalysis.
  destruct (bool_decide _ && bool_decide _); [by apply P_alert|].
  apply startAnalysis_catch_invariant.
  apply (run_body_invariant env (startAnalysis_reset s)). by apply P_reset.
Qed.

End RunInvariant.

(** ** Abort controllers *)

(** Controllers are numbered as they are made.  The current controller
    has been made, only controllers that have been made are aborted, and
    every controller but the current one is aborted. *)
Definition controllers_ok (s : state) : Prop :=
  (∀ c, abortController s = Some c → (c < controllers s)%nat) ∧
  (∀ c, c ∈ aborted s → (c < controllers s)%nat) ∧
  (∀ c, (c < controllers s)%nat → abortController s ≠ Some c → c ∈ aborted s).

Definition controller_fields (s : state) := (abortController s, controllers s, aborted s).

Lemma controllers_ok_eq s s' :
  controller_fields s' = controller_fields s → controllers_ok s → controllers_ok s'.
Proof. unfold controller_fields, controllers_ok. by intros [= -> -> ->]. Qed.

Lemma controller_fields_of_surroundings s s' :
  surroundings s' = surroundings s → controller_fields s' = controller_fields s.
Proof. unfold surroundings, controller_fields. intros [= ]. congruence. Qed.

Lemma controller_fields_eq s a b c :
  controller_fields s = (a, b, c) →
  abortController s = a ∧ controllers s = b ∧ aborted s = c.
Proof. unfold controller_fields. by intros [= -> -> ->]. Qed.

Lemma controller_fields_of_outside s s' :
  outside_agents s' = outside_agents s → controller_fields s' = controller_fields s.
Proof.
  unfold outside_agents. intros E.
  apply controller_fields_of_surroundings. exact (f_equal snd E).
Qed.

Section Controllers.
Context `{!Platform}.

Lemma startAnalysis_reset_controllers s :
  controller_fields (startAnalysis_reset s) =
  (Some (controllers s), S (controllers s),
   match abortController s with
   | Some c => {[ c ]} ∪ aborted s
   | None => aborted s
   end).
Proof.
  unfold startAnalysis_reset. cbv zeta.
  pose proof (controller_fields_of_outside _ _
                (outside_agents_resetAllAgents
                   (with_reportContent PlaceholderStarting (with_fullReport [] s))))
    as Hx.
  change (controller_fields (with_reportContent PlaceholderStarting
                               (with_fullReport [] s)))
    with (controller_fields s) in Hx.
  revert Hx.
  generalize (resetAllAgents (with_reportContent PlaceholderStarting
                                (with_fullReport [] s))).
  intros x Hx. unfold controller_fields in *. simpl.
  injection Hx as -> -> ->. reflexivity.
Qed.

Lemma reset_variables_controllers s :
  controller_fields (reset_variables s) =
  (abortController s, controllers s,
   match abortController s with
   | Some c => {[ c ]} ∪ aborted s
   | None => aborted s
   end).
Proof.
  destruct s as [sid ctl fr pdf st up made ab inp cds rc b1 b2 b3 du fp bl al].
  unfold reset_variables. simpl. by destruct bl.
Qed.

Lemma resetAnalysis_controllers s :
  controller_fields (resetAnalysis s) =
  (abortController s, controllers s,
   match abortController s with
   | Some c => {[ c ]} ∪ aborted s
   | None => aborted s
   end).
Proof.
  rewrite resetAnalysis_eq.
  transitivity (controller_fields (resetAllAgents (reset_variables s))).
  { generalize (resetAllAgents (reset_variables s)). intros x. by destruct x. }
  rewrite (controller_fields_of_outside _ _
             (outside_agents_resetAllAgents (reset_variables s))).
  apply reset_variables_controllers.
Qed.

Lemma controllers_ok_startAnalysis_reset s :
  controllers_ok s → controllers_ok (startAnalysis_reset s).
Proof.
  intros (Hcur & Hab & Hlive). unfold controllers_ok.
  destruct (controller_fields_eq _ _ _ _ (startAnalysis_reset_controllers s))
    as (-> & -> & ->).
  split; [intros c [= <-]; lia|]. split.
  - intros c Hc. destruct (abortController s) as [c0|] eqn:E0.
    + apply elem_of_union in Hc as [->%elem_of_singleton|Hc].
      * specialize (Hcur c0 eq_refl). lia.
      * specialize (Hab c Hc). lia.
    + specialize (Hab c Hc). lia.
  - intros c Hc Hne.
    assert (c < controllers s)%nat as Hlt.
    { destruct (decide (c = controllers s)) as [->|]; [done|lia]. }
    destruct (abortController s) as [c0|] eqn:E0.
    + destruct (decide (c = c0)) as [->|Hc0]; [set_solver|].
      apply elem_of_union; right. apply Hlive; [done|congruence].
    + by apply Hlive.
Qed.

Lemma controllers_ok_resetAnalysis s :
  controllers_ok s →
  controllers_ok (resetAnalysis s) ∧
  ∀ c, (c < controllers (resetAnalysis s))%nat → c ∈ aborted (resetAnalysis s).
Proof.
  intros (Hcur & Hab & Hlive). unfold controllers_ok.
  destruct (controller_fields_eq _ _ _ _ (resetAnalysis_controllers s))
    as (-> & -> & ->).
  assert (∀ c, (c < controllers s)%nat →
               c ∈ match abortController s with
                   | Some c0 => {[ c0 ]} ∪ aborted s
                   | None => aborted s
                   end) as Hall.
  { intros c Hc. destruct (abortController s) as [c0|] eqn:E0.
    - destruct (decide (c = c0)) as [->|Hc0]; [set_solver|].
      apply elem_of_union; right. apply Hlive; [done|congruence].
    - by apply Hlive. }
  split; [|exact Hall]. split; [exact Hcur|]. split; [|by intros c Hc _; apply Hall].
  intros c Hc. destruct (abortController s) as [c0|] eqn:E0; [|by apply Hab].
  apply elem_of_union in Hc as [->%elem_of_singleton|Hc]; [by apply Hcur|by apply Hab].
Qed.

Lemma controllers_ok_stream_done s : controllers_ok s → controllers_ok (stream_done s).
Proof.
  apply controllers_ok_eq.
  destruct (stream_done_outside s) as (_ & _ & _ & _ & _ & E).
  exact (f_equal (λ '(sid, ctl, up, made, ab, inp, du, fp, al), (ctl, made, ab)) E).
Qed.

Lemma controllers_ok_stream_opened s : controllers_ok s → controllers_ok (stream_opened s).
Proof.
  apply controllers_ok_eq. rewrite stream_opened_eq.
  pose proof (controller_fields_of_surroundings _ _
                (surroundings_store_set (js "orchestrator") active s)) as E.
  revert E.
  generalize (store_status (js "orchestrator") active
                (setAgentStatus (js "orchestrator") active s)).
  intros x E. exact E.
Qed.

(** X12.  At most one request is live.  With controllers numbered as
    they are made: if every controller but the current one is aborted,
    this still holds wherever [startAnalysis] stands or ends and after
    [resetAnalysis].  The start of a run aborts the previous controller
    and installs a new one that is not aborted; after [resetAnalysis]
    every controller made so far is aborted. *)
Theorem at_most_one_live_controller (s : state) :
  controllers_ok s →
  (∀ env, controllers_ok (outcome_state (startAnalysis env s))) ∧
  (abortController (startAnalysis_reset s) = Some (controllers s) ∧
   (controllers s ∉ aborted (startAnalysis_reset s)) ∧
   (∀ c, abortController s = Some c → c ∈ aborted (startAnalysis_reset s))) ∧
  controllers_ok (resetAnalysis s) ∧
  ∀ c, (c < controllers (resetAnalysis s))%nat → c ∈ aborted (resetAnalysis s).
Proof.
  intros Hok. split; [|split].
  - intros env. apply (startAnalysis_invariant controllers_ok); try done.
    + apply controllers_ok_startAnalysis_reset.
    + apply controllers_ok_stream_opened.
    + intros data s0. apply controllers_ok_eq, controller_fields_of_surroundings.
      apply same_surroundings_event.
    + apply controllers_ok_stream_done.
  - destruct (controller_fields_eq _ _ _ _ (startAnalysis_reset_controllers s))
      as (-> & _ & ->).
    destruct Hok as (Hcur & Hab & _).
    split; [done|]. split.
    + intros Hin. destruct (abortController s) as [c0|] eqn:E0.
      * apply elem_of_union in Hin as [Heq%elem_of_singleton|Hin].
        -- specialize (Hcur _ eq_refl). lia.
        -- specialize (Hab _ Hin). lia.
      * specialize (Hab _ Hin). lia.
    + intros c ->. set_solver.
  - by apply controllers_ok_resetAnalysis.
Qed.

End Controllers.

Section ControllersOnThePage.
Local Existing Instance reference_platform.

Lemma at_most_one_live_controller_witness :
  controllers_ok (outcome_state (startAnalysis first_run scenario_page)).
Proof.
  refine (proj1 (at_most_one_live_controller scenario_page _) first_run).
  repeat split; simpl; intros c; try done; lia.
Defined.

End ControllersOnThePage.

(** ** What a run keeps *)

(** The uploaded file, the file input, the preview and the text input. *)
Definition inputs (s : state) :=
  (uploadedFile s, diagramUpload_value s, filePreview_display s, input_value s).

Lemma inputs_of_surroundings s s' :
  surroundings s' = surroundings s → inputs s' = inputs s.
Proof. unfold surroundings, inputs. intros [= ]. congruence. Qed.

Lemma inputs_of_outside s s' :
  outside_agents s' = outside_agents s → inputs s' = inputs s.
Proof.
  unfold outside_agents. intros E. apply inputs_of_surroundings. exact (f_equal snd E).
Qed.

Section RunKeeps.
Context `{!Platform}.

Lemma inputs_startAnalysis_reset s : inputs (startAnalysis_reset s) = inputs s.
Proof.
  unfold startAnalysis_reset. cbv zeta.
  transitivity (inputs (resetAllAgents (with_reportContent PlaceholderStarting
                                          (with_fullReport [] s)))).
  { generalize (resetAllAgents (with_reportContent PlaceholderStarting
                                  (with_fullReport [] s))).
    intros x. by destruct x. }
  by rewrite (inputs_of_outside _ _ (outside_agents_resetAllAgents _)).
Qed.

Lemma inputs_stream_opened s : inputs (stream_opened s) = inputs s.
Proof.
  rewrite stream_opened_eq.
  transitivity (inputs (store_status (js "orchestrator") active
                          (setAgentStatus (js "orchestrator") active s))).
  { generalize (store_status (js "orchestrator") active
                  (setAgentStatus (js "orchestrator") active s)).
    intros x. by destruct x. }
  apply inputs_of_surroundings, surroundings_store_set.
Qed.

Lemma inputs_stream_done s : inputs (stream_done s) = inputs s.
Proof.
  destruct (stream_done_outside s) as (_ & _ & _ & _ & _ & E).
  exact (f_equal (λ '(sid, ctl, up, made, ab, inp, du, fp, al), (up, du, fp, inp)) E).
Qed.

(** X13.  A run keeps the inputs.  Wherever [startAnalysis] stands or
    ends, after the alert, a failure, an abort or a finished stream, the
    text of the input, the uploaded file, the file input and the preview
    are what they were when it was called: a finished run clears neither
    the description nor the diagram. *)
Theorem a_run_keeps_the_inputs (env : environment) (s : state) :
  inputs (outcome_state (startAnalysis env s)) = inputs s.
Proof.
  apply (startAnalysis_invariant (λ s', inputs s' = inputs s)); try done.
  - intros s0 <-. apply inputs_startAnalysis_reset.
  - intros s0 <-. apply inputs_stream_opened.
  - intros data s0 <-. apply inputs_of_surroundings, same_surroundings_event.
  - intros s0 <-. apply inputs_stream_done.
Qed.

Lemma startAnalysis_eq env s :
  startAnalysis env s =
  if bool_decide (Str.trim (input_value s) = []) && bool_decide (uploadedFile s = None)
  then Returned (with_alert
         (js "Please enter an architecture description or upload a diagram") s)
  else startAnalysis_catch (run_body env (startAnalysis_reset s)).
Proof. reflexivity. Qed.

Lemma is_pending_catch o : is_pending (startAnalysis_catch o) = is_pending o.
Proof. destruct o as [r s|s|e s]; simpl; try done. by destruct (is_abort e). Qed.

Lemma session_stream_opened s : currentSessionId (stream_opened s) = currentSessionId s.
Proof.
  rewrite stream_opened_eq.
  transitivity (currentSessionId (store_status (js "orchestrator") active
                                    (setAgentStatus (js "orchestrator") active s))).
  { generalize (store_status (js "orchestrator") active
                  (setAgentStatus (js "orchestrator") active s)).
    intros x. by destruct x. }
  unfold setAgentStatus. by destruct (cards s !! card_id (js "orchestrator")).
Qed.

Lemma session_of_surroundings s s' :
  surroundings s' = surroundings s → currentSessionId s' = currentSessionId s.
Proof. unfold surroundings. intros [= ]. congruence. Qed.

(** X14.  [createSession] never resolves to a falsy id: what it returns
    is the truthy [id] of a successful response, or else its truthy
    [session_id].  So the check of lines 196-198 cannot fail, and while
    [startAnalysis] waits for the stream the session id of the page is
    that truthy id. *)
Theorem session_id_is_truthy (env : environment) (s : state) :
  (∀ id, createSession (session_fetch env) = inr id →
     truthy id = true ∧
     ∃ resp data,
       session_fetch env = inr resp ∧ response_ok resp = true ∧
       response_json resp = inr data ∧
       (get data (js "id") = Some id ∨
        (∃ falsy, get data (js "id") = Some falsy ∧ truthy falsy = false) ∧
        get data (js "session_id") = Some id)) ∧
  (is_pending (startAnalysis env s) = true →
   createSession (session_fetch env)
     = inr (currentSessionId (outcome_state (startAnalysis env s))) ∧
   truthy (currentSessionId (outcome_state (startAnalysis env s))) = true).
Proof.
  assert (∀ id, createSession (session_fetch env) = inr id → truthy id = true ∧
     ∃ resp data,
       session_fetch env = inr resp ∧ response_ok resp = true ∧
       response_json resp = inr data ∧
       (get data (js "id") = Some id ∨
        (∃ falsy, get data (js "id") = Some falsy ∧ truthy falsy = false) ∧
        get data (js "session_id") = Some id)) as Hcreate.
  { intros id. unfold createSession.
    destruct (session_fetch env) as [e|resp]; [done|].
    destruct (response_ok resp) eqn:Hok; simpl; [|by destruct (response_text resp)].
    destruct (response_json resp) as [e|data] eqn:Hjson; [done|].
    destruct (get data (js "id")) as [v|] eqn:Hid; [|done].
    destruct (get data (js "session_id")) as [w|] eqn:Hsid; [|done].
    destruct (truthy v) eqn:Hv.
    - rewrite Hv. intros [= <-]. split; [done|]. exists resp, data. by auto.
    - destruct (truthy w) eqn:Hw; [|done]. intros [= <-]. split; [done|].
      exists resp, data. split; [done|]. split; [done|]. split; [done|].
      right. split; [by exists v|done]. }
  split; [exact Hcreate|].
  rewrite startAnalysis_eq.
  destruct (bool_decide _ && bool_decide _); [done|].
  rewrite is_pending_catch. generalize (startAnalysis_reset s). intros s0.
  unfold run_body.
  destruct (createSession (session_fetch env)) as [e|id] eqn:Hc; [done|].
  cbv zeta. intros Hp.
  assert (currentSessionId
            (outcome_state
               (startAnalysis_catch
                  match uploadedFile (with_currentSessionId id s0), file_read env with
                  | Some _, Some e => Thrown e (with_currentSessionId id s0)
                  | _, _ => streamQuery (query_fetch env) (reads env)
                              (with_currentSessionId id s0)
                  end)) = id) as ->;
    [|split; [done|by apply (Hcreate id)]].
  revert Hp.
  assert (currentSessionId (with_currentSessionId id s0) = id) as Hid by done.
  revert Hid. generalize (with_currentSessionId id s0). intros s1 Hid.
  assert (is_pending (streamQuery (query_fetch env) (reads env) s1) = true →
          currentSessionId
            (outcome_state (startAnalysis_catch
                              (streamQuery (query_fetch env) (reads env) s1))) = id)
    as Hq.
  { unfold streamQuery. destruct (query_fetch env) as [e|resp]; [done|].
    destruct (negb (response_ok resp)); [by destruct (response_text resp)|].
    destruct (negb (response_body resp)); [done|].
    intros Hp.
    pose proof (same_surroundings_pending _ _ _ Hp) as Hs.
    apply session_of_surroundings in Hs. rewrite session_stream_opened, Hid in Hs.
    revert Hp Hs. generalize (read_loop (reads env) new_reader (stream_opened s1)).
    intros o. by destruct o. }
  destruct (uploadedFile s1); [|exact Hq]. by destruct (file_read env).
Qed.

End RunKeeps.

Section RunKeepsOnThePage.
Local Existing Instance reference_platform.

Lemma session_id_is_truthy_witness :
  truthy (currentSessionId (outcome_state (startAnalysis second_run scenario_page)))
  = true.
Proof.
  refine (proj2 (proj2 (session_id_is_truthy second_run scenario_page) _)).
  vm_compute. reflexivity.
Defined.

End RunKeepsOnThePage.

(** ** A failure in mid-stream *)

Section MidStream.
Context `{!Platform}.

Lemma no_demotion_feed_chunks chunks r s : no_demotion s (feed_chunks chunks r s).2.
Proof.
  pose proof (no_demotion_read_loop (ReadChunk <$> chunks) r s) as Hn.
  rewrite <- (app_nil_r (ReadChunk <$> chunks)), read_loop_chunks in Hn.
  exact Hn.
Qed.

(** X15.  A failure in mid-stream leaves the cards as they were at the
    failure.  When a read rejects with an error that is no abort, after
    any chunks, the run returns with the error box showing the message of
    the error and Analyze and Reset enabled; the agent statuses and the
    report buffer are what the chunks before had made them.  No stage is
    reset or completed: the orchestrator in particular stays active or
    completed. *)
Theorem mid_stream_failure_keeps_the_statuses
    (resp : response) (chunks : list (list byte)) (e : exn) (rest : list read_result)
    (s : state) :
  response_ok resp = true →
  response_body resp = true →
  is_abort e = false →
  let mid := (feed_chunks chunks new_reader (stream_opened s)).2 in
  let o := startAnalysis_catch
             (streamQuery (inr resp) ((ReadChunk <$> chunks) ++ ReadReject e :: rest) s) in
  is_returned o = true ∧
  reportContent (outcome_state o) = ErrorBox (exn_message e) ∧
  analyzeBtn_disabled (outcome_state o) = false ∧
  resetBtn_disabled (outcome_state o) = false ∧
  downloadBtn_disabled (outcome_state o) = downloadBtn_disabled s ∧
  fullReport (outcome_state o) = fullReport mid ∧
  (∀ k, status_of (outcome_state o) k = status_of mid k) ∧
  (status_of (outcome_state o) (js "orchestrator") = Some active ∨
   status_of (outcome_state o) (js "orchestrator") = Some completed).
Proof.
  intros Hok Hbody He. cbv zeta.
  assert (status_of (feed_chunks chunks new_reader (stream_opened s)).2
            (js "orchestrator") = Some active ∨
          status_of (feed_chunks chunks new_reader (stream_opened s)).2
            (js "orchestrator") = Some completed) as Horch.
  { apply (no_demotion_feed_chunks chunks new_reader (stream_opened s)).
    rewrite status_of_stream_opened. by rewrite bool_decide_eq_true_2. }
  assert (downloadBtn_disabled (feed_chunks chunks new_reader (stream_opened s)).2
          = downloadBtn_disabled s) as Hdl.
  { pose proof (same_surroundings_pending (ReadChunk <$> chunks) new_reader
                  (stream_opened s)) as Hs.
    rewrite <- (app_nil_r (ReadChunk <$> chunks)), read_loop_chunks in Hs.
    specialize (Hs eq_refl). apply buttons_of_surroundings in Hs as [Hb _].
    destruct (stream_opened_surroundings s) as [Hb' _]. rewrite Hb' in Hb.
    unfold buttons_disabled in Hb. cbn [read_loop outcome_state] in Hb.
    by injection Hb. }
  unfold streamQuery. rewrite Hok, Hbody. cbn [negb]. rewrite read_loop_chunks.
  revert Horch Hdl. generalize (feed_chunks chunks new_reader (stream_opened s)).
  intros [r mid] Horch Hdl. cbn [fst snd read_loop] in *. rewrite He.
  cbn [startAnalysis_catch]. rewrite He. cbn [is_returned outcome_state].
  by destruct mid.
Qed.

End MidStream.

Section MidStreamOnThePage.
Local Existing Instance reference_platform.

Lemma mid_stream_failure_keeps_the_statuses_witness :
  reportContent
    (outcome_state
       (startAnalysis_catch
          (streamQuery (inr streaming_response)
             ((ReadChunk <$> [utf8_bytes (report_frame ++ [10])])
              ++ ReadReject (Error (js "network error")) :: [])
             scenario_page))) =
  ErrorBox (js "network error").
Proof.
  refine (proj1 (proj2 (mid_stream_failure_keeps_the_statuses streaming_response
                          [utf8_bytes (report_frame ++ [10])]
                          (Error (js "network error")) [] scenario_page _ _ _)));
    reflexivity.
Defined.

End MidStreamOnThePage.

(** ** The two resets and the statuses *)

Lemma status_of_reset_other l s k :
  k ∉ l →
  status_of (foldl (λ s agentId,
                      store_status agentId waiting (setAgentStatus agentId waiting s))
               s l) k = status_of s k.
Proof.
  revert s; induction l as [|a l IH]; intros s Hk; simpl; [done|].
  apply not_elem_of_cons in Hk as [Hne Hk].
  rewrite (IH _ Hk), status_of_set_store, status_of_store.
  rewrite bool_decide_eq_false_2; [done|]. by intros [? _].
Qed.

Section ResetStatuses.
Context `{!Platform}.

(** X16.  What the two resets do to the statuses.  Both leave each of
    the five stages waiting, with or without a card.  [resetAnalysis]
    leaves no other status behind; the start of a run keeps the status of
    every agent that is not one of the five stages. *)
Theorem resets_and_statuses (s : state) (k : jsstring) :
  (k ∈ STAGES →
   status_of (startAnalysis_reset s) k = Some waiting ∧
   status_of (resetAnalysis s) k = Some waiting) ∧
  (k ∉ STAGES →
   status_of (startAnalysis_reset s) k = status_of s k ∧
   status_of (resetAnalysis s) k = None).
Proof.
  assert (∀ x, status_of (with_buttons false true true x) k = status_of x k) as Hb
    by (intros x; by destruct x).
  split; intros Hk.
  - split; [by apply status_of_startAnalysis_reset|].
    rewrite resetAnalysis_eq, Hb. by apply status_of_resetAllAgents.
  - split.
    + rewrite (status_of_eq _ _ k (proj1 (startAnalysis_reset_fields s))).
      unfold resetAllAgents. by rewrite status_of_reset_other.
    + rewrite resetAnalysis_eq, Hb. unfold resetAllAgents.
      rewrite status_of_reset_other by done.
      unfold status_of.
      destruct (reset_variables_fields s) as (_ & _ & _ & _ & -> & _). done.
Qed.

End ResetStatuses.

Section ResetStatusesOnThePage.
Local Existing Instance reference_platform.

Lemma resets_and_statuses_witness :
  status_of (startAnalysis_reset (store_status (js "reviewer") completed initial_page))
    (js "reviewer")
  = Some completed.
Proof.
  assert (js "reviewer" ∉ STAGES) as Hk.
  { vm_compute. intros Hin.
    repeat (apply elem_of_cons in Hin as [Hin|Hin]; [discriminate Hin|]).
    by apply elem_of_nil in Hin. }
  rewrite (proj1 (proj2 (resets_and_statuses
                           (store_status (js "reviewer") completed initial_page)
                           (js "reviewer")) Hk)).
  vm_compute. reflexivity.
Defined.

End ResetStatusesOnThePage.

(** ** Naming the agent of an event *)

Lemma fuzzy_agent_range a : fuzzy_agent a ∈ STAGES ∨ fuzzy_agent a = a.
Proof.
  unfold fuzzy_agent, STAGES. cbv zeta.
  repeat (match goal with
          | |- context [if ?b then _ else _] =>
              destruct b; [left; repeat (apply elem_of_cons; first [by left|right])|]
          end).
  by right.
Qed.

Section Naming.
Context `{!Platform}.

(** X17.  The table of agent names adds nothing to the chain of
    substring tests.  On an engine whose [toLowerCase] leaves the five
    names of [AGENT_MAPPING] as they are, an author that is a non-empty
    string and names no member of [Object.prototype] is resolved to what
    the chain of substring tests gives for its lowercased name, whether
    the table has it or not; and that is one of the five stages or the
    lowercased name itself. *)
Theorem agent_table_agrees_with_substring_tests (author : jsstring) :
  (∀ name, name ∈ AGENT_MAPPING_own.*1 → toLowerCase name = name) →
  Object_prototype author = None →
  resolve_agent (VString author) = Some (IdString (fuzzy_agent (toLowerCase author))) ∧
  (fuzzy_agent (toLowerCase author) ∈ STAGES ∨
   fuzzy_agent (toLowerCase author) = toLowerCase author).
Proof.
  intros Hlower Hproto. split; [|apply fuzzy_agent_range].
  unfold resolve_agent, AGENT_MAPPING. cbn [to_string mbind option_bind].
  rewrite Hproto.
  destruct (assoc author AGENT_MAPPING_own) as [id|] eqn:Hid; [|done].
  cbn [fmap option_fmap option_map]. do 2 f_equal.
  unfold AGENT_MAPPING_own in Hid. cbn [assoc] in Hid.
  assert (∀ name, name ∈ AGENT_MAPPING_own.*1 →
                  name = author → toLowerCase author = name) as Hl
    by (intros name Hin <-; by apply Hlower).
  repeat (let Hk := fresh in
          case_bool_decide as Hk;
          [injection Hid as <-;
           match type of Hk with
           | ?k = _ =>
               assert (k ∈ AGENT_MAPPING_own.*1) as Hin
                 by (repeat (apply elem_of_cons; first [by left|right]));
               rewrite (Hl _ Hin Hk)
           end;
           by vm_compute|]).
  done.
Qed.

End Naming.

Section NamingOnThePage.
Local Existing Instance reference_platform.

Lemma agent_table_agrees_with_substring_tests_witness :
  resolve_agent (VString (js "Threat_Modeler_Agent")) = Some (IdString (js "modeler")).
Proof.
  refine (proj1 (agent_table_agrees_with_substring_tests (js "Threat_Modeler_Agent") _ _)).
  - intros name Hin. unfold AGENT_MAPPING_own in Hin. cbn [fmap list_fmap fst] in Hin.
    repeat (apply elem_of_cons in Hin as [->|Hin]; [by vm_compute|]).
    by apply elem_of_nil in Hin.
  - by vm_compute.
Defined.

End NamingOnThePage.

(** ** Which statuses an event can touch *)

Section StatusFrame.
Context `{!Platform}.

Lemma author_status_frame event s k :
  (∀ author id,
     get event (js "author") = Some author → truthy author = true →
     resolve_agent author = Some id →
     k ≠ id_text id ∧ next_agent id ≠ Some k) →
  status_of (final (update_author_status event s)) k = status_of s k.
Proof.
  intros Hk. unfold update_author_status.
  destruct (get event (js "author")) as [author|] eqn:Ha; [|done]. cbn [attempt].
  destruct (truthy author) eqn:Ht; [|done].
  destruct (resolve_agent author) as [id|] eqn:Hr; [|done]. cbn [attempt].
  destruct (Hk author id eq_refl Ht Hr) as [Hne Hnext].
  destruct (id_truthy id && _); [|done].
  destruct (get event (js "finishReason")) as [fr|]; [|done]. cbn [attempt].
  assert (status_of (store_status (id_text id) completed
                       (setAgentStatus (id_text id) completed s)) k = status_of s k)
    as Hdone.
  { rewrite status_of_set_store, status_of_store.
    rewrite bool_decide_eq_false_2; [done|]. by intros [? _]. }
  destruct (is_finish fr).
  - destruct (next_agent id) as [n|] eqn:Hn; cbn [final]; [|exact Hdone].
    rewrite status_of_activate_if_not_started.
    rewrite bool_decide_eq_false_2; [exact Hdone|]. intros [-> _]. by apply Hnext.
  - cbn [final]. rewrite status_of_activate_if_not_started.
    rewrite bool_decide_eq_false_2; [done|]. by intros [? _].
Qed.

(** X18.  An event touches the status of at most three agents: the one
    its author resolves to, the successor of that one in
    [AGENT_SEQUENCE], and the builder.  The status of every other agent is
    after the event what it was before, whether the event is processed to
    its end or throws on the way. *)
Theorem an_event_touches_three_statuses (event : value) (s : state) (k : jsstring) :
  k ≠ js "builder" →
  (∀ author id,
     get event (js "author") = Some author → truthy author = true →
     resolve_agent author = Some id →
     k ≠ id_text id ∧ next_agent id ≠ Some k) →
  status_of (final (processStreamEvent event s)) k = status_of s k.
Proof.
  intros Hb Hk. rewrite processStreamEvent_split, final_and_then.
  pose proof (author_status_frame event s k Hk) as Ha.
  destruct (update_author_status event s) as [s1|s1]; simpl in Ha; [|exact Ha].
  rewrite (side_effects_status k _ _ (side_effects_after_author event s1)); [exact Ha|].
  by left.
Qed.

(** X19.  An event with nothing to say changes nothing.  An event in
    which [author], [actions] and [content] are absent or falsy is
    processed to its end and leaves the page as it was; so does every
    event that is a number, a boolean, a string or an array.  On [null]
    the first property read throws, and the page is as it was too. *)
Theorem empty_events_change_nothing (event : value) (s : state) :
  ((∀ k, k ∈ [js "author"; js "actions"; js "content"] →
         ∃ v, get event k = Some v ∧ truthy v = false) →
   processStreamEvent event s = Normal s) ∧
  (match event with
   | VBool _ | VNumber _ | VString _ | VArray _ => processStreamEvent event s = Normal s
   | VNull | VUndefined => processStreamEvent event s = Throw s
   | VObject _ => True
   end).
Proof.
  assert ((∀ k, k ∈ [js "author"; js "actions"; js "content"] →
                ∃ v, get event k = Some v ∧ truthy v = false) →
          processStreamEvent event s = Normal s) as Hquiet.
  { intros Hk.
    destruct (Hk (js "author")) as (author & Ha & Hta); [apply elem_of_cons; by left|].
    destruct (Hk (js "actions")) as (actions & Hb & Htb);
      [apply elem_of_cons; right; apply elem_of_cons; by left|].
    destruct (Hk (js "content")) as (content & Hc & Htc);
      [do 2 (apply elem_of_cons; right); apply elem_of_cons; by left|].
    unfold processStreamEvent, update_author_status, update_verification_loop,
      update_builder_tools, update_artifacts, update_report, update_pdf_path,
      toolCalls_of.
    rewrite Ha, Hb, Hc. cbn [attempt]. rewrite Hta, Htb, Htc. reflexivity. }
  split; [exact Hquiet|].
  destruct event as [| |b|lit|str|l|props]; try done;
    apply Hquiet; intros k _; by exists VUndefined.
Qed.

End StatusFrame.

Section StatusFrameOnThePage.
Local Existing Instance reference_platform.

Lemma an_event_touches_three_statuses_witness :
  status_of (final (processStreamEvent parser_stop_event initial_page)) (js "verifier")
  = status_of initial_page (js "verifier").
Proof.
  refine (an_event_touches_three_statuses parser_stop_event initial_page
            (js "verifier") _ _).
  - by vm_compute.
  - intros author id Ha Ht Hr. vm_compute in Ha. injection Ha as <-.
    vm_compute in Hr. injection Hr as <-. split; by vm_compute.
Defined.

Lemma empty_events_change_nothing_witness :
  processStreamEvent (VObject [(js "partial", VBool true)]) initial_page
  = Normal initial_page.
Proof.
  refine (proj1 (empty_events_change_nothing _ initial_page) _).
  intros k Hk. exists VUndefined.
  repeat (apply elem_of_cons in Hk as [->|Hk]; [by vm_compute|]).
  by apply elem_of_nil in Hk.
Defined.

End StatusFrameOnThePage.

(** ** Text without markup *)

Lemma startsWith_head m marker c s :
  Str.startsWith (m :: marker) (c :: s) = true → c = m.
Proof. simpl. destruct (N.eqb_spec m c); [done|discriminate]. Qed.

Lemma replace_heading_plain m marker tag at_start s :
  m ∉ s → Markdown.replace_heading (m :: marker) tag at_start s = s.
Proof.
  funelim (Markdown.replace_heading (m :: marker) tag at_start s); intros Hm.
  - done.
  - match goal with
    | E : _ && Str.startsWith _ _ && _ = true |- _ =>
        pose proof E as Hs;
        apply andb_prop in Hs as [Hs _]; apply andb_prop in Hs as [_ Hs];
        apply startsWith_head in Hs
    end.
    destruct Hm. apply elem_of_cons; by left.
  - f_equal.
    match goal with IH : _ → Markdown.replace_heading _ _ _ _ = _ |- _ => apply IH end.
    intros Hin. apply Hm. apply elem_of_cons; by right.
Qed.

Lemma replace_span_plain d delim tag s :
  d ∉ s → Markdown.replace_span (d :: delim) tag s = s.
Proof.
  funelim (Markdown.replace_span (d :: delim) tag s); intros Hd.
  - done.
  - match goal with
    | E : (if Str.startsWith ?p ?t && _ then _ else _) = Some _ |- _ =>
        pose proof E as Hs;
        destruct (Str.startsWith p t) eqn:Hp in Hs; [|discriminate Hs];
        apply startsWith_head in Hp
    end.
    destruct Hd. apply elem_of_cons; by left.
  - f_equal.
    match goal with IH : _ → Markdown.replace_span _ _ _ = _ |- _ => apply IH end.
    intros Hin. apply Hd. apply elem_of_cons; by right.
Qed.

Lemma replace_blank_lines_plain s :
  Str.includes [10; 10] s = false → Markdown.replace_blank_lines s = s.
Proof.
  induction s as [|c s IH]; [done|].
  intros Hi. cbn [Str.includes] in Hi. apply orb_false_elim in Hi as [Hs Hi].
  specialize (IH Hi).
  destruct (N.eq_dec c 10) as [->|Hc].
  - destruct s as [|d s]; [done|].
    destruct (N.eq_dec d 10) as [->|Hd]; [done|].
    transitivity (10 :: Markdown.replace_blank_lines (d :: s)); [|by rewrite IH].
    simpl. by destruct d as [|[p|p|]]; try done; repeat (destruct p as [p|p|]; try done).
  - transitivity (c :: Markdown.replace_blank_lines s); [|by rewrite IH].
    simpl. by destruct c as [|[p|p|]]; try done; repeat (destruct p as [p|p|]; try done).
Qed.

Section Verbatim.
Context `{!Platform}.

(** X20.  Text without markup is shown as it is.  A report without [#],
    [*] and backquote and without an empty line goes into the page
    unchanged, between [<p>] and [</p>]: nothing in it is escaped, so
    whatever HTML the report carries becomes part of the page. *)
Theorem plain_text_is_shown_verbatim (s : state) :
  35 ∉ fullReport s → 42 ∉ fullReport s → 96 ∉ fullReport s →
  Str.includes [10; 10] (fullReport s) = false →
  Markdown.render (fullReport s) = js "<p>" ++ fullReport s ++ js "</p>" ∧
  (Str.trim (fullReport s) ≠ [] →
   reportContent (stream_done s) = Rendered (js "<p>" ++ fullReport s ++ js "</p>")).
Proof.
  intros Hhash Hstar Htick Hblank.
  assert (Markdown.render (fullReport s) = js "<p>" ++ fullReport s ++ js "</p>") as Hr.
  { unfold Markdown.render. cbv zeta.
    change (js "# ") with (35 :: js " ").
    change (js "## ") with (35 :: js "# ").
    change (js "### ") with (35 :: js "## ").
    change (js "**") with (42 :: js "*").
    change (js "*") with (42 :: []).
    change (js "`") with (96 :: []).
    rewrite (replace_heading_plain 35 (js " ") _ _ (fullReport s)) by done.
    rewrite (replace_heading_plain 35 (js "# ") _ _ (fullReport s)) by done.
    rewrite (replace_heading_plain 35 (js "## ") _ _ (fullReport s)) by done.
    rewrite (replace_span_plain 42 (js "*") _ (fullReport s)) by done.
    rewrite (replace_span_plain 42 [] _ (fullReport s)) by done.
    rewrite (replace_span_plain 96 [] _ (fullReport s)) by done.
    by rewrite replace_blank_lines_plain. }
  split; [exact Hr|]. intros Hne.
  destruct (stream_done_outside s) as (_ & _ & -> & _).
  by rewrite (bool_decide_eq_false_2 _ Hne), Hr.
Qed.

End Verbatim.

Section VerbatimOnThePage.
Local Existing Instance reference_platform.

Lemma plain_text_is_shown_verbatim_witness :
  Markdown.render (js "<img src=x onerror=alert(1)>")
  = js "<p><img src=x onerror=alert(1)></p>".
Proof.
  assert (∀ c, bool_decide (c ∈ js "<img src=x onerror=alert(1)>") = false →
               c ∉ js "<img src=x onerror=alert(1)>") as Hnot
    by (intros c Hc; by apply bool_decide_eq_false in Hc).
  refine (proj1 (plain_text_is_shown_verbatim
                   (with_fullReport (js "<img src=x onerror=alert(1)>") initial_page)
                   _ _ _ _)).
  - apply Hnot. vm_compute. reflexivity.
  - apply Hnot. vm_compute. reflexivity.
  - apply Hnot. vm_compute. reflexivity.
  - vm_compute. reflexivity.
Defined.

End VerbatimOnThePage.

(** ** The read loop as a fold *)

Section ReadLoopFold.
Context `{!Platform}.

Lemma feed_chunks_snoc chunks c r s :
  feed_chunks (chunks ++ [c]) r s =
  feed_chunk c (feed_chunks chunks r s).1 (feed_chunks chunks r s).2.
Proof. unfold feed_chunks. by rewrite foldl_app. Qed.

Lemma feed_chunks_reader chunks r s s' :
  (feed_chunks chunks r s).1 = (feed_chunks chunks r s').1.
Proof.
  induction chunks as [|c chunks IH] using rev_ind; [done|].
  rewrite !feed_chunks_snoc, IH. apply feed_chunk_reader.
Qed.

Lemma feed_chunks_fold chunks r s :
  ∃ new, decoded (feed_chunks chunks r s).1 = decoded r ++ new ∧
         (feed_chunks chunks r s).2 = process_events new s.
Proof.
  induction chunks as [|c chunks IH] using rev_ind.
  - exists []. by rewrite app_nil_r.
  - destruct IH as (new & Hev & Hst). rewrite feed_chunks_snoc.
    destruct (feed_chunk_fold c (feed_chunks chunks r s).1 (feed_chunks chunks r s).2)
      as (new' & Hev' & Hst').
    exists (new ++ new'). rewrite Hev', Hev, Hst', Hst, process_events_app.
    by rewrite app_assoc.
Qed.

(** X21.  The read loop is a fold of [processStreamEvent] over the
    events of the stream.  What the chunks decode to, the bytes and the
    partial line carried over included, does not depend on the page; the
    page after the chunks is the page before them with the events decoded
    from them processed one after the other, each throw swallowed; and
    when the stream ends, the loop returns that page as the end of the
    stream finishes it. *)
Theorem read_loop_is_a_fold_over_events
    (chunks : list (list byte)) (r : reader) (s : state) :
  (∀ s', (feed_chunks chunks r s').1 = (feed_chunks chunks r s).1) ∧
  ∃ new,
    decoded (feed_chunks chunks r s).1 = decoded r ++ new ∧
    (feed_chunks chunks r s).2 = process_events new s ∧
    ∀ rest,
      read_loop ((ReadChunk <$> chunks) ++ ReadDone :: rest) r s
      = Returned (stream_done (process_events new s)).
Proof.
  split; [intros s'; apply feed_chunks_reader|].
  destruct (feed_chunks_fold chunks r s) as (new & Hev & Hst).
  exists new. split; [exact Hev|]. split; [exact Hst|].
  intros rest. rewrite read_loop_chunks. cbn [read_loop]. by rewrite Hst.
Qed.

End ReadLoopFold.

(** ** Choosing and removing a diagram *)

(** [handleFileSelect(event)], lines 121-142; [selected] is
    [event.target.files[0]].  The second component is the text put into
    [fileName], when a file is taken. *)
Definition handleFileSelect (selected : option file) (s : state) : state * option jsstring :=
  match selected with
  | None => (s, None)
  | Some f =>
      if negb (Str.startsWith (js "image/") (file_type f)) then
        (with_inputs (uploadedFile s) [] (filePreview_display s) (input_value s)
           (with_alert (js "Please select an image file") s), None)
      else if N.ltb (10 * 1024 * 1024) (file_size f) then
        (with_inputs (uploadedFile s) [] (filePreview_display s) (input_value s)
           (with_alert (js "File size must be less than 10MB") s), None)
      else
        (with_inputs (Some f) (diagramUpload_value s) (js "flex") (input_value s) s,
         Some (file_name f))
  end.

(** [removeFile()], lines 145-149. *)
Definition removeFile (s : state) : state :=
  with_inputs None [] (js "none") (input_value s) s.

(** What [handleFileSelect] lets through: an image of at most 10 MiB. *)
Definition acceptable (f : file) : Prop :=
  Str.startsWith (js "image/") (file_type f) = true ∧ file_size f ≤ 10485760.

Definition upload_ok (s : state) : Prop :=
  ∀ f, uploadedFile s = Some f → acceptable f.

Lemma upload_ok_inputs s s' : inputs s' = inputs s → upload_ok s → upload_ok s'.
Proof. unfold inputs, upload_ok. intros [= -> _ _ _]. done. Qed.

Lemma upload_ok_none s upload preview text :
  inputs s = (None, upload, preview, text) → upload_ok s.
Proof. unfold inputs, upload_ok. intros [= -> _ _ _] f. done. Qed.

Section Upload.
Context `{!Platform}.

Lemma inputs_resetAnalysis s : inputs (resetAnalysis s) = (None, [], js "none", []).
Proof.
  rewrite resetAnalysis_eq.
  transitivity (inputs (resetAllAgents (reset_variables s))).
  { generalize (resetAllAgents (reset_variables s)). intros x. by destruct x. }
  rewrite (inputs_of_outside _ _ (outside_agents_resetAllAgents (reset_variables s))).
  destruct s as [sid ctl fr pdf st up made ab inp cds rc b1 b2 b3 du fp bl al].
  unfold reset_variables. simpl. by destruct bl.
Qed.

(** X22.  The uploaded file is always an image of at most 10 MiB.  If
    it is so on a page, it is so after any file selection, after
    [removeFile], wherever a run stands or ends, and after
    [resetAnalysis].  A file that is no image or is larger is refused
    with one alert and an emptied file input, and the file uploaded before
    it, with its preview, stays; a file of exactly 10 MiB is taken.
    [resetAnalysis] leaves the inputs as [removeFile] does, with the text
    emptied too. *)
Theorem uploaded_file_is_a_small_image (s : state) :
  upload_ok s →
  (∀ selected, upload_ok (handleFileSelect selected s).1) ∧
  upload_ok (removeFile s) ∧
  (∀ env, upload_ok (outcome_state (startAnalysis env s))) ∧
  upload_ok (resetAnalysis s) ∧
  (∀ f, ¬ acceptable f →
     uploadedFile (handleFileSelect (Some f) s).1 = uploadedFile s ∧
     filePreview_display (handleFileSelect (Some f) s).1 = filePreview_display s ∧
     diagramUpload_value (handleFileSelect (Some f) s).1 = [] ∧
     (∃ message, alerts (handleFileSelect (Some f) s).1 = message :: alerts s) ∧
     (handleFileSelect (Some f) s).2 = None) ∧
  (∀ f, acceptable f →
     uploadedFile (handleFileSelect (Some f) s).1 = Some f ∧
     filePreview_display (handleFileSelect (Some f) s).1 = js "flex" ∧
     alerts (handleFileSelect (Some f) s).1 = alerts s ∧
     (handleFileSelect (Some f) s).2 = Some (file_name f)) ∧
  inputs (resetAnalysis s) = inputs (removeFile (typed [] s)).
Proof.
  intros Hok.
  assert (∀ f, acceptable f ↔
               negb (Str.startsWith (js "image/") (file_type f)) = false ∧
               N.ltb (10 * 1024 * 1024) (file_size f) = false) as Hacc.
  { intros f. unfold acceptable. rewrite negb_false_iff, N.ltb_ge. done. }
  split; [|split; [|split; [|split; [|split; [|split]]]]].
  - intros [f|]; [|done]. unfold handleFileSelect.
    destruct (negb _) eqn:Ht; [done|].
    destruct (N.ltb _ _) eqn:Hsz; [done|].
    intros f' [= <-]. by apply Hacc.
  - by intros f.
  - intros env. apply (startAnalysis_invariant upload_ok); try done.
    + intros s0. apply upload_ok_inputs, inputs_startAnalysis_reset.
    + intros s0. apply upload_ok_inputs, inputs_stream_opened.
    + intros data s0.
      apply upload_ok_inputs, inputs_of_surroundings, same_surroundings_event.
    + intros s0. apply upload_ok_inputs, inputs_stream_done.
  - exact (upload_ok_none _ _ _ _ (inputs_resetAnalysis s)).
  - intros f Hf. unfold handleFileSelect.
    destruct (negb _) eqn:Ht; [by eauto 10|].
    destruct (N.ltb _ _) eqn:Hsz; [by eauto 10|].
    destruct Hf. by apply Hacc.
  - intros f [Ht Hsz]%Hacc. unfold handleFileSelect. by rewrite Ht, Hsz.
  - by rewrite inputs_resetAnalysis.
Qed.

End Upload.

Section UploadOnThePage.
Local Existing Instance reference_platform.

(** A PNG of exactly 10 MiB is taken. *)
Lemma uploaded_file_is_a_small_image_witness :
  uploadedFile
    (handleFileSelect
       (Some {| file_name := js "diagram.png"; file_type := js "image/png";
                file_size := 10485760 |}) initial_page).1
  = Some {| file_name := js "diagram.png"; file_type := js "image/png";
            file_size := 10485760 |}.
Proof.
  refine (proj1 (proj1 (proj2 (proj2 (proj2 (proj2 (proj2
            (uploaded_file_is_a_small_image initial_page _))))))
            {| file_name := js "diagram.png"; file_type := js "image/png";
               file_size := 10485760 |} _)).
  - intros f Hf. discriminate Hf.
  - split; [reflexivity|]. vm_compute. discriminate.
Defined.

End UploadOnThePage.

(** ** Downloading the report *)

(** What the click on the link made by [downloadReport] or
    [downloadReportAsMarkdown] fetches: the PDF behind [href], or a blob
    with the text of the report, each saved under [filename]. *)
Inductive download : Type :=
| PdfFile (href filename : jsstring)
| MarkdownFile (content filename : jsstring).

(** [downloadReportAsMarkdown()], lines 558-574; [today] is
    [new Date().toISOString().split('T')[0]]. *)
Definition downloadReportAsMarkdown (today : jsstring) (s : state)
    : state * option download :=
  if bool_decide (Str.trim (fullReport s) = [])
  then (with_alert (js "No report to download") s, None)
  else (s, Some (MarkdownFile (fullReport s)
                   (js "threat-model-report-" ++ today ++ js ".md"))).

(** [downloadReport()], lines 523-555; [fetched] is what the request for
    [/api/reports/latest-pdf] resolves to.  Every exception inside the
    [try], the [Error] thrown for a status other than 404 included, ends in
    the [catch], which falls back to the markdown download. *)
Definition downloadReport `{!Platform} (fetched : exn + response) (today : jsstring)
    (s : state) : state * option download :=
  match fetched with
  | inl _ => downloadReportAsMarkdown today s
  | inr resp =>
      if response_ok resp then
        match response_json resp with
        | inl _ => downloadReportAsMarkdown today s
        | inr data =>
            match get data (js "filename") with
            | None => downloadReportAsMarkdown today s
            | Some filename =>
                match to_string filename with
                | Some name =>
                    (s, Some (PdfFile (js "/api/reports/download/" ++ name) name))
                | None => downloadReportAsMarkdown today s
                end
            end
        end
      else if N.eqb (response_status resp) 404 then downloadReportAsMarkdown today s
      else downloadReportAsMarkdown today s
  end.

Section Download.
Context `{!Platform}.

(** The request for the latest PDF has given a file name: the response
    is ok, its body is JSON, and the [filename] read from it converts to
    the string [name]. *)
Definition names_a_pdf (fetched : exn + response) (name : jsstring) : Prop :=
  ∃ resp data filename,
    fetched = inr resp ∧ response_ok resp = true ∧
    response_json resp = inr data ∧
    get data (js "filename") = Some filename ∧ to_string filename = Some name.

(** Whether the request has given a file name is decided by the response. *)
Lemma names_a_pdf_decided (fetched : exn + response) :
  (∃ name, names_a_pdf fetched name) ∨ (∀ name, ¬ names_a_pdf fetched name).
Proof.
  unfold names_a_pdf.
  destruct fetched as [e|resp]; [right; intros name (? & ? & ? & ? & _); done|].
  destruct (response_ok resp) eqn:Hok;
    [|right; intros name (? & ? & ? & [= <-] & ? & _); congruence].
  destruct (response_json resp) as [e|data] eqn:Hjson;
    [right; intros name (? & ? & ? & [= <-] & _ & ? & _); congruence|].
  destruct (get data (js "filename")) as [filename|] eqn:Hget;
    [|right; intros name (? & ? & ? & [= <-] & _ & ? & ? & _); congruence].
  destruct (to_string filename) as [name|] eqn:Hname.
  - left. exists name, resp, data, filename. done.
  - right. intros name (? & ? & ? & [= <-] & _ & ? & ? & ?). congruence.
Qed.

(** X23.  Download never fails, and without a PDF it gives the text
    behind the display.  Whatever the request for the latest PDF resolves
    to, [downloadReport] ends with a PDF download, a markdown download or
    the alert, and changes nothing on the page but the alerts.  The PDF is
    downloaded exactly when the response is ok and its JSON yields a
    [filename] that converts to a string: then the file of that name is
    fetched and saved under that name, a missing [filename] as
    [undefined]; in every other case, status 404 or not,
    [downloadReport] does what [downloadReportAsMarkdown] does: the report
    buffer is downloaded as it is, provided it is not blank, and for a
    blank buffer there is only the alert.  After a finished stream the
    text so downloaded is the text whose rendering is on display. *)
Theorem download_falls_back_to_the_report_text
    (fetched : exn + response) (today : jsstring) (s : state) :
  (∀ name, names_a_pdf fetched name →
           downloadReport fetched today s
           = (s, Some (PdfFile (js "/api/reports/download/" ++ name) name))) ∧
  ((∀ name, ¬ names_a_pdf fetched name) →
   downloadReport fetched today s = downloadReportAsMarkdown today s) ∧
  downloadReportAsMarkdown today s
  = (if bool_decide (Str.trim (fullReport s) = [])
     then (with_alert (js "No report to download") s, None)
     else (s, Some (MarkdownFile (fullReport s)
                      (js "threat-model-report-" ++ today ++ js ".md")))) ∧
  (match (downloadReport fetched today s).2 with
   | Some (PdfFile href name) =>
       (downloadReport fetched today s).1 = s ∧
       href = js "/api/reports/download/" ++ name ∧
       names_a_pdf fetched name
   | Some (MarkdownFile content name) =>
       (downloadReport fetched today s).1 = s ∧
       content = fullReport s ∧ Str.trim (fullReport s) ≠ [] ∧
       name = js "threat-model-report-" ++ today ++ js ".md" ∧
       ∀ name', ¬ names_a_pdf fetched name'
   | None =>
       (downloadReport fetched today s).1 = with_alert (js "No report to download") s ∧
       Str.trim (fullReport s) = [] ∧
       ∀ name', ¬ names_a_pdf fetched name'
   end) ∧
  (∀ resp, fetched = inr resp → response_ok resp = true →
           response_json resp = inr (VObject []) →
           (downloadReport fetched today s).2
           = Some (PdfFile (js "/api/reports/download/undefined") (js "undefined"))) ∧
  (∀ e, Str.trim (fullReport s) ≠ [] →
        (downloadReport (inl e) today (stream_done s)).2
        = Some (MarkdownFile (fullReport s)
                  (js "threat-model-report-" ++ today ++ js ".md")) ∧
        reportContent (stream_done s) = Rendered (Markdown.render (fullReport s))).
Proof.
  assert (∀ name, names_a_pdf fetched name →
                  downloadReport fetched today s
                  = (s, Some (PdfFile (js "/api/reports/download/" ++ name) name)))
    as Hpdf.
  { intros name (resp & data & filename & -> & Hok & Hjson & Hget & Hname).
    unfold downloadReport. by rewrite Hok, Hjson, Hget, Hname. }
  assert ((∀ name, ¬ names_a_pdf fetched name) →
          downloadReport fetched today s = downloadReportAsMarkdown today s) as Hmd.
  { intros Hno. unfold downloadReport.
    destruct fetched as [e|resp]; [done|].
    destruct (response_ok resp) eqn:Hok; [|by destruct (N.eqb _ _)].
    destruct (response_json resp) as [e|data] eqn:Hjson; [done|].
    destruct (get data (js "filename")) as [filename|] eqn:Hget; [|done].
    destruct (to_string filename) as [name|] eqn:Hname; [|done].
    destruct (Hno name). by exists resp, data, filename. }
  assert (downloadReportAsMarkdown today s
          = (if bool_decide (Str.trim (fullReport s) = [])
             then (with_alert (js "No report to download") s, None)
             else (s, Some (MarkdownFile (fullReport s)
                              (js "threat-model-report-" ++ today ++ js ".md")))))
    as Hdef by reflexivity.
  split; [exact Hpdf|]. split; [exact Hmd|]. split; [exact Hdef|].
  split; [|split].
  - destruct (names_a_pdf_decided fetched) as [[name Hname]|Hno].
    + rewrite (Hpdf name Hname). cbn [fst snd]. done.
    + rewrite (Hmd Hno), Hdef. case_bool_decide; cbn [fst snd]; done.
  - intros resp -> Hok Hjson. unfold downloadReport. by rewrite Hok, Hjson.
  - intros e Hne. destruct (stream_done_outside s) as (Hf & _ & Hrc & _).
    cbn [downloadReport]. unfold downloadReportAsMarkdown.
    rewrite Hf, Hrc, (bool_decide_eq_false_2 _ Hne). done.
Qed.

End Download.

Section DownloadOnThePage.
Local Existing Instance reference_platform.

(** The answer of [/api/reports/latest-pdf] naming a file. *)
Definition latest_pdf_response : response :=
  {| response_ok := true; response_status := 200; response_text := inr [];
     response_json := inr (VObject [(js "filename", VString (js "threat_model.pdf"))]);
     response_body := true |}.

Lemma download_falls_back_to_the_report_text_witness :
  downloadReport (inr latest_pdf_response) (js "2026-01-01")
    (with_fullReport (js "Report") initial_page)
  = (with_fullReport (js "Report") initial_page,
     Some (PdfFile (js "/api/reports/download/threat_model.pdf")
             (js "threat_model.pdf"))).
Proof.
  refine (proj1 (download_falls_back_to_the_report_text
                   (inr latest_pdf_response) (js "2026-01-01")
                   (with_fullReport (js "Report") initial_page))
            (js "threat_model.pdf") _).
  exists latest_pdf_response,
    (VObject [(js "filename", VString (js "threat_model.pdf"))]),
    (VString (js "threat_model.pdf")).
  repeat split; reflexivity.
Defined.

End DownloadOnThePage.

(** ** An event of the verification loop *)

Section VerificationLoop.
Context `{!Platform}.

Lemma side_effects_after_verification_loop event s :
  rtc side_effect s
    (final (Normal s >>> update_builder_tools event >>> update_artifacts event
            >>> update_report event >>> update_pdf_path event)).
Proof.
  repeat (apply chain_and_then; [|intros ?]);
    auto using side_effects_builder_tools, side_effects_artifacts,
      side_effects_report, side_effects_pdf_path.
  done.
Qed.

(** X24.  One event of the verification loop starts two agents.  The
    substring tests give the verifier for an author such as
    [verification_loop], and the block for the verification loop then
    starts the builder: after an event of such an author that carries no
    finish reason, the verifier, if it has a card, and the builder are
    both active unless they had started before. *)
Theorem verification_loop_starts_verifier_and_builder
    (event : value) (author : jsstring) (finishReason : value) (s : state) :
  get event (js "author") = Some (VString author) →
  author ≠ [] →
  resolve_agent (VString author) = Some (IdString (js "verifier")) →
  Str.includes (js "verification_loop") author = true ∨
  Str.includes (js "verification-loop") author = true →
  get event (js "finishReason") = Some finishReason →
  is_finish finishReason = false →
  has_card s (js "verifier") →
  status_of (final (processStreamEvent event s)) (js "verifier")
    = (if not_started s (js "verifier") then Some active
       else status_of s (js "verifier")) ∧
  status_of (final (processStreamEvent event s)) (js "builder")
    = (if not_started s (js "builder") then Some active
       else status_of s (js "builder")).
Proof.
  intros Hauthor Hne Hresolve Hloop Hfr Hfinish Hcard.
  assert (truthy (VString author) = true) as Htruthy
    by (simpl; by rewrite bool_decide_eq_false_2).
  unfold processStreamEvent.
  rewrite (update_author_status_seen event (VString author) finishReason
             (js "verifier") s) by done.
  cbn [and_then].
  set (s1 := activate_if_not_started (js "verifier") s).
  assert (update_verification_loop event s1
          = Normal (activate_if_not_started (js "builder") s1)) as ->.
  { unfold update_verification_loop. rewrite Hauthor. cbn [attempt].
    rewrite Htruthy. cbn [includes attempt].
    destruct Hloop as [-> | ->]; [done|].
    by destruct (Str.includes (js "verification_loop") author). }
  cbn [and_then].
  set (s2 := activate_if_not_started (js "builder") s1).
  assert (∀ k, k = js "verifier" ∨ k = js "builder" →
               status_of s2 k = if not_started s k then Some active else status_of s k)
    as H2.
  { intros k Hk. unfold s2, s1. rewrite !status_of_activate_if_not_started.
    unfold not_started at 1. rewrite status_of_activate_if_not_started.
    destruct Hk as [-> | ->].
    - rewrite (bool_decide_eq_false_2 (js "verifier" = js "builder" ∧ _))
        by (intros [? _]; done).
      rewrite (bool_decide_eq_true_2 (js "verifier" = js "verifier" ∧ _))
        by (split; [done|by vm_compute]).
      cbn [andb]. by destruct (not_started s (js "verifier")).
    - rewrite (bool_decide_eq_true_2 (js "builder" = js "builder" ∧ _))
        by (split; [done|by vm_compute]).
      rewrite (bool_decide_eq_false_2 (js "builder" = js "verifier" ∧ _))
        by (intros [? _]; done).
      cbn [andb]. unfold not_started.
      by destruct (status_of s (js "builder")) as [[]|]. }
  pose proof (side_effects_after_verification_loop event s2) as Hchain.
  cbn [and_then] in Hchain.
  split.
  - rewrite (side_effects_status _ _ _ Hchain); [apply H2; by left|].
    left. by vm_compute.
  - rewrite (side_effects_status _ _ _ Hchain); [apply H2; by right|].
    right. unfold not_started. rewrite (H2 (js "builder")) by (by right).
    unfold not_started. by destruct (status_of s (js "builder")) as [[]|].
Qed.

End VerificationLoop.

Section VerificationLoopOnThePage.
Local Existing Instance reference_platform.

Lemma verification_loop_starts_verifier_and_builder_witness :
  status_of (final (processStreamEvent
                      (VObject [(js "author", VString (js "verification_loop"))])
                      initial_page)) (js "verifier") = Some active.
Proof.
  refine (proj1 (verification_loop_starts_verifier_and_builder
                   (VObject [(js "author", VString (js "verification_loop"))])
                   (js "verification_loop") VUndefined initial_page _ _ _ _ _ _ _)).
  - reflexivity.
  - by vm_compute.
  - by vm_compute.
  - left. by vm_compute.
  - reflexivity.
  - reflexivity.
  - eexists. vm_compute. reflexivity.
Defined.

End VerificationLoopOnThePage.

(** ** The message of a query *)

(** [s.split(',')] *)
Fixpoint split_comma (s : jsstring) : list jsstring :=
  match s with
  | [] => [[]]
  | c :: s' =>
      if N.eqb c 44 then [] :: split_comma s'
      else match split_comma s' with
           | piece :: pieces => (c :: piece) :: pieces
           | [] => [[c]]
           end
  end.

(** [fileToBase64(file)], lines 152-167, when the [FileReader] has loaded
    [result]: what the promise resolves to. *)
Definition fileToBase64 (f : file) (result : jsstring) : value :=
  VObject [ (js "data", match split_comma result !! 1%nat with
                        | Some base64 => VString base64
                        | None => VUndefined
                        end);
            (js "mimeType", VString (file_type f));
            (js "displayName", VString (file_name f)) ].

(** [messageParts], lines 203-219; [uploaded] is the uploaded file with
    what its [FileReader] loads. *)
Definition messageParts (architectureText : jsstring) (uploaded : option (file * jsstring))
    : list value :=
  (if bool_decide (architectureText = []) then []
   else [VObject [(js "text", VString architectureText)]])
  ++ match uploaded with
     | Some (f, result) =>
         let fileData := fileToBase64 f result in
         [VObject [(js "inlineData",
                    VObject [(js "mimeType",
                              default VUndefined (get fileData (js "mimeType")));
                             (js "data",
                              default VUndefined (get fileData (js "data")))])]]
     | None => []
     end.

Lemma split_comma_plain s : 44 ∉ s → split_comma s = [s].
Proof.
  induction s as [|c s IH]; [done|]. intros Hc.
  apply not_elem_of_cons in Hc as [Hne Hc]. simpl.
  destruct (N.eqb_spec c 44) as [->|_]; [done|]. by rewrite IH.
Qed.

Lemma split_comma_app pre rest :
  44 ∉ pre → split_comma (pre ++ 44 :: rest) = pre :: split_comma rest.
Proof.
  induction pre as [|c pre IH]; [done|]. intros Hc.
  apply not_elem_of_cons in Hc as [Hne Hc]. simpl.
  destruct (N.eqb_spec c 44) as [->|_]; [done|]. by rewrite IH.
Qed.

(** The message of the query of a run.  [architectureText] is what line
    171 reads from the input on the page [checked], the page on which the
    run is started; [uploadedFile] is read again at line 209, after the
    session has been created, on the page [built] as it is then; [result]
    is what the [FileReader] loads. *)
Definition query_message (checked built : state) (result : jsstring) : list value :=
  messageParts (Str.trim (input_value checked))
    (match uploadedFile built with
     | Some f => Some (f, result)
     | None => None
     end).

Lemma uploadedFile_of_inputs s s' : inputs s' = inputs s → uploadedFile s' = uploadedFile s.
Proof. unfold inputs. by intros [= -> _ _ _]. Qed.

Section QueryMessage.
Context `{!Platform}.

(** The page on which line 209 reads [uploadedFile] when nothing but the
    run itself has touched the page since it was started. *)
Definition page_at_line_209 (session_id : value) (checked : state) : state :=
  with_currentSessionId session_id (startAnalysis_reset checked).

Lemma uploadedFile_at_line_209 session_id checked :
  uploadedFile (page_at_line_209 session_id checked) = uploadedFile checked.
Proof.
  unfold page_at_line_209.
  transitivity (uploadedFile (startAnalysis_reset checked)).
  { generalize (startAnalysis_reset checked). intros x. by destruct x. }
  apply uploadedFile_of_inputs, inputs_startAnalysis_reset.
Qed.

(** X25.  The message of a query is built after the input check, from
    the text read at the check and the file that is uploaded when the
    session has been created.  It has the trimmed text first, if that is
    not empty, and then the diagram, if one is uploaded then; it is empty
    exactly when the text is blank and no file is uploaded at that
    moment.  With a text the query therefore never goes out empty, and
    when nothing but the run has touched the page since the check, the
    message is empty exactly when the check stops the run.  But
    [removeFile] stays available during a run: with a blank text, a file
    removed while the session is being created passes the check and
    leaves the query with an empty message.  For a data URL whose media
    type and payload hold no comma, the diagram part carries the payload
    after [;base64,] as its data and the type of the file as its media
    type.  The page of line 209 is the one on which [startAnalysis] goes
    on when the session has been created: there it looks for the file,
    reads it, and opens the stream. *)
Theorem the_message_is_built_after_the_check
    (checked built : state) (result : jsstring) :
  (query_message checked built result = [] ↔
   Str.trim (input_value checked) = [] ∧ uploadedFile built = None) ∧
  (Str.trim (input_value checked) ≠ [] →
   ∃ diagram,
     query_message checked built result
     = VObject [(js "text", VString (Str.trim (input_value checked)))] :: diagram) ∧
  (∀ session_id,
     query_message checked (page_at_line_209 session_id checked) result = [] ↔
     bool_decide (Str.trim (input_value checked) = [])
     && bool_decide (uploadedFile checked = None) = true) ∧
  (∀ session_id,
     Str.trim (input_value checked) = [] → uploadedFile checked ≠ None →
     bool_decide (Str.trim (input_value checked) = [])
     && bool_decide (uploadedFile checked = None) = false ∧
     query_message checked (removeFile (page_at_line_209 session_id checked)) result
     = []) ∧
  (∀ f mime payload,
     uploadedFile built = Some f → 44 ∉ mime → 44 ∉ payload →
     query_message checked built (js "data:" ++ mime ++ js ";base64," ++ payload)
     = (if bool_decide (Str.trim (input_value checked) = []) then []
        else [VObject [(js "text", VString (Str.trim (input_value checked)))]])
       ++ [VObject [(js "inlineData",
                     VObject [(js "mimeType", VString (file_type f));
                              (js "data", VString payload)])]]) ∧
  (∀ env session_id,
     Str.trim (input_value checked) ≠ [] ∨ uploadedFile checked ≠ None →
     createSession (session_fetch env) = inr session_id →
     startAnalysis env checked =
     startAnalysis_catch
       match uploadedFile (page_at_line_209 session_id checked), file_read env with
       | Some _, Some e => Thrown e (page_at_line_209 session_id checked)
       | _, _ => streamQuery (query_fetch env) (reads env)
                   (page_at_line_209 session_id checked)
       end).
Proof.
  assert (∀ built', query_message checked built' result = [] ↔
                    Str.trim (input_value checked) = [] ∧ uploadedFile built' = None)
    as Hempty.
  { intros built'. unfold query_message, messageParts.
    case_bool_decide as Ht; destruct (uploadedFile built') as [f|]; simpl; naive_solver. }
  split; [apply Hempty|]. split; [|split; [|split; [|split]]].
  - intros Ht. unfold query_message, messageParts.
    rewrite (bool_decide_eq_false_2 _ Ht). by eexists.
  - intros session_id. rewrite Hempty, uploadedFile_at_line_209.
    by rewrite andb_true_iff, !bool_decide_eq_true.
  - intros session_id Ht Hf. split.
    + rewrite (bool_decide_eq_false_2 (uploadedFile checked = None)) by done.
      apply andb_false_r.
    + apply Hempty. split; [done|].
      generalize (page_at_line_209 session_id checked). intros x. reflexivity.
  - intros f mime payload Hf Hmime Hpayload.
    unfold query_message, messageParts, fileToBase64. rewrite Hf. cbv zeta.
    change (js "data:" ++ mime ++ js ";base64," ++ payload)
      with (js "data:" ++ mime ++ js ";base64" ++ 44 :: payload).
    rewrite !app_assoc, split_comma_app, split_comma_plain; [done|done|].
    assert (∀ (c : N) (l : list N), bool_decide (c ∈ l) = false → c ∉ l) as Hnot
      by (intros c l Hc; by apply bool_decide_eq_false in Hc).
    rewrite !not_elem_of_app.
    split; [split; [apply Hnot; by vm_compute|done]|apply Hnot; by vm_compute].
  - intros env session_id Hgo Hsession.
    rewrite (startAnalysis_started env checked Hgo). unfold run_body.
    by rewrite Hsession.
Qed.

End QueryMessage.

Section QueryMessageOnThePage.
Local Existing Instance reference_platform.

(** The page as loaded with a diagram chosen and no text. *)
Definition diagram_only_page : state :=
  (handleFileSelect
     (Some {| file_name := js "diagram.png"; file_type := js "image/png";
              file_size := 4 |}) initial_page).1.

(** The check lets the run start, the file is removed while the session
    is being created, and the message is empty. *)
Lemma the_message_is_built_after_the_check_witness :
  bool_decide (Str.trim (input_value diagram_only_page) = [])
  && bool_decide (uploadedFile diagram_only_page = None) = false ∧
  query_message diagram_only_page
    (removeFile (page_at_line_209 (VString (js "session-1")) diagram_only_page))
    (js "data:image/png;base64,iVBORw0KGgo=")
  = [].
Proof.
  refine (proj1 (proj2 (proj2 (proj2
            (the_message_is_built_after_the_check diagram_only_page diagram_only_page
               (js "data:image/png;base64,iVBORw0KGgo="))))) _ _ _).
  - vm_compute. reflexivity.
  - vm_compute. discriminate.
Defined.

End QueryMessageOnThePage.

(** ** The data of an event: artifacts and report text *)

Lemma with_pdfFilePath_twice v w s :
  with_pdfFilePath w (with_pdfFilePath v s) = with_pdfFilePath w s.
Proof. reflexivity. Qed.

Section EventData.
Context `{!Platform}.

(** [artifact.filePath || filename] *)
Definition artifact_path (filename : jsstring) (artifact : value) : value :=
  match get artifact (js "filePath") with
  | Some filePath => if truthy filePath then filePath else VString filename
  | None => VString filename
  end.

(** The entries of an artifact delta that name a PDF. *)
Definition pdf_entries (props : list (jsstring * value)) : list (jsstring * value) :=
  filter (λ entry, Str.endsWith (js ".pdf") entry.1 = true) props.

Lemma for_each_artifacts props s :
  Forall (λ entry, is_Some (get entry.2 (js "filePath"))) (pdf_entries props) →
  for_each (λ '(filename, artifact) s,
              if Str.endsWith (js ".pdf") filename then
                attempt (get artifact (js "filePath")) s (λ filePath,
                  Normal (with_pdfFilePath
                            (if truthy filePath then filePath else VString filename) s))
              else Normal s) props s
  = Normal (match last (pdf_entries props) with
            | Some (filename, artifact) =>
                with_pdfFilePath (artifact_path filename artifact) s
            | None => s
            end).
Proof.
  revert s. induction props as [|[filename artifact] props IH]; intros s Hok; [done|].
  unfold pdf_entries in *. cbn [for_each]. rewrite filter_cons in *. cbn [fst] in *.
  destruct (Str.endsWith (js ".pdf") filename) eqn:Hpdf.
  - rewrite decide_True in * by done.
    apply Forall_cons in Hok as [[filePath Hget] Hok]. cbn [snd] in Hget.
    rewrite Hget. cbn [attempt and_then]. rewrite (IH _ Hok).
    rewrite last_cons.
    destruct (last (filter _ props)) as [[f a]|]; [done|].
    unfold artifact_path. by rewrite Hget.
  - rewrite decide_False in * by done. cbn [and_then]. by apply IH.
Qed.

(** X26.  The last PDF artifact wins.  When [actions.artifactDelta] is
    an object in which no entry named [*.pdf] is [null], the block for
    the artifacts ends normally and leaves in [pdfFilePath] the path of
    the last such entry in the order of the object: its [filePath] if
    that is truthy, else its name, as for the version numbers the agent
    framework puts there.  Without such an entry the page stays as it
    is. *)
Theorem the_last_pdf_artifact_wins
    (event actions : value) (props : list (jsstring * value)) (s : state) :
  get event (js "actions") = Some actions →
  get actions (js "artifactDelta") = Some (VObject props) →
  Forall (λ entry, entry.2 ≠ VNull ∧ entry.2 ≠ VUndefined) (pdf_entries props) →
  update_artifacts event s
  = Normal (match last (pdf_entries props) with
            | Some (filename, artifact) =>
                with_pdfFilePath (artifact_path filename artifact) s
            | None => s
            end).
Proof.
  intros Hactions Hdelta Hok. unfold update_artifacts.
  rewrite Hactions. cbn [attempt].
  assert (truthy actions = true) as ->.
  { destruct actions; try done; simpl in Hdelta; by injection Hdelta. }
  rewrite Hdelta. cbn [attempt truthy entries].
  apply for_each_artifacts.
  eapply Forall_impl; [exact Hok|]. intros [filename artifact] [Hn Hu]. cbn [snd] in *.
  destruct artifact; try done; by eexists.
Qed.

(** The texts of the parts of a content, for parts that are objects with
    a string under [text]. *)
Definition part_of_text (t : jsstring) : value := VObject [(js "text", VString t)].

Lemma parts_text_strings acc parts texts :
  Forall2 (λ part t, get part (js "text") = Some (VString t)) parts texts →
  parts_text acc parts = Some (acc ++ concat texts).
Proof.
  intros Hparts. revert acc.
  induction Hparts as [|part t parts texts Hget _ IH]; intros acc; simpl;
    [by rewrite app_nil_r|].
  rewrite Hget. cbn [mbind option_bind truthy to_string].
  case_bool_decide as Ht; cbn [negb].
  - subst t. by rewrite IH.
  - cbn [mbind option_bind]. by rewrite IH, app_assoc.
Qed.

(** X27.  The parts of a content are appended in order.  For a content
    with an array under [parts] whose elements carry strings under
    [text], the block for the content ends normally and appends to the
    report buffer the texts of the parts, one after the other; when they
    are all empty the buffer is not touched.  A [text] beside [parts] is
    not looked at. *)
Theorem parts_are_appended_in_order
    (event content : value) (parts : list value) (texts : list jsstring) (s : state) :
  get event (js "content") = Some content →
  get content (js "parts") = Some (VArray parts) →
  Forall2 (λ part t, get part (js "text") = Some (VString t)) parts texts →
  update_report event s
  = Normal (if bool_decide (concat texts = []) then s
            else with_fullReport (fullReport s ++ concat texts) s).
Proof.
  intros Hcontent Hparts Htexts. unfold update_report.
  rewrite Hcontent. cbn [attempt].
  assert (∃ props, content = VObject props) as [props ->].
  { destruct content; try done; by eexists. }
  cbn [truthy]. cbv zeta. rewrite Hparts. cbn [attempt truthy iterate].
  rewrite (parts_text_strings [] parts texts Htexts). cbn [attempt app truthy].
  case_bool_decide; [done|]. done.
Qed.

End EventData.

Section EventDataOnThePage.
Local Existing Instance reference_platform.

(** An artifact delta as the agent framework sends it: names with
    version numbers. *)
Definition versions : list (jsstring * value) :=
  [(js "report.md", VNumber (js "0")); (js "report.pdf", VNumber (js "0"))].

Definition versions_event : value :=
  VObject [(js "actions", VObject [(js "artifactDelta", VObject versions)])].

Lemma the_last_pdf_artifact_wins_witness :
  pdfFilePath (final (update_artifacts versions_event initial_page))
  = VString (js "report.pdf").
Proof.
  rewrite (the_last_pdf_artifact_wins versions_event
             (VObject [(js "artifactDelta", VObject versions)]) versions initial_page
             eq_refl eq_refl).
  - vm_compute. reflexivity.
  - vm_compute. repeat constructor; discriminate.
Defined.

Definition two_parts : list value :=
  [part_of_text (js "# Threat"); part_of_text (js " model")].

Definition two_parts_event : value :=
  VObject [(js "content", VObject [(js "parts", VArray two_parts)])].

Lemma parts_are_appended_in_order_witness :
  fullReport (final (update_report two_parts_event initial_page))
  = js "# Threat model".
Proof.
  rewrite (parts_are_appended_in_order two_parts_event
             (VObject [(js "parts", VArray two_parts)]) two_parts
             [js "# Threat"; js " model"] initial_page eq_refl eq_refl).
  - vm_compute. reflexivity.
  - repeat constructor.
Defined.

End EventDataOnThePage.

(** ** A throw before the content *)

(** The report buffer is the same. *)
Definition same_report (s s' : state) : Prop := fullReport s' = fullReport s.

Lemma same_report_rtc s s' : rtc same_report s s' → same_report s s'.
Proof.
  induction 1 as [|s1 s2 s3 H12 _ IH]; [done|].
  unfold same_report in *. by rewrite IH.
Qed.

Lemma same_report_outside s s' :
  outside_agents s' = outside_agents s → rtc same_report s s'.
Proof.
  intros E. apply rtc_once. unfold same_report. exact (f_equal (λ t, t.1.1) E).
Qed.

Section Throw.
Context `{!Platform}.

Lemma same_report_activate k s : rtc same_report s (activate_if_not_started k s).
Proof. apply same_report_outside, outside_agents_activate_if_not_started. Qed.

Lemma same_report_author event s :
  rtc same_report s (final (update_author_status event s)).
Proof.
  unfold update_author_status.
  apply chain_attempt; intros author. destruct (truthy author); [|done].
  apply chain_attempt; intros agentId. destruct (id_truthy agentId && _); [|done].
  apply chain_attempt; intros finishReason.
  destruct (is_finish finishReason); [|apply same_report_activate].
  assert (rtc same_report s (store_status (id_text agentId) completed
                               (setAgentStatus (id_text agentId) completed s))) as Hc
    by apply same_report_outside, outside_agents_setAgentStatus.
  destruct (next_agent agentId); simpl; [|done].
  etrans; [exact Hc|apply same_report_activate].
Qed.

Lemma same_report_verification_loop event s :
  rtc same_report s (final (update_verification_loop event s)).
Proof.
  unfold update_verification_loop.
  apply chain_attempt; intros author. destruct (truthy author); [|done].
  apply chain_attempt; intros []; [apply same_report_activate|].
  apply chain_attempt; intros []; [apply same_report_activate|done].
Qed.

Lemma same_report_builder_tools event s :
  rtc same_report s (final (update_builder_tools event s)).
Proof.
  unfold update_builder_tools.
  apply chain_toolCalls_of; intros [l|]; [|done].
  apply chain_for_each; clear; intros toolCall s.
  apply chain_attempt; intros name. destruct (truthy name); [|done].
  apply chain_attempt; intros []; [apply same_report_activate|].
  apply chain_attempt; intros []; [apply same_report_activate|done].
Qed.

Lemma same_report_artifacts event s :
  rtc same_report s (final (update_artifacts event s)).
Proof.
  unfold update_artifacts.
  apply chain_attempt; intros actions. destruct (truthy actions); [|done].
  apply chain_attempt; intros artifacts. destruct (truthy artifacts); [|done].
  apply chain_for_each; clear; intros [filename artifact] s.
  destruct (Str.endsWith _ _); [|done].
  apply chain_attempt; intros filePath. by apply rtc_once.
Qed.

(** The four blocks before the content: lines 372-453. *)
Definition before_the_content (event : value) (s : state) : completion :=
  update_author_status event s
  >>> update_verification_loop event
  >>> update_builder_tools event
  >>> update_artifacts event.

Lemma same_report_before_the_content event s :
  same_report s (final (before_the_content event s)).
Proof.
  apply same_report_rtc. unfold before_the_content.
  repeat (apply chain_and_then; [|intros ?]);
    auto using same_report_author, same_report_verification_loop,
      same_report_builder_tools, same_report_artifacts.
Qed.

(** X28.  A throw before the content loses the text.  When one of the
    blocks that come before the content throws, on an author that is
    truthy and neither a known name nor a string, on tool calls that
    cannot be iterated, on a [null] artifact, the event is given up as a
    whole: the status changes made up to there stay, and the text the
    event carries is not appended to the report, on this page or on any
    other. *)
Theorem a_throw_before_the_content_loses_the_text (event : value) (s : state) :
  is_normal (before_the_content event s) = false →
  is_normal (processStreamEvent event s) = false ∧
  final (processStreamEvent event s) = final (before_the_content event s) ∧
  ∀ s', fullReport (final (processStreamEvent event s')) = fullReport s'.
Proof.
  intros Hthrow.
  assert (∀ s', is_normal (before_the_content event s') = false) as Hall.
  { intros s'. rewrite <- Hthrow. unfold before_the_content.
    assert (alike s' s (before_the_content event s') (before_the_content event s))
      as [Hn _]; [|exact Hn].
    unfold before_the_content.
    repeat (apply alike_and_then; [|intros ? ?]);
      auto using alike_author, alike_verification_loop, alike_builder_tools,
        alike_artifacts. }
  assert (∀ s', processStreamEvent event s' = before_the_content event s') as Heq.
  { intros s'. specialize (Hall s'). unfold processStreamEvent.
    change (update_author_status event s' >>> update_verification_loop event
            >>> update_builder_tools event >>> update_artifacts event)
      with (before_the_content event s').
    by destruct (before_the_content event s'). }
  split; [by rewrite Heq|]. split; [by rewrite Heq|].
  intros s'. rewrite Heq. apply same_report_before_the_content.
Qed.

End Throw.

Section ThrowOnThePage.
Local Existing Instance reference_platform.

(** An author that is a number: it has no [toLowerCase]. *)
Definition numbered_event : value :=
  VObject [(js "author", VNumber (js "7")); (js "content", VString (js "text"))].

Lemma a_throw_before_the_content_loses_the_text_witness :
  fullReport (final (processStreamEvent numbered_event initial_page)) = [].
Proof.
  refine (proj2 (proj2 (a_throw_before_the_content_loses_the_text numbered_event
                          initial_page _)) initial_page).
  vm_compute. reflexivity.
Defined.

End ThrowOnThePage.

(** ** The orchestrator *)

(** The first read that is no chunk says that the stream is done. *)
Fixpoint stream_ends (reads : list read_result) : bool :=
  match reads with
  | ReadChunk _ :: reads' => stream_ends reads'
  | ReadDone :: _ => true
  | _ => false
  end.

Section Orchestrator.
Context `{!Platform}.

Lemma read_loop_ends reads r s :
  stream_ends reads = true →
  ∃ mid, read_loop reads r s = Returned (stream_done mid) ∧
         no_demotion s mid ∧ same_cards s mid.
Proof.
  revert r s; induction reads as [|[bytes| |e] reads IH]; intros r s; simpl; try done.
  - intros Hends.
    pose proof (feed_chunk_preserves no_demotion no_demotion_event bytes r s) as Hn.
    pose proof (feed_chunk_preserves same_cards same_cards_event bytes r s) as Hc.
    destruct (feed_chunk bytes r s) as [r' s'].
    destruct (IH r' s' Hends) as (mid & -> & Hn' & Hc').
    exists mid. split; [done|]. split; by etrans.
  - intros _. by exists s.
Qed.

(** X29.  The orchestrator is on for the whole stream.  From the
    opening of the stream on, whatever is read, the orchestrator is active
    or completed at every point the read loop can stand or end at; and
    when the stream ends and the orchestrator has a card, it is
    completed. *)
Theorem orchestrator_is_on_for_the_whole_stream
    (reads : list read_result) (r : reader) (s : state) :
  (status_of (outcome_state (read_loop reads r (stream_opened s))) (js "orchestrator")
     = Some active ∨
   status_of (outcome_state (read_loop reads r (stream_opened s))) (js "orchestrator")
     = Some completed) ∧
  (stream_ends reads = true → has_card s (js "orchestrator") →
   status_of (outcome_state (read_loop reads r (stream_opened s))) (js "orchestrator")
     = Some completed).
Proof.
  assert (status_of (stream_opened s) (js "orchestrator") = Some active) as Hopen
    by (rewrite status_of_stream_opened; by rewrite bool_decide_eq_true_2).
  split.
  - by apply (no_demotion_read_loop reads r (stream_opened s)).
  - intros Hends Hcard.
    destruct (read_loop_ends reads r (stream_opened s) Hends) as (mid & -> & Hn & Hc).
    cbn [outcome_state].
    assert (has_card mid (js "orchestrator")) as Hcard'
      by (by apply Hc, has_card_stream_opened).
    destruct (proj2 (Hn (js "orchestrator")) Hopen) as [Ha|Hd].
    + apply stream_done_completes; [apply elem_of_cons; by left|done|done].
    + by apply (no_demotion_stream_done mid).
Qed.

End Orchestrator.

Section OrchestratorOnThePage.
Local Existing Instance reference_platform.

Lemma orchestrator_is_on_for_the_whole_stream_witness :
  status_of
    (outcome_state
       (read_loop [ReadChunk (utf8_bytes (report_frame ++ [10])); ReadDone] new_reader
          (stream_opened initial_page))) (js "orchestrator")
  = Some completed.
Proof.
  refine (proj2 (orchestrator_is_on_for_the_whole_stream _ new_reader initial_page) _ _).
  - reflexivity.
  - eexists. vm_compute. reflexivity.
Defined.

End OrchestratorOnThePage.

(** ** Setting a status twice *)

Lemma classList_remove_statuses_idemp l :
  classList_remove_statuses (classList_remove_statuses l) = classList_remove_statuses l.
Proof.
  unfold classList_remove_statuses. induction l as [|c l IH]; [done|].
  rewrite (filter_cons _ c l). destruct (decide _) as [Hc|Hc]; [|exact IH].
  rewrite filter_cons, decide_True by done. by rewrite IH.
Qed.

Lemma classList_remove_set st l :
  classList_remove_statuses
    (classList_add (status_name st) (classList_remove_statuses l))
  = classList_remove_statuses l.
Proof.
  rewrite classList_set_status. unfold classList_remove_statuses at 1.
  rewrite filter_app. fold (classList_remove_statuses (classList_remove_statuses l)).
  rewrite classList_remove_statuses_idemp, filter_cons, decide_False, filter_nil.
  - by rewrite app_nil_r.
  - intros Hnot. apply Hnot, (status_name_class st).
Qed.

Lemma obj_set_twice k st st' o : obj_set k st' (obj_set k st o) = obj_set k st' o.
Proof. unfold obj_set. case_bool_decide; [done|]. apply insert_insert_eq. Qed.

(** X30.  The last status set is the one the page has.  Setting the
    status of an agent twice leaves the page as setting the second status
    alone does, the card and the store alike; so setting a status is
    idempotent.  And on an agent with a card [setAgentStatus] has stored
    the status already: the assignment to [agentStatuses] that follows it
    at every call site changes nothing. *)
Theorem the_last_status_wins (k : jsstring) (st st' : status) (s : state) :
  setAgentStatus k st' (setAgentStatus k st s) = setAgentStatus k st' s ∧
  setAgentStatus k st (setAgentStatus k st s) = setAgentStatus k st s ∧
  (has_card s k → store_status k st (setAgentStatus k st s) = setAgentStatus k st s).
Proof.
  assert (∀ st st', setAgentStatus k st' (setAgentStatus k st s) = setAgentStatus k st' s)
    as Hlast.
  { clear st st'. intros st st'.
    destruct (cards s !! card_id k) as [c|] eqn:Hc.
    - unfold setAgentStatus. rewrite Hc.
      cbn [cards store_status with_agentStatuses with_cards].
      rewrite lookup_insert_eq. unfold store_status, with_agentStatuses, with_cards.
      cbn. rewrite obj_set_twice, insert_insert_eq, classList_remove_set.
      by destruct (agent_status_text c).
    - unfold setAgentStatus. rewrite Hc. by rewrite Hc. }
  split; [apply Hlast|]. split; [apply Hlast|].
  intros [c Hc]. unfold setAgentStatus. rewrite Hc.
  unfold store_status, with_agentStatuses, with_cards. cbn.
  by rewrite obj_set_twice.
Qed.

Lemma the_last_status_wins_witness :
  store_status (js "parser") active (setAgentStatus (js "parser") active initial_page)
  = setAgentStatus (js "parser") active initial_page.
Proof.
  refine (proj2 (proj2 (the_last_status_wins (js "parser") active active initial_page)) _).
  eexists. vm_compute. reflexivity.
Defined.
